(** * Listener-socket bring-up of the POSIX event engine

    A shallow embedding of
    [src/core/lib/event_engine/posix_engine/posix_engine_listener_utils.cc]
    (the [GRPC_POSIX_SOCKET_UTILS_COMMON] variant) and the properties of it
    that the specification states.

    The translation unit talks to the kernel and to helpers declared in
    headers that are not part of the sources.  Both are gathered in a
    [Platform] record: every function below is parametrised by it, and every
    theorem holds for an arbitrary platform unless it says otherwise.  The
    code itself is a computation in a small monad that records the calls it
    makes and can abort the process (a failed [CHECK], [Crash]). *)

From Stdlib Require Import ZArith List String Bool Lia.
From Stdlib Require Import Strings.Byte.
Import ListNotations.
Open Scope string_scope.
Open Scope list_scope.
Open Scope Z_scope.

(** ** Bytes and socket addresses *)

Definition byte_val (b : byte) : Z := Z.of_N (Byte.to_N b).

Definition byte_of_Z (z : Z) : byte :=
  match Byte.of_N (Z.to_N (z mod 256)) with
  | Some b => b
  | None => x00
  end.

(** [EventEngine::ResolvedAddress]: the [size()] bytes found at [address()].
    The object keeps them in a zero-initialised buffer, so a read past the
    size (within the buffer) yields a zero byte. *)
Definition ResolvedAddress := list byte.

Definition byte_at (a : ResolvedAddress) (i : nat) : byte := nth i a x00.

(** [memcmp(p, q, n) == 0] over two byte ranges of the same length. *)
Fixpoint memcmp_eq (p q : list byte) : bool :=
  match p, q with
  | [], [] => true
  | x :: p', y :: q' => Byte.eqb x y && memcmp_eq p' q'
  | _, _ => false
  end.

(** Address families and structure sizes of the Linux socket headers. *)
Definition AF_UNIX : Z := 1.
Definition AF_INET : Z := 2.
Definition AF_INET6 : Z := 10.
Definition sizeof_sockaddr_in : nat := 16.
Definition sizeof_sockaddr_in6 : nat := 28.

(** [uint32_t] arithmetic: values wrap modulo 2^32. *)
Definition u32 (x : Z) : Z := x mod 2 ^ 32.
Definition not32 (x : Z) : Z := u32 (Z.lnot x).
Definition shl32 (x n : Z) : Z := u32 (Z.shiftl x n).

Section ByteOrder.

(** The byte order of the host: [true] for big-endian. *)
Variable host_big_endian : bool.

(** A [uint16_t] and a [uint32_t] read from memory ([memcpy] into the
    integer), and the bytes of a [uint32_t] in memory. *)
Definition load16 (b0 b1 : byte) : Z :=
  if host_big_endian
  then 256 * byte_val b0 + byte_val b1
  else byte_val b0 + 256 * byte_val b1.

Definition load32 (b0 b1 b2 b3 : byte) : Z :=
  if host_big_endian
  then 16777216 * byte_val b0 + 65536 * byte_val b1 + 256 * byte_val b2 + byte_val b3
  else byte_val b0 + 256 * byte_val b1 + 65536 * byte_val b2 + 16777216 * byte_val b3.

(** Byte [i] (in memory order) of the 32-bit value [x]. *)
Definition mem_byte32 (x : Z) (i : Z) : Z :=
  if host_big_endian
  then Z.land (Z.shiftr x (8 * (3 - i))) 255
  else Z.land (Z.shiftr x (8 * i)) 255.

Definition bswap32 (x : Z) : Z :=
  Z.lor (Z.lor (Z.shiftl (Z.land x 255) 24)
               (Z.shiftl (Z.land (Z.shiftr x 8) 255) 16))
        (Z.lor (Z.shiftl (Z.land (Z.shiftr x 16) 255) 8)
               (Z.land (Z.shiftr x 24) 255)).

Definition htonl (x : Z) : Z := if host_big_endian then x else bswap32 x.

(** [addr->sa_family]: a 16-bit field in host order at offset 0. *)
Definition sa_family (a : ResolvedAddress) : Z :=
  load16 (byte_at a 0) (byte_at a 1).

Definition kV4LinkLocalPrefix : list Z := [0xa9; 0xfe].
Definition kV6LinkLocalPrefix : list Z := [0xfe; 0x80].

(** [memcmp(&w, prefix, 2) == 0] for a 32-bit object [w]. *)
Definition memcmp32_prefix2 (w : Z) (prefix : list Z) : bool :=
  (mem_byte32 w 0 =? nth 0 prefix 0) && (mem_byte32 w 1 =? nth 1 prefix 0).

Definition IsSockAddrLinkLocal (resolved_addr : ResolvedAddress) : bool :=
  let addr := resolved_addr in
  if sa_family addr =? AF_INET then
    (* sin_addr lives at offset 4 of sockaddr_in *)
    if (byte_val (byte_at addr 4) =? nth 0 kV4LinkLocalPrefix 0)
       && (byte_val (byte_at addr 5) =? nth 1 kV4LinkLocalPrefix 0)
    then true else false
  else if sa_family addr =? AF_INET6 then
    (* sin6_addr lives at offset 8 of sockaddr_in6 *)
    let first32bits :=
      load32 (byte_at addr 8) (byte_at addr 9) (byte_at addr 10) (byte_at addr 11) in
    let mask := shl32 (not32 0) 22 in
    let first32bits := Z.land first32bits (htonl mask) in
    if memcmp32_prefix2 first32bits kV6LinkLocalPrefix then true else false
  else false.

End ByteOrder.

(** The first 32 bits of an IPv6 address as a number, most significant
    byte first (how the address is written). *)
Definition word_be (b0 b1 b2 b3 : byte) : Z :=
  16777216 * byte_val b0 + 65536 * byte_val b1 + 256 * byte_val b2 + byte_val b3.


(** ** Statuses *)

Inductive StatusCode : Type :=
| kCancelled | kUnknown | kInvalidArgument | kNotFound
| kFailedPrecondition | kInternal | kUnavailable.

(** [absl::Status]: OK, or an error code with a message. *)
Inductive Status : Type :=
| OkStatus
| ErrorStatus (code : StatusCode) (msg : string).

(** [absl::StatusOr<T>]: a value, or a non-OK status. *)
Inductive StatusOr (T : Type) : Type :=
| Value (v : T)
| Failure (code : StatusCode) (msg : string).
Arguments Value {T} v.
Arguments Failure {T} code msg.

Definition ok (s : Status) : bool :=
  match s with OkStatus => true | ErrorStatus _ _ => false end.

Definition message (s : Status) : string :=
  match s with OkStatus => "" | ErrorStatus _ m => m end.

Definition has_value {T} (r : StatusOr T) : bool :=
  match r with Value _ => true | Failure _ _ => false end.

Definition status {T} (r : StatusOr T) : Status :=
  match r with Value _ => OkStatus | Failure c m => ErrorStatus c m end.

Definition FailedPreconditionError (m : string) : Status :=
  ErrorStatus kFailedPrecondition m.

(** An error [Status] returned from a function whose type is [StatusOr<T>]. *)
Definition as_failure {T} (s : Status) : StatusOr T :=
  match s with
  | ErrorStatus c m => Failure c m
  | OkStatus => Failure kInternal "OK status is not a valid StatusOr"
  end.

(** ** Options, sockets and the container *)

Record PosixTcpOptions : Type := {
  allow_reuse_port : bool;
  expand_wildcard_addrs : bool;
  exclude_link_local_addresses : bool;
  dscp : Z;
  (** what the socket mutator and the user-timeout settings amount to is
      decided by the platform, which is handed the whole options value *)
  socket_mutator : Z;
  keep_alive_time_ms : Z;
  keep_alive_timeout_ms : Z
}.

Inductive DSMode : Type :=
| DSMODE_NONE | DSMODE_IPV4 | DSMODE_IPV6 | DSMODE_DUALSTACK.

Definition DSMode_eqb (a b : DSMode) : bool :=
  match a, b with
  | DSMODE_NONE, DSMODE_NONE | DSMODE_IPV4, DSMODE_IPV4
  | DSMODE_IPV6, DSMODE_IPV6 | DSMODE_DUALSTACK, DSMODE_DUALSTACK => true
  | _, _ => false
  end.

(** [PosixSocketWrapper]: a file descriptor. *)
Record PosixSocketWrapper : Type := { Fd : Z }.

Record ListenerSocket : Type := {
  sock : PosixSocketWrapper;
  port : Z;
  zero_copy_enabled : bool;
  addr : ResolvedAddress;
  dsmode : DSMode
}.

Definition set_zero_copy_enabled (b : bool) (s : ListenerSocket) : ListenerSocket :=
  {| sock := sock s; port := port s; zero_copy_enabled := b;
     addr := addr s; dsmode := dsmode s |}.
Definition set_port (p : Z) (s : ListenerSocket) : ListenerSocket :=
  {| sock := sock s; port := p; zero_copy_enabled := zero_copy_enabled s;
     addr := addr s; dsmode := dsmode s |}.
Definition set_addr (a : ResolvedAddress) (s : ListenerSocket) : ListenerSocket :=
  {| sock := sock s; port := port s; zero_copy_enabled := zero_copy_enabled s;
     addr := a; dsmode := dsmode s |}.

(** Modelled from the spec: [ListenerSocketsContainer] is an interface
    declared in the header, which is not part of the sources.  The spec
    describes it as an ordered, append-only collection of [ListenerSocket]
    with a lookup that tests whether an address is already present by
    content equality. *)
Definition ListenerSocketsContainer := list ListenerSocket.

Definition Append (c : ListenerSocketsContainer) (s : ListenerSocket)
  : ListenerSocketsContainer := c ++ [s].

Definition Find (c : ListenerSocketsContainer) (a : ResolvedAddress)
  : StatusOr ListenerSocket :=
  match find (fun s => memcmp_eq (addr s) a) c with
  | Some s => Value s
  | None => Failure kNotFound "Socket not found!"
  end.

(** The local variables of [ListenerContainerAddAllLocalAddresses] that its
    loop updates, with the container it is handed by reference. *)
Record EnumState : Type := {
  listener_sockets : ListenerSocketsContainer;
  op_status : Status;
  no_local_addresses : bool;
  assigned_port : Z
}.

(** The state the enumerator enters its loop with. *)
Definition enum_start (ls : ListenerSocketsContainer) : EnumState :=
  {| listener_sockets := ls; op_status := OkStatus;
     no_local_addresses := true; assigned_port := 0 |}.

(** One node of the list [getifaddrs] returns; [ifa_addr] is the memory of
    the socket address it points to, when it is not null. *)
Record ifaddrs : Type := {
  ifa_name : option string;
  ifa_flags : Z;
  ifa_addr : option (list byte)
}.

(** ** Calls to the outside and the platform that answers them *)

Inductive SockOpt : Type :=
| SetSocketReusePort (v : Z)
| SetSocketZeroCopy
| SetSocketNonBlocking (v : Z)
| SetSocketCloexec (v : Z)
| SetSocketLowLatency (v : Z)
| SetSocketReuseAddr (v : Z)
| SetSocketDscp (d : Z)
| TrySetSocketTcpUserTimeout (options : PosixTcpOptions) (is_client : bool)
| SetSocketNoSigpipeIfPossible
| ApplySocketMutatorInOptions (usage : Z) (options : PosixTcpOptions).

Inductive Call : Type :=
| call_CreateDualStackSocket (a : ResolvedAddress)
| call_sockopt (fd : Z) (o : SockOpt)
| call_bind (fd : Z) (a : ResolvedAddress)
| call_listen (fd : Z) (backlog : Z)
| call_getsockname (fd : Z)
| call_close (fd : Z)
| call_getifaddrs
| call_freeifaddrs.

(** The history of a process: the calls it has made so far, oldest first. *)
Definition History := list Call.

Record Platform : Type := {
  (** build configuration *)
  GRPC_HAVE_IFADDRS : bool;
  GRPC_LINUX_ERRQUEUE : bool;
  host_big_endian : bool;
  SOMAXCONN : Z;
  INT_MAX : Z;
  (** helpers of [tcp_socket_utils.h] *)
  ResolvedAddressMakeWild4 : Z -> ResolvedAddress;
  ResolvedAddressMakeWild6 : Z -> ResolvedAddress;
  ResolvedAddressSetPort : ResolvedAddress -> Z -> ResolvedAddress;
  ResolvedAddressGetPort : ResolvedAddress -> Z;
  ResolvedAddressIsV4Mapped : ResolvedAddress -> option ResolvedAddress;
  ResolvedAddressIsVSock : ResolvedAddress -> bool;
  ResolvedAddressToString : ResolvedAddress -> StatusOr string;
  StrReplaceAll_nul_at : string -> string;
  IsSocketReusePortSupported : bool;
  (** what the process finds once and keeps: the first line of
      /proc/sys/net/core/somaxconn as [strtol] reads it ([None]: [fopen]
      failed; [Some None]: [fgets] failed; [Some (Some (i, nl))]: the number
      read and whether a newline follows it), and the descriptor the probe
      [socket(AF_INET, SOCK_DGRAM, 0)] returns *)
  proc_somaxconn : option (option (Z * bool));
  ipv4_probe_fd : Z;
  (** the socket wrapper and the system calls; an answer may depend on
      everything the process did before *)
  sys_CreateDualStackSocket : History -> ResolvedAddress -> StatusOr Z * DSMode;
  sys_sockopt : History -> Z -> SockOpt -> Status;
  sys_bind : History -> Z -> ResolvedAddress -> Z;
  sys_listen : History -> Z -> Z -> Z;
  sys_getsockname : History -> Z -> Z * ResolvedAddress;
  sys_strerror_errno : History -> string;
  sys_getifaddrs : History -> Z * list ifaddrs
}.

(** ** The monad of the embedding

    A computation reads the history it starts from and yields an outcome
    together with the calls it made itself.  [Aborted] is the end of the
    process: a failed [CHECK], [Crash], or the dereference of a failed
    [StatusOr]. *)

Inductive Outcome (A : Type) : Type :=
| Done (a : A)
| Aborted.
Arguments Done {A} a.
Arguments Aborted {A}.

Definition IO (A : Type) : Type := History -> Outcome A * list Call.

Definition ret {A} (a : A) : IO A := fun _ => (Done a, []).

Definition bind {A B} (m : IO A) (f : A -> IO B) : IO B :=
  fun h =>
    match m h with
    | (Done a, e1) =>
        match f a (h ++ e1) with
        | (o, e2) => (o, e1 ++ e2)
        end
    | (Aborted, e1) => (Aborted, e1)
    end.

Definition crash {A} : IO A := fun _ => (Aborted, []).

(** A call to the outside: it is recorded, and answered from the history. *)
Definition perform {A} (c : Call) (answer : History -> A) : IO A :=
  fun h => (Done (answer h), [c]).

(** A value the platform holds that depends on the history but is no call
    of its own ([errno]). *)
Definition observe {A} (answer : History -> A) : IO A :=
  fun h => (Done (answer h), []).

Declare Scope io_scope.
Delimit Scope io_scope with io.
Notation "x <- m ;; k" := (bind m (fun x => k))
  (at level 61, m at next level, right associativity) : io_scope.
Notation "' pat <- m ;; k" := (bind m (fun x => match x with pat => k end))
  (at level 61, pat pattern, m at next level, right associativity) : io_scope.
Notation "m ;; k" := (bind m (fun _ => k))
  (at level 61, right associativity) : io_scope.
Open Scope io_scope.

(** [CHECK(cond)]: the process dies when the condition is false. *)
Definition CHECK (cond : bool) : IO unit := if cond then ret tt else crash.


(** [absl::StrCat]. *)
Definition StrCat (parts : list string) : string := String.concat "" parts.

(** [GRPC_RETURN_IF_ERROR(expr)]: leave the function with the status of
    [expr] when it is not OK; [early] builds what the function returns. *)
Definition RETURN_IF_ERROR {A} (m : IO Status) (early : Status -> A) (k : IO A) : IO A :=
  st <- m ;; if ok st then k else ret (early st).

Notation "'GRPC_RETURN_IF_ERROR' m 'returning' early ;; k" :=
  (RETURN_IF_ERROR m early k)
  (at level 61, m at next level, early at next level, right associativity) : io_scope.

(** ** The translation unit *)

Section ListenerUtils.

Variable P : Platform.

(** *** Calls *)

Definition CreateDualStackSocket (a : ResolvedAddress) : IO (StatusOr Z * DSMode) :=
  perform (call_CreateDualStackSocket a) (fun h => sys_CreateDualStackSocket P h a).
Definition sockopt (fd : Z) (o : SockOpt) : IO Status :=
  perform (call_sockopt fd o) (fun h => sys_sockopt P h fd o).
Definition bind_ (fd : Z) (a : ResolvedAddress) : IO Z :=
  perform (call_bind fd a) (fun h => sys_bind P h fd a).
Definition listen (fd : Z) (backlog : Z) : IO Z :=
  perform (call_listen fd backlog) (fun h => sys_listen P h fd backlog).
Definition getsockname (fd : Z) : IO (Z * ResolvedAddress) :=
  perform (call_getsockname fd) (fun h => sys_getsockname P h fd).
Definition close (fd : Z) : IO unit :=
  perform (call_close fd) (fun _ => tt).
Definition getifaddrs : IO (Z * list ifaddrs) :=
  perform call_getifaddrs (fun h => sys_getifaddrs P h).
Definition freeifaddrs : IO unit :=
  perform call_freeifaddrs (fun _ => tt).
(** [std::strerror(errno)] *)
Definition strerror_errno : IO string := observe (sys_strerror_errno P).

(** *** GetUnusedPort, SystemHasIfAddrs *)

(** Bind to "::" to get a port number not used by any address. *)
Definition GetUnusedPort : IO (StatusOr Z) :=
  let wild := ResolvedAddressMakeWild6 P 0 in
  '(sock, dsmode) <- CreateDualStackSocket wild ;;
  match sock with
  | Failure c m => ret (Failure c m)
  | Value fd =>
      let wild := if DSMode_eqb dsmode DSMODE_IPV4
                  then ResolvedAddressMakeWild4 P 0 else wild in
      rc <- bind_ fd wild ;;
      if negb (rc =? 0) then
        close fd ;;
        err <- strerror_errno ;;
        ret (as_failure (FailedPreconditionError (StrCat ["bind(GetUnusedPort): "; err])))
      else
        '(rc, wild) <- getsockname fd ;;
        if negb (rc =? 0) then
          close fd ;;
          err <- strerror_errno ;;
          ret (as_failure (FailedPreconditionError
                             (StrCat ["getsockname(GetUnusedPort): "; err])))
        else
          close fd ;;
          let port_ := ResolvedAddressGetPort P wild in
          if port_ <=? 0 then ret (as_failure (FailedPreconditionError "Bad port"))
          else ret (Value port_)
  end.

Definition SystemHasIfAddrs : bool := GRPC_HAVE_IFADDRS P.

(** *** The accept queue size *)

Definition MIN_SAFE_ACCEPT_QUEUE_SIZE : Z := 100.

(** get max listen queue size on linux (the log line for a suspiciously
    small value is not modelled) *)
Definition InitMaxAcceptQueueSize : Z :=
  let n := SOMAXCONN P in
  match proc_somaxconn P with
  | None => SOMAXCONN P
  | Some line =>
      let n :=
        match line with
        | Some (i, end_is_newline) =>
            if (0 <? i) && (i <=? INT_MAX P) && end_is_newline then i else n
        | None => n
        end in
      let max_accept_queue_size := n in
      max_accept_queue_size
  end.

Definition GetMaxAcceptQueueSize : Z := InitMaxAcceptQueueSize.

(** *** PrepareSocket *)

(** The second value of the enumeration [grpc_fd_usage]. *)
Definition GRPC_FD_SERVER_LISTENER_USAGE : Z := 1.

(** The body of [PrepareSocket] below the declaration of [sock_cleanup]:
    it yields the status returned, the socket as it was left and the value
    of [close_fd] when the scope is left. *)
Definition PrepareSocket_scope (options : PosixTcpOptions) (socket : ListenerSocket)
           (fd : Z) (close_fd : bool) : IO (Status * ListenerSocket * bool) :=
  let is_ip := negb (sa_family (host_big_endian P) (addr socket) =? AF_UNIX)
               && negb (ResolvedAddressIsVSock P (addr socket)) in
  GRPC_RETURN_IF_ERROR
    (if IsSocketReusePortSupported P && allow_reuse_port options && is_ip
     then sockopt fd (SetSocketReusePort 1) else ret OkStatus)
    returning (fun st => (st, socket, close_fd)) ;;
  socket <- (if GRPC_LINUX_ERRQUEUE P then
               zc <- sockopt fd SetSocketZeroCopy ;;
               (* it's not fatal *)
               ret (if negb (ok zc) then socket else set_zero_copy_enabled true socket)
             else ret socket) ;;
  GRPC_RETURN_IF_ERROR (sockopt fd (SetSocketNonBlocking 1))
    returning (fun st => (st, socket, close_fd)) ;;
  GRPC_RETURN_IF_ERROR (sockopt fd (SetSocketCloexec 1))
    returning (fun st => (st, socket, close_fd)) ;;
  GRPC_RETURN_IF_ERROR
    (if is_ip then
       GRPC_RETURN_IF_ERROR (sockopt fd (SetSocketLowLatency 1)) returning (fun st => st) ;;
       GRPC_RETURN_IF_ERROR (sockopt fd (SetSocketReuseAddr 1)) returning (fun st => st) ;;
       GRPC_RETURN_IF_ERROR (sockopt fd (SetSocketDscp (dscp options))) returning (fun st => st) ;;
       _ <- sockopt fd (TrySetSocketTcpUserTimeout options false) ;;
       ret OkStatus
     else ret OkStatus)
    returning (fun st => (st, socket, close_fd)) ;;
  GRPC_RETURN_IF_ERROR (sockopt fd SetSocketNoSigpipeIfPossible)
    returning (fun st => (st, socket, close_fd)) ;;
  GRPC_RETURN_IF_ERROR
    (sockopt fd (ApplySocketMutatorInOptions GRPC_FD_SERVER_LISTENER_USAGE options))
    returning (fun st => (st, socket, close_fd)) ;;
  rc <- bind_ fd (addr socket) ;;
  if rc <? 0 then
    let sockaddr_str :=
      match ResolvedAddressToString P (addr socket) with
      | Value s => s
      | Failure _ _ => "<unparsable>"
      end in
    let sockaddr_str := StrReplaceAll_nul_at P sockaddr_str in
    err <- strerror_errno ;;
    ret (FailedPreconditionError
           (StrCat ["Error in bind for address '"; sockaddr_str; "': "; err]),
         socket, close_fd)
  else
    rc <- listen fd GetMaxAcceptQueueSize ;;
    if rc <? 0 then
      err <- strerror_errno ;;
      ret (FailedPreconditionError (StrCat ["Error in listen: "; err]), socket, close_fd)
    else
      '(rc, sockname_temp) <- getsockname fd ;;
      if rc <? 0 then
        err <- strerror_errno ;;
        ret (FailedPreconditionError (StrCat ["Error in getsockname: "; err]),
             socket, close_fd)
      else
        let socket := set_port (ResolvedAddressGetPort P sockname_temp) socket in
        (* No errors. Set close_fd to false to ensure the socket is not closed. *)
        let close_fd := false in
        ret (OkStatus, socket, close_fd).

(** Prepare a recently-created socket for listening.  The socket is passed
    by reference: the result carries it as the call leaves it. *)
Definition PrepareSocket (options : PosixTcpOptions) (socket : ListenerSocket)
  : IO (Status * ListenerSocket) :=
  let fd := Fd (sock socket) in
  CHECK (0 <=? fd) ;;
  let close_fd := true in
  let socket := set_zero_copy_enabled false socket in
  let socket := set_port 0 socket in
  '(st, socket, close_fd) <- PrepareSocket_scope options socket fd close_fd ;;
  (* sock_cleanup runs when the scope is left *)
  (if close_fd && (0 <=? fd) then close fd else ret tt) ;;
  ret (st, socket).

(** *** CreateAndPrepareListenerSocket *)

(** [ListenerSocket socket;] *)
Definition default_ListenerSocket : ListenerSocket :=
  {| sock := {| Fd := -1 |}; port := 0; zero_copy_enabled := false;
     addr := []; dsmode := DSMODE_NONE |}.

Definition CreateAndPrepareListenerSocket (options : PosixTcpOptions)
           (addr_ : ResolvedAddress) : IO (StatusOr ListenerSocket) :=
  let socket := default_ListenerSocket in
  '(result, dsmode_) <- CreateDualStackSocket addr_ ;;
  let socket := {| sock := sock socket; port := port socket;
                   zero_copy_enabled := zero_copy_enabled socket;
                   addr := addr socket; dsmode := dsmode_ |} in
  match result with
  | Failure c m => ret (Failure c m)
  | Value fd =>
      let socket := {| sock := {| Fd := fd |}; port := port socket;
                       zero_copy_enabled := zero_copy_enabled socket;
                       addr := addr socket; dsmode := dsmode socket |} in
      let socket :=
        match (if DSMode_eqb (dsmode socket) DSMODE_IPV4
               then ResolvedAddressIsV4Mapped P addr_ else None) with
        | Some addr4_copy => set_addr addr4_copy socket
        | None => set_addr addr_ socket
        end in
      '(st, socket) <- PrepareSocket options socket ;;
      if negb (ok st) then ret (as_failure st)
      else
        CHECK (0 <? port socket) ;;
        ret (Value socket)
  end.

(** *** ListenerContainerAddAllLocalAddresses *)

(** [static const bool is_ipv4_available]: the probe runs once per
    process, so its result is a constant of the platform; its [socket] and
    [close] are not recorded among the calls. *)
Definition is_ipv4_available : bool := 0 <=? ipv4_probe_fd P.

(** The body of the [for] loop for the node [ifa_it]; the boolean of the
    result tells whether the loop is left by [break]. *)
Definition AddAllLocalAddresses_body (options : PosixTcpOptions) (requested_port : Z)
           (ifa_it : ifaddrs) (st : EnumState) : IO (EnumState * bool) :=
  let continue := ret (st, false) in
  match ifa_addr ifa_it with
  | None => continue
  | Some sa =>
      let rest (len : nat) : IO (EnumState * bool) :=
        let addr_ := firstn len sa in
        let addr_ := ResolvedAddressSetPort P addr_ requested_port in
        if exclude_link_local_addresses options
           && IsSockAddrLinkLocal (host_big_endian P) addr_
        then (* Exclude link-local addresses. *) continue
        else
          match ResolvedAddressToString P addr_ with
          | Failure _ _ => (* the dereference of a failed StatusOr *) crash
          | Value addr_str =>
              (* We could have multiple interfaces with the same address
                 (e.g., bonding), so look for duplicates. *)
              if has_value (Find (listener_sockets st) addr_) then continue
              else
                result <- CreateAndPrepareListenerSocket options addr_ ;;
                match result with
                | Failure _ m =>
                    ret ({| listener_sockets := listener_sockets st;
                            op_status :=
                              FailedPreconditionError
                                (StrCat ["Failed to add listener: "; addr_str;
                                         " due to error: "; m]);
                            no_local_addresses := no_local_addresses st;
                            assigned_port := assigned_port st |}, true)
                | Value s =>
                    ret ({| listener_sockets := Append (listener_sockets st) s;
                            op_status := op_status st;
                            no_local_addresses := false;
                            assigned_port := port s |}, false)
                end
          end in
      if sa_family (host_big_endian P) sa =? AF_INET then
        if negb is_ipv4_available then continue
        else rest sizeof_sockaddr_in
      else if sa_family (host_big_endian P) sa =? AF_INET6 then
        rest sizeof_sockaddr_in6
      else continue
  end.

(** [for (ifa_it = ifa; ifa_it != nullptr; ifa_it = ifa_it->ifa_next)] *)
Fixpoint AddAllLocalAddresses_loop (options : PosixTcpOptions) (requested_port : Z)
         (ifa : list ifaddrs) (st : EnumState) : IO EnumState :=
  match ifa with
  | [] => ret st
  | ifa_it :: ifa_next =>
      '(st, break) <- AddAllLocalAddresses_body options requested_port ifa_it st ;;
      if break then ret st
      else AddAllLocalAddresses_loop options requested_port ifa_next st
  end.

(** What happens before the loop: the port is picked when none was
    requested and the interfaces are listed.  [inl] is an early return,
    [inr] the port and the list the loop goes on with. *)
Definition AddAllLocalAddresses_setup (requested_port : Z)
  : IO (StatusOr Z + Z * list ifaddrs) :=
  picked <- (if requested_port =? 0 then GetUnusedPort else ret (Value requested_port)) ;;
  match picked with
  | Failure c m => ret (inl (Failure c m))
  | Value requested_port =>
      '(rc, ifa) <- getifaddrs ;;
      if negb (rc =? 0) || (match ifa with [] => true | _ => false end) then
        err <- strerror_errno ;;
        ret (inl (as_failure (FailedPreconditionError (StrCat ["getifaddrs: "; err]))))
      else ret (inr (requested_port, ifa))
  end.

Definition ListenerContainerAddAllLocalAddresses
           (listener_sockets_ : ListenerSocketsContainer) (options : PosixTcpOptions)
           (requested_port : Z) : IO (StatusOr Z * ListenerSocketsContainer) :=
  if negb (GRPC_HAVE_IFADDRS P) then
    (* grpc_core::Crash("System does not support ifaddrs") *) crash
  else
    let st := {| listener_sockets := listener_sockets_; op_status := OkStatus;
                 no_local_addresses := true; assigned_port := 0 |} in
    start <- AddAllLocalAddresses_setup requested_port ;;
    match start with
    | inl early => ret (early, listener_sockets_)
    | inr (requested_port, ifa) =>
        st <- AddAllLocalAddresses_loop options requested_port ifa st ;;
        freeifaddrs ;;
        if negb (ok (op_status st)) then
          ret (as_failure (op_status st), listener_sockets st)
        else if no_local_addresses st then
          ret (as_failure (FailedPreconditionError "No local addresses"),
               listener_sockets st)
        else ret (Value (assigned_port st), listener_sockets st)
    end.

(** *** ListenerContainerAddWildcardAddresses *)

Definition ListenerContainerAddWildcardAddresses
           (listener_sockets_ : ListenerSocketsContainer) (options : PosixTcpOptions)
           (requested_port : Z) : IO (StatusOr Z * ListenerSocketsContainer) :=
  let wild4 := ResolvedAddressMakeWild4 P requested_port in
  let wild6 := ResolvedAddressMakeWild6 P requested_port in
  let assigned_port_ := 0 in
  if SystemHasIfAddrs && expand_wildcard_addrs options then
    ListenerContainerAddAllLocalAddresses listener_sockets_ options requested_port
  else
    (* Try listening on IPv6 first. *)
    v6_sock <- CreateAndPrepareListenerSocket options wild6 ;;
    (* If we got a v6-only socket or nothing, try adding 0.0.0.0. *)
    let try_v4 (listener_sockets_ : ListenerSocketsContainer)
               (requested_port assigned_port_ : Z) :=
      let wild4 := ResolvedAddressSetPort P wild4 requested_port in
      v4_sock <- CreateAndPrepareListenerSocket options wild4 ;;
      let '(assigned_port_, listener_sockets_) :=
        match v4_sock with
        | Value s => (port s, Append listener_sockets_ s)
        | Failure _ _ => (assigned_port_, listener_sockets_)
        end in
      if 0 <? assigned_port_ then ret (Value assigned_port_, listener_sockets_)
      else
        CHECK (negb (has_value v6_sock)) ;;
        CHECK (negb (has_value v4_sock)) ;;
        ret (as_failure
               (FailedPreconditionError
                  (StrCat ["Failed to add any wildcard listeners: ";
                           message (status v6_sock); message (status v4_sock)])),
             listener_sockets_) in
    match v6_sock with
    | Value s =>
        let listener_sockets_ := Append listener_sockets_ s in
        let requested_port := port s in
        let assigned_port_ := port s in
        if DSMode_eqb (dsmode s) DSMODE_DUALSTACK || DSMode_eqb (dsmode s) DSMODE_IPV4
        then ret (Value (port s), listener_sockets_)
        else try_v4 listener_sockets_ requested_port assigned_port_
    | Failure _ _ => try_v4 listener_sockets_ requested_port assigned_port_
    end.

End ListenerUtils.

(** ** A simulated platform

    A small Linux-like host (little-endian, Linux socket address layout, an
    SO_REUSEPORT kernel that never refuses an address for being in use
    unless told to) against which the functions can be run.  It is used for
    examples only; the theorems quantify over every platform. *)

Module Sim.

Record Config : Type := {
  have_ifaddrs : bool;
  (** the mode of a socket made for an AF_INET6 address that is not
      IPv4-mapped; [DSMODE_NONE]: the host has no IPv6 *)
  ipv6_mode : DSMode;
  ipv4_available : bool;
  failing_sockopt : SockOpt -> bool;
  bind_refused : ResolvedAddress -> bool;
  interfaces : list ifaddrs
}.

Definition bytes (l : list Z) : list byte := map byte_of_Z l.

Definition port_hi (p : Z) : byte := byte_of_Z (p / 256).
Definition port_lo (p : Z) : byte := byte_of_Z p.

Definition MakeWild4 (p : Z) : ResolvedAddress :=
  bytes [2; 0] ++ [port_hi p; port_lo p] ++ repeat x00 12.
Definition MakeWild6 (p : Z) : ResolvedAddress :=
  bytes [10; 0] ++ [port_hi p; port_lo p] ++ repeat x00 24.

Definition SetPort (a : ResolvedAddress) (p : Z) : ResolvedAddress :=
  match a with
  | f0 :: f1 :: _ :: _ :: rest => f0 :: f1 :: port_hi p :: port_lo p :: rest
  | _ => a
  end.
Definition GetPort (a : ResolvedAddress) : Z :=
  256 * byte_val (byte_at a 2) + byte_val (byte_at a 3).

Definition kV4MappedPrefix : list byte :=
  repeat x00 10 ++ [xff; xff].

Definition IsV4Mapped (a : ResolvedAddress) : option ResolvedAddress :=
  if (sa_family false a =? AF_INET6)
     && memcmp_eq (firstn 12 (skipn 8 a)) kV4MappedPrefix
  then Some (bytes [2; 0] ++ [byte_at a 2; byte_at a 3]
             ++ firstn 4 (skipn 20 a) ++ repeat x00 8)
  else None.

Fixpoint digits (fuel : nat) (base : Z) (z : Z) (acc : string) : string :=
  match fuel with
  | O => acc
  | S fuel' =>
      let d := z mod base in
      let c := Ascii.ascii_of_nat (Z.to_nat (if d <? 10 then 48 + d else 87 + d)) in
      if z <? base then String c acc else digits fuel' base (z / base) (String c acc)
  end.
Definition dec (z : Z) : string := digits 8 10 z "".
Definition hex (z : Z) : string := digits 8 16 z "".

Fixpoint hex_groups (l : list byte) : list string :=
  match l with
  | b0 :: b1 :: r => hex (256 * byte_val b0 + byte_val b1) :: hex_groups r
  | _ => []
  end.

Definition ToString (a : ResolvedAddress) : StatusOr string :=
  if sa_family false a =? AF_INET then
    Value (String.concat "." (map (fun b => dec (byte_val b)) (firstn 4 (skipn 4 a)))
           ++ ":" ++ dec (GetPort a))%string
  else if sa_family false a =? AF_INET6 then
    Value ("[" ++ String.concat ":" (hex_groups (firstn 16 (skipn 8 a)))
           ++ "]:" ++ dec (GetPort a))%string
  else Failure kInvalidArgument "Unknown sockaddr family".

Definition is_create (c : Call) : bool :=
  match c with call_CreateDualStackSocket _ => true | _ => false end.

(** Descriptors are handed out in order and never reused. *)
Definition next_fd (h : History) : Z := 3 + Z.of_nat (List.length (filter is_create h)).

(** The address the descriptor was last bound to. *)
Fixpoint last_bind (h : History) (fd : Z) (acc : option ResolvedAddress)
  : option ResolvedAddress :=
  match h with
  | [] => acc
  | call_bind fd' a :: h' => last_bind h' fd (if fd' =? fd then Some a else acc)
  | _ :: h' => last_bind h' fd acc
  end.

Definition ephemeral_port : Z := 40000.

Definition create (cfg : Config) (h : History) (a : ResolvedAddress)
  : StatusOr Z * DSMode :=
  let no_ipv6 := (Failure kUnavailable "Address family not supported by protocol",
                  DSMODE_NONE) in
  if sa_family false a =? AF_INET6 then
    match ipv6_mode cfg, IsV4Mapped a with
    | DSMODE_DUALSTACK, _ => (Value (next_fd h), DSMODE_DUALSTACK)
    | DSMODE_IPV6, None => (Value (next_fd h), DSMODE_IPV6)
    | _, Some _ =>
        if ipv4_available cfg then (Value (next_fd h), DSMODE_IPV4) else no_ipv6
    | _, None => no_ipv6
    end
  else if sa_family false a =? AF_INET then
    if ipv4_available cfg then (Value (next_fd h), DSMODE_IPV4) else no_ipv6
  else (Value (next_fd h), DSMODE_NONE).

Definition platform (cfg : Config) : Platform := {|
  GRPC_HAVE_IFADDRS := have_ifaddrs cfg;
  GRPC_LINUX_ERRQUEUE := true;
  host_big_endian := false;
  SOMAXCONN := 4096;
  INT_MAX := 2147483647;
  ResolvedAddressMakeWild4 := MakeWild4;
  ResolvedAddressMakeWild6 := MakeWild6;
  ResolvedAddressSetPort := SetPort;
  ResolvedAddressGetPort := GetPort;
  ResolvedAddressIsV4Mapped := IsV4Mapped;
  ResolvedAddressIsVSock := fun _ => false;
  ResolvedAddressToString := ToString;
  StrReplaceAll_nul_at := fun s => s;
  IsSocketReusePortSupported := true;
  proc_somaxconn := Some (Some (4096, true));
  ipv4_probe_fd := if ipv4_available cfg then 3 else -1;
  sys_CreateDualStackSocket := create cfg;
  sys_sockopt := fun _ _ o =>
    if failing_sockopt cfg o then ErrorStatus kInternal "setsockopt: Bad file descriptor"
    else OkStatus;
  sys_bind := fun _ _ a =>
    if (Nat.ltb (List.length a) 16) || bind_refused cfg a then -1 else 0;
  sys_listen := fun _ _ _ => 0;
  sys_getsockname := fun h fd =>
    match last_bind h fd None with
    | Some a => (0, if GetPort a =? 0 then SetPort a ephemeral_port else a)
    | None => (0, [])
    end;
  sys_strerror_errno := fun _ => "Address already in use";
  sys_getifaddrs := fun _ => (0, interfaces cfg)
|}.

Definition iface (name : string) (sa : list Z) : ifaddrs :=
  {| ifa_name := Some name; ifa_flags := 0x1043; ifa_addr := Some (bytes sa) |}.

(** Socket addresses in memory: [sockaddr_in] and [sockaddr_in6]. *)
Definition sockaddr_in (a b c d : Z) (p : Z) : list Z :=
  [2; 0; p / 256; p mod 256; a; b; c; d; 0; 0; 0; 0; 0; 0; 0; 0].
Definition sockaddr_in6 (words : list Z) (p : Z) : list Z :=
  [10; 0; p / 256; p mod 256; 0; 0; 0; 0]
    ++ flat_map (fun w => [w / 256; w mod 256]) words ++ [0; 0; 0; 0].

(** The same socket address in the memory of a big-endian host. *)
Definition big_endian_layout (sa : list Z) : list Z :=
  match sa with
  | f0 :: f1 :: rest => f1 :: f0 :: rest
  | _ => sa
  end.

Definition default_options : PosixTcpOptions := {|
  allow_reuse_port := true;
  expand_wildcard_addrs := false;
  exclude_link_local_addresses := false;
  dscp := -1;
  socket_mutator := 0;
  keep_alive_time_ms := 0;
  keep_alive_timeout_ms := 0
|}.

(** A dual-stack host on which every call succeeds. *)
Definition linux (ifs : list ifaddrs) : Config := {|
  have_ifaddrs := true;
  ipv6_mode := DSMODE_DUALSTACK;
  ipv4_available := true;
  failing_sockopt := fun _ => false;
  bind_refused := fun _ => false;
  interfaces := ifs
|}.

(** A host whose sockets for "::" come out in the given mode
    ([DSMODE_NONE]: no IPv6 at all), without interface enumeration. *)
Definition wildcard_host (mode6 : DSMode) (ipv4 : bool) : Config := {|
  have_ifaddrs := false;
  ipv6_mode := mode6;
  ipv4_available := ipv4;
  failing_sockopt := fun _ => false;
  bind_refused := fun _ => false;
  interfaces := []
|}.

(** The same host, except that one socket option is refused. *)
Definition refusing (o : SockOpt -> bool) (ifs : list ifaddrs) : Config := {|
  have_ifaddrs := true;
  ipv6_mode := DSMODE_DUALSTACK;
  ipv4_available := true;
  failing_sockopt := o;
  bind_refused := fun _ => false;
  interfaces := ifs
|}.

Definition is_SetSocketNoSigpipeIfPossible (o : SockOpt) : bool :=
  match o with SetSocketNoSigpipeIfPossible => true | _ => false end.

(** A socket as the dual-stack factory hands it over. *)
Definition created (fd : Z) (ds : DSMode) (a : ResolvedAddress) : ListenerSocket :=
  {| sock := {| Fd := fd |}; port := 0; zero_copy_enabled := false;
     addr := a; dsmode := ds |}.

Definition localhost_8080 : ResolvedAddress := bytes (sockaddr_in 127 0 0 1 8080).

(** The options [PrepareSocket] applies before the no-sigpipe one on this
    host, for an IP address. *)
Definition options_before_nosigpipe (fd : Z) (options : PosixTcpOptions) : list Call :=
  map (call_sockopt fd)
      [SetSocketReusePort 1; SetSocketZeroCopy; SetSocketNonBlocking 1;
       SetSocketCloexec 1; SetSocketLowLatency 1; SetSocketReuseAddr 1;
       SetSocketDscp (dscp options); TrySetSocketTcpUserTimeout options false].

(** A host with interface enumeration whose sockets for IPv6 addresses
    come out in the given mode. *)
Definition with_interfaces (mode6 : DSMode) (ifs : list ifaddrs) : Config := {|
  have_ifaddrs := true;
  ipv6_mode := mode6;
  ipv4_available := true;
  failing_sockopt := fun _ => false;
  bind_refused := fun _ => false;
  interfaces := ifs
|}.

(** An address reported twice (bonding). *)
Definition bonded : list ifaddrs :=
  [iface "lo" (sockaddr_in 127 0 0 1 0); iface "eth0" (sockaddr_in 10 0 0 1 0);
   iface "bond0" (sockaddr_in 10 0 0 1 0)].

(** An address reported in its IPv4 form and in its IPv4-mapped form. *)
Definition mapped_alias : list ifaddrs :=
  [iface "eth0" (sockaddr_in 10 0 0 1 0);
   iface "eth0" (sockaddr_in6 [0; 0; 0; 0; 0; 0xffff; 0x0a00; 0x0001] 0)].

(** A host with four IPv4 interfaces on which one address cannot be
    bound. *)
Definition lan : list ifaddrs :=
  [iface "lo" (sockaddr_in 127 0 0 1 0); iface "eth0" (sockaddr_in 10 0 0 1 0);
   iface "eth1" (sockaddr_in 10 0 0 2 0); iface "eth2" (sockaddr_in 10 0 0 3 0)].

Definition busy (sa : list Z) (ifs : list ifaddrs) : Config := {|
  have_ifaddrs := true;
  ipv6_mode := DSMODE_DUALSTACK;
  ipv4_available := true;
  failing_sockopt := fun _ => false;
  bind_refused := fun a => memcmp_eq a (bytes sa);
  interfaces := ifs
|}.

Definition busy_lan : Platform := platform (busy (sockaddr_in 10 0 0 2 8080) lan).

(** The walk over "lo" and "eth0" on that host, for port 8080, and the
    attempt for "eth1" that follows it. *)
Definition busy_lan_walk : Outcome EnumState * list Call :=
  Eval vm_compute in
    AddAllLocalAddresses_loop busy_lan default_options 8080 (firstn 2 lan)
                              (enum_start []) [call_getifaddrs].

Definition busy_lan_state : EnumState :=
  match fst busy_lan_walk with
  | Done st => st
  | Aborted => enum_start []
  end.

Definition busy_lan_attempt : Outcome (StatusOr ListenerSocket) * list Call :=
  Eval vm_compute in
    CreateAndPrepareListenerSocket busy_lan default_options
                                   (bytes (sockaddr_in 10 0 0 2 8080))
                                   ([call_getifaddrs] ++ snd busy_lan_walk).

(** Interfaces none of which can be bound when link-local addresses are
    excluded: one without an address, one of another family (AF_PACKET) and
    one with a link-local IPv6 address. *)
Definition unusable : list ifaddrs :=
  [{| ifa_name := Some "tun0"; ifa_flags := 0x1043; ifa_addr := None |};
   iface "eth0" [17; 0; 0; 0; 0; 0; 0; 0; 0; 0; 0; 0; 0; 0; 0; 0; 0; 0; 0; 0];
   iface "eth0" (sockaddr_in6 [0xfe80; 0; 0; 0; 0; 0; 0; 1] 0)].

Definition no_link_local : PosixTcpOptions := {|
  allow_reuse_port := true;
  expand_wildcard_addrs := true;
  exclude_link_local_addresses := true;
  dscp := -1;
  socket_mutator := 0;
  keep_alive_time_ms := 0;
  keep_alive_timeout_ms := 0
|}.

Definition is_SetSocketZeroCopy (o : SockOpt) : bool :=
  match o with SetSocketZeroCopy => true | _ => false end.

Definition is_SetSocketCloexec (o : SockOpt) : bool :=
  match o with SetSocketCloexec _ => true | _ => false end.

(** [PrepareSocket] on a host that refuses zero-copy. *)
Definition zero_copy_refused : Outcome (Status * ListenerSocket) * list Call :=
  Eval vm_compute in
    PrepareSocket (platform (refusing is_SetSocketZeroCopy [])) default_options
                  (created 3 DSMODE_IPV4 localhost_8080) [].

(** The unix-domain address of "/tmp/grpc.sock". *)
Definition unix_socket : ResolvedAddress :=
  bytes [1; 0; 47; 116; 109; 112; 47; 103; 114; 112; 99; 46; 115; 111; 99; 107; 0].


End Sim.

(** ** Vocabulary of the properties *)

Definition is_close (fd : Z) (c : Call) : bool :=
  match c with call_close fd' => fd' =? fd | _ => false end.

(** How many times the descriptor is closed by a sequence of calls. *)
Definition closes (fd : Z) (cs : list Call) : nat :=
  List.length (filter (is_close fd) cs).

(** What the code expects of the kernel and of the address helpers, and
    what real ones provide: a created socket has a non-negative descriptor;
    a socket that was bound and put to listen reports a positive port, the
    one it was bound at when that was not 0; the helpers read and write one
    16-bit port field, which the IPv4 form of an IPv4-mapped address
    shares. *)
Record KernelContract (P : Platform) : Prop := {
  created_fd_nonneg :
    forall h a fd ds, sys_CreateDualStackSocket P h a = (Value fd, ds) -> 0 <= fd;
  listening_port :
    forall h fd a n,
      let h1 := h ++ [call_bind fd a] in
      let h2 := h1 ++ [call_listen fd n] in
      0 <= sys_bind P h fd a ->
      0 <= sys_listen P h1 fd n ->
      0 <= fst (sys_getsockname P h2 fd) ->
      let p := ResolvedAddressGetPort P (snd (sys_getsockname P h2 fd)) in
      0 < p /\ (ResolvedAddressGetPort P a <> 0 -> p = ResolvedAddressGetPort P a);
  v4mapped_port :
    forall a a4, ResolvedAddressIsV4Mapped P a = Some a4 ->
                 ResolvedAddressGetPort P a4 = ResolvedAddressGetPort P a;
  port_range :
    forall a, 0 <= ResolvedAddressGetPort P a < 65536;
  wild4_port :
    forall p q, 0 <= q < 65536 ->
                ResolvedAddressGetPort P
                  (ResolvedAddressSetPort P (ResolvedAddressMakeWild4 P p) q) = q
}.

(** The address a socket made for [a] in mode [ds] is stored under. *)
Definition stored_address (P : Platform) (ds : DSMode) (a : ResolvedAddress)
  : ResolvedAddress :=
  match (if DSMode_eqb ds DSMODE_IPV4 then ResolvedAddressIsV4Mapped P a else None) with
  | Some addr4_copy => addr4_copy
  | None => a
  end.

(** A socket that already serves IPv4: the orchestrator stops after it. *)
Definition covers_ipv4 (s : ListenerSocket) : bool :=
  DSMode_eqb (dsmode s) DSMODE_DUALSTACK || DSMode_eqb (dsmode s) DSMODE_IPV4.

(** The two attempts of the wildcard fallback, as the orchestrator makes
    them from the history [h]: the IPv6 wildcard at the requested port, then
    the IPv4 wildcard at the port of the IPv6 socket, or at the requested
    port when there is none. *)
Definition v6_attempt (P : Platform) (options : PosixTcpOptions) (requested_port : Z)
           (h : History) : Outcome (StatusOr ListenerSocket) * list Call :=
  CreateAndPrepareListenerSocket P options (ResolvedAddressMakeWild6 P requested_port) h.

Definition v4_port (P : Platform) (options : PosixTcpOptions) (requested_port : Z)
           (h : History) : Z :=
  match fst (v6_attempt P options requested_port h) with
  | Done (Value s) => port s
  | _ => requested_port
  end.

Definition v4_address (P : Platform) (options : PosixTcpOptions) (requested_port : Z)
           (h : History) : ResolvedAddress :=
  ResolvedAddressSetPort P (ResolvedAddressMakeWild4 P requested_port)
                         (v4_port P options requested_port h).

Definition v4_attempt (P : Platform) (options : PosixTcpOptions) (requested_port : Z)
           (h : History) : Outcome (StatusOr ListenerSocket) * list Call :=
  CreateAndPrepareListenerSocket P options (v4_address P options requested_port h)
                                 (h ++ snd (v6_attempt P options requested_port h)).

(** The address the enumerator looks up and binds for one interface, with
    the shared port set; [None] when the entry is skipped for having no
    address, for its family, for IPv4 being unavailable or for being
    link-local. *)
Definition candidate_address (P : Platform) (options : PosixTcpOptions)
           (requested_port : Z) (ifa_it : ifaddrs) : option ResolvedAddress :=
  match ifa_addr ifa_it with
  | None => None
  | Some sa =>
      let pick (len : nat) :=
        let a := ResolvedAddressSetPort P (firstn len sa) requested_port in
        if exclude_link_local_addresses options
           && IsSockAddrLinkLocal (host_big_endian P) a
        then None else Some a in
      if sa_family (host_big_endian P) sa =? AF_INET then
        if is_ipv4_available P then pick sizeof_sockaddr_in else None
      else if sa_family (host_big_endian P) sa =? AF_INET6 then pick sizeof_sockaddr_in6
      else None
  end.

(** An interface the enumerator passes over: filtered out, or a duplicate
    of an address the container [ls] holds already. *)
Definition skipped (P : Platform) (options : PosixTcpOptions) (requested_port : Z)
           (ls : ListenerSocketsContainer) (ifa_it : ifaddrs) : bool :=
  match candidate_address P options requested_port ifa_it with
  | None => true
  | Some a => has_value (ResolvedAddressToString P a) && has_value (Find ls a)
  end.

(** Invariant I2 of the spec: no two entries have byte-identical addresses. *)
Definition distinct_addresses (ls : ListenerSocketsContainer) : Prop :=
  NoDup (map addr ls).

(** What the enumerator returns once the loop is over and the list freed. *)
Definition enum_result (st : EnumState) : StatusOr Z * ListenerSocketsContainer :=
  if negb (ok (op_status st)) then (as_failure (op_status st), listener_sockets st)
  else if no_local_addresses st
       then (as_failure (FailedPreconditionError "No local addresses"), listener_sockets st)
       else (Value (assigned_port st), listener_sockets st).

(** The container an orchestrator or enumerator call leaves behind. *)
Definition container_after (r : Outcome (StatusOr Z * ListenerSocketsContainer) * list Call)
  : ListenerSocketsContainer :=
  match fst r with
  | Done (_, ls) => ls
  | Aborted => []
  end.

Definition is_nosigpipe (c : Call) : bool :=
  match c with
  | call_sockopt _ SetSocketNoSigpipeIfPossible => true
  | _ => false
  end.

(** The calls before and after the first one that satisfies [p]. *)
Fixpoint split_at (p : Call -> bool) (l : list Call) : option (list Call * list Call) :=
  match l with
  | [] => None
  | c :: l' =>
      if p c then Some ([], l')
      else match split_at p l' with
           | Some (before, after) => Some (c :: before, after)
           | None => None
           end
  end.

(** The calls [PrepareSocket] may make for the descriptor [fd] of a socket
    with address [a]: options, a [bind] to [a], a [listen] with the backlog
    [n], [getsockname] and [close], all on [fd]. *)
Definition own_call (fd : Z) (a : ResolvedAddress) (n : Z) (c : Call) : bool :=
  match c with
  | call_sockopt fd' _ => fd' =? fd
  | call_bind fd' a' => (fd' =? fd) && memcmp_eq a' a
  | call_listen fd' n' => (fd' =? fd) && (n' =? n)
  | call_getsockname fd' => fd' =? fd
  | call_close fd' => fd' =? fd
  | _ => false
  end.

(** The system calls that bring a socket to the listening state. *)
Definition is_bring_up (c : Call) : bool :=
  match c with
  | call_bind _ _ | call_listen _ _ | call_getsockname _ => true
  | _ => false
  end.

Definition is_listen (c : Call) : bool :=
  match c with call_listen _ _ => true | _ => false end.

Definition is_zerocopy (c : Call) : bool :=
  match c with call_sockopt _ SetSocketZeroCopy => true | _ => false end.

(** The options that make sense for IP sockets only. *)
Definition is_ip_option (c : Call) : bool :=
  match c with
  | call_sockopt _ (SetSocketReusePort _) | call_sockopt _ (SetSocketLowLatency _)
  | call_sockopt _ (SetSocketReuseAddr _) | call_sockopt _ (SetSocketDscp _)
  | call_sockopt _ (TrySetSocketTcpUserTimeout _ _) => true
  | _ => false
  end.

(** An address of a local transport: a unix-domain or a vsock address. *)
Definition is_local_transport (P : Platform) (a : ResolvedAddress) : bool :=
  (sa_family (host_big_endian P) a =? AF_UNIX) || ResolvedAddressIsVSock P a.

(** A request for a socket, and the calls that obtain and free the list of
    interfaces. *)
Definition is_socket_request (c : Call) : bool :=
  match c with call_CreateDualStackSocket _ => true | _ => false end.

Definition is_interface_list_call (c : Call) : bool :=
  match c with call_getifaddrs | call_freeifaddrs => true | _ => false end.

(** What the enumerator keeps true of its state while it walks the list,
    for a container that held [ls] on entry: the container is [ls] followed
    by the sockets appended so far; as long as [no_local_addresses] is set
    nothing was appended; afterwards [assigned_port] is the positive port of
    the socket appended last. *)
Definition enum_inv (ls : ListenerSocketsContainer) (st : EnumState) : Prop :=
  exists added,
    listener_sockets st = ls ++ added
    /\ if no_local_addresses st then added = []
       else exists earlier s,
           added = earlier ++ [s] /\ assigned_port st = port s /\ 0 < port s.


(** Two options of the same kind, whatever their arguments, and the calls
    that set an option of a given kind. *)
Definition same_option (o o' : SockOpt) : bool :=
  match o, o' with
  | SetSocketReusePort _, SetSocketReusePort _
  | SetSocketZeroCopy, SetSocketZeroCopy
  | SetSocketNonBlocking _, SetSocketNonBlocking _
  | SetSocketCloexec _, SetSocketCloexec _
  | SetSocketLowLatency _, SetSocketLowLatency _
  | SetSocketReuseAddr _, SetSocketReuseAddr _
  | SetSocketDscp _, SetSocketDscp _
  | TrySetSocketTcpUserTimeout _ _, TrySetSocketTcpUserTimeout _ _
  | SetSocketNoSigpipeIfPossible, SetSocketNoSigpipeIfPossible
  | ApplySocketMutatorInOptions _ _, ApplySocketMutatorInOptions _ _ => true
  | _, _ => false
  end.

Definition sets_option (o : SockOpt) (c : Call) : bool :=
  match c with call_sockopt _ o' => same_option o o' | _ => false end.

(** ** Tactics

    Symbolic execution of the monadic code: unfold the combinators, then
    split on each answer of the platform the computation branches on. *)

Ltac io_unfold :=
  cbv beta delta [PrepareSocket PrepareSocket_scope RETURN_IF_ERROR CHECK bind ret crash
                  sockopt bind_ listen getsockname close strerror_errno perform observe]
    in *.

(** One step of symbolic execution: a case analysis on the next answer of
    the platform the computation branches on. *)
Ltac io_step :=
  match goal with
  | H : ?b = _ |- context [if ?b then _ else _] => rewrite H
  | |- context [if ?b then _ else _] =>
      lazymatch b with
      | context [if _ then _ else _] => fail
      | context [match _ with _ => _ end] => fail
      | _ => destruct b eqn:?
      end
  | |- context [match ?x with (_, _) => _ end] =>
      lazymatch x with
      | context [if _ then _ else _] => fail
      | context [match _ with _ => _ end] => fail
      | _ => destruct x eqn:?
      end
  end; cbv beta iota; cbn [ok andb negb FailedPreconditionError].

(** Histories as one list appended to the initial one. *)
Ltac hist_norm := rewrite ?app_nil_r, <- ?app_assoc in *; cbn [app] in *.

(** The same unfolding for [CreateAndPrepareListenerSocket], which keeps
    [PrepareSocket] folded. *)
Ltac cap_unfold :=
  cbv beta zeta delta [CreateAndPrepareListenerSocket CreateDualStackSocket CHECK bind ret
                       crash perform default_ListenerSocket].

(** * Properties *)

(** ** Address classifier *)

Lemma byte_val_range (b : byte) : 0 <= byte_val b < 256.
Proof.
  unfold byte_val. pose proof (Byte.to_N_bounded b). lia.
Qed.

Lemma land_byte_of_shifted_mask (x m k : Z) :
  Z.land (Z.shiftr (Z.land x m) k) 255
  = Z.land (Z.land (Z.shiftr x k) 255) (Z.land (Z.shiftr m k) 255).
Proof.
  rewrite Z.shiftr_land.
  apply Z.bits_inj'. intros n Hn.
  rewrite !Z.land_spec.
  destruct (Z.testbit (Z.shiftr x k) n), (Z.testbit (Z.shiftr m k) n),
    (Z.testbit 255 n); reflexivity.
Qed.

Lemma land_255_mod (x : Z) : Z.land x 255 = x mod 256.
Proof. change 255 with (Z.ones 8). rewrite Z.land_ones by lia. reflexivity. Qed.

(** The two bytes [memcmp] looks at, whatever the byte order of the host. *)
Lemma masked_first_bytes (be : bool) (b0 b1 b2 b3 : byte) :
  let w := Z.land (load32 be b0 b1 b2 b3) (htonl be (shl32 (not32 0) 22)) in
  mem_byte32 be w 0 = byte_val b0 /\ mem_byte32 be w 1 = Z.land (byte_val b1) 192.
Proof.
  pose proof (byte_val_range b0). pose proof (byte_val_range b1).
  pose proof (byte_val_range b2). pose proof (byte_val_range b3).
  change (shl32 (not32 0) 22) with 0xFFC00000.
  destruct be; cbv [load32 htonl mem_byte32]; cbv zeta.
  - change (8 * (3 - 0)) with 24. change (8 * (3 - 1)) with 16.
    rewrite !land_byte_of_shifted_mask, !land_255_mod, !Z.shiftr_div_pow2 by lia.
    change (0xFFC00000 / 2 ^ 24 mod 256) with 255.
    change (0xFFC00000 / 2 ^ 16 mod 256) with 192.
    replace ((16777216 * byte_val b0 + 65536 * byte_val b1 + 256 * byte_val b2
              + byte_val b3) / 2 ^ 24 mod 256) with (byte_val b0)
      by (change (2 ^ 24) with 16777216; Z.div_mod_to_equations; lia).
    replace ((16777216 * byte_val b0 + 65536 * byte_val b1 + 256 * byte_val b2
              + byte_val b3) / 2 ^ 16 mod 256) with (byte_val b1)
      by (change (2 ^ 16) with 65536; Z.div_mod_to_equations; lia).
    split.
    + apply Z.mod_small. lia.
    + reflexivity.
  - change (bswap32 0xFFC00000) with 0xC0FF.
    change (8 * 0) with 0. change (8 * 1) with 8.
    rewrite !land_byte_of_shifted_mask, !land_255_mod, !Z.shiftr_div_pow2 by lia.
    change (0xC0FF / 2 ^ 0 mod 256) with 255.
    change (0xC0FF / 2 ^ 8 mod 256) with 192.
    replace ((byte_val b0 + 256 * byte_val b1 + 65536 * byte_val b2
              + 16777216 * byte_val b3) / 2 ^ 0 mod 256) with (byte_val b0)
      by (change (2 ^ 0) with 1; Z.div_mod_to_equations; lia).
    replace ((byte_val b0 + 256 * byte_val b1 + 65536 * byte_val b2
              + 16777216 * byte_val b3) / 2 ^ 8 mod 256) with (byte_val b1)
      by (change (2 ^ 8) with 256; Z.div_mod_to_equations; lia).
    split.
    + apply Z.mod_small. lia.
    + reflexivity.
Qed.

Lemma second_byte_prefix (b : byte) :
  (Z.land (byte_val b) 192 =? 128) = (byte_val b / 64 =? 2).
Proof. destruct b; reflexivity. Qed.

Lemma top10_bits (b0 b1 b2 b3 : byte) :
  (Z.shiftr (word_be b0 b1 b2 b3) 22 =? 0x3FA)
  = (byte_val b0 =? 0xfe) && (byte_val b1 / 64 =? 2).
Proof.
  pose proof (byte_val_range b0). pose proof (byte_val_range b1).
  pose proof (byte_val_range b2). pose proof (byte_val_range b3).
  unfold word_be. rewrite Z.shiftr_div_pow2 by lia. change (2 ^ 22) with 4194304.
  destruct (byte_val b0 =? 254) eqn:E0; destruct (byte_val b1 / 64 =? 2) eqn:E1;
    cbn [andb];
    [ apply Z.eqb_eq | apply Z.eqb_neq | apply Z.eqb_neq | apply Z.eqb_neq ];
    rewrite ?Z.eqb_eq, ?Z.eqb_neq in *;
    Z.div_mod_to_equations; lia.
Qed.

Lemma land_shifted_mask (w m k : Z) :
  0 <= k -> Z.land w (Z.shiftl m k) = Z.shiftl (Z.land (Z.shiftr w k) m) k.
Proof.
  intros Hk. apply Z.bits_inj'. intros n Hn.
  rewrite Z.land_spec.
  destruct (Z.lt_ge_cases n k) as [Hlt | Hge].
  - rewrite !Z.shiftl_spec_low by lia. apply andb_false_r.
  - rewrite !Z.shiftl_spec by lia. rewrite Z.land_spec, Z.shiftr_spec by lia.
    replace (n - k + k) with n by lia. reflexivity.
Qed.

Lemma masked_word_prefix (b0 b1 b2 b3 : byte) :
  (Z.land (word_be b0 b1 b2 b3) 0xFFC00000 =? 0xFE800000)
  = (Z.shiftr (word_be b0 b1 b2 b3) 22 =? 0x3FA).
Proof.
  pose proof (byte_val_range b0). pose proof (byte_val_range b1).
  pose proof (byte_val_range b2). pose proof (byte_val_range b3).
  change 0xFFC00000 with (Z.shiftl 1023 22).
  rewrite land_shifted_mask by lia.
  change 1023 with (Z.ones 10). rewrite Z.land_ones by lia.
  rewrite Z.shiftl_mul_pow2, Z.shiftr_div_pow2 by lia.
  assert (Hq : 0 <= word_be b0 b1 b2 b3 / 2 ^ 22 < 2 ^ 10).
  { unfold word_be. change (2 ^ 22) with 4194304. change (2 ^ 10) with 1024.
    Z.div_mod_to_equations. lia. }
  rewrite Z.mod_small by exact Hq.
  change (2 ^ 22) with 4194304 in *.
  destruct (word_be b0 b1 b2 b3 / 4194304 =? 1018) eqn:E;
    [ apply Z.eqb_eq | apply Z.eqb_neq ];
    rewrite ?Z.eqb_eq, ?Z.eqb_neq in *; lia.
Qed.

(** What [IsSockAddrLinkLocal] computes, as one equation over the bytes of
    the address. *)
Lemma IsSockAddrLinkLocal_bytes (be : bool) (a : ResolvedAddress) :
  IsSockAddrLinkLocal be a =
  if sa_family be a =? AF_INET then
    (byte_val (byte_at a 4) =? 169) && (byte_val (byte_at a 5) =? 254)
  else if sa_family be a =? AF_INET6 then
    Z.shiftr (word_be (byte_at a 8) (byte_at a 9) (byte_at a 10) (byte_at a 11)) 22
    =? 0x3FA
  else false.
Proof.
  unfold IsSockAddrLinkLocal.
  destruct (sa_family be a =? AF_INET).
  - cbn [kV4LinkLocalPrefix nth].
    destruct ((byte_val (byte_at a 4) =? 169) && (byte_val (byte_at a 5) =? 254));
      reflexivity.
  - destruct (sa_family be a =? AF_INET6); [ | reflexivity ].
    cbv zeta. unfold memcmp32_prefix2. cbn [kV6LinkLocalPrefix nth].
    destruct (masked_first_bytes be (byte_at a 8) (byte_at a 9) (byte_at a 10)
                (byte_at a 11)) as [H0 H1].
    cbv zeta in H0, H1. rewrite H0, H1.
    rewrite top10_bits, second_byte_prefix.
    destruct ((byte_val (byte_at a 8) =? 254) && (byte_val (byte_at a 9) / 64 =? 2));
      reflexivity.
Qed.

(** C9. [IsSockAddrLinkLocal] is true for an IPv4 address exactly when its
    first two bytes are 169.254; for an IPv6 address exactly when its top ten
    bits are those of fe80::/10, that is when its first 32-bit word with the
    low 22 bits masked off is 0xFE800000; and false for every other address
    family.  This holds on hosts of either byte order.  In particular it is
    true for 169.254.1.1 and fe80::1, false for 10.0.0.1 and 2001:db8::1. *)
Theorem IsSockAddrLinkLocal_correct :
  (forall be a, sa_family be a = AF_INET ->
     (IsSockAddrLinkLocal be a = true <->
      byte_val (byte_at a 4) = 169 /\ byte_val (byte_at a 5) = 254))
  /\ (forall be a, sa_family be a = AF_INET6 ->
        let w := word_be (byte_at a 8) (byte_at a 9) (byte_at a 10) (byte_at a 11) in
        (IsSockAddrLinkLocal be a = true <-> Z.shiftr w 22 = 0x3FA)
        /\ (IsSockAddrLinkLocal be a = true <-> Z.land w 0xFFC00000 = 0xFE800000))
  /\ (forall be a, sa_family be a <> AF_INET -> sa_family be a <> AF_INET6 ->
        IsSockAddrLinkLocal be a = false)
  /\ (let v4 a b c d := Sim.sockaddr_in a b c d 0 in
      let v6 ws := Sim.sockaddr_in6 ws 0 in
      let le sa := IsSockAddrLinkLocal false (Sim.bytes sa) in
      let be sa := IsSockAddrLinkLocal true (Sim.bytes (Sim.big_endian_layout sa)) in
      (le (v4 169 254 1 1) = true /\ be (v4 169 254 1 1) = true)
      /\ (le (v6 [0xfe80; 0; 0; 0; 0; 0; 0; 1]) = true
          /\ be (v6 [0xfe80; 0; 0; 0; 0; 0; 0; 1]) = true)
      /\ (le (v4 10 0 0 1) = false /\ be (v4 10 0 0 1) = false)
      /\ (le (v6 [0x2001; 0xdb8; 0; 0; 0; 0; 0; 1]) = false
          /\ be (v6 [0x2001; 0xdb8; 0; 0; 0; 0; 0; 1]) = false)).
Proof.
  split; [ | split; [ | split ] ].
  - intros be a Hf. rewrite IsSockAddrLinkLocal_bytes, Hf. cbn [Z.eqb AF_INET Pos.eqb].
    rewrite andb_true_iff, !Z.eqb_eq. reflexivity.
  - intros be a Hf w.
    assert (E : IsSockAddrLinkLocal be a = (Z.shiftr w 22 =? 0x3FA)).
    { rewrite IsSockAddrLinkLocal_bytes, Hf. reflexivity. }
    split.
    + rewrite E, Z.eqb_eq. reflexivity.
    + rewrite E. unfold w. rewrite <- masked_word_prefix, Z.eqb_eq. reflexivity.
  - intros be a H4 H6. rewrite IsSockAddrLinkLocal_bytes.
    apply Z.eqb_neq in H4. apply Z.eqb_neq in H6. rewrite H4, H6. reflexivity.
  - vm_compute. repeat split.
Qed.

(** ** Socket preparer *)

Lemma closes_app (fd : Z) (l1 l2 : list Call) :
  closes fd (l1 ++ l2) = (closes fd l1 + closes fd l2)%nat.
Proof. unfold closes. rewrite filter_app, length_app. reflexivity. Qed.

Lemma split_at_unique (p : Call -> bool) (pre post : list Call) (x : Call) :
  forall l, l = pre ++ x :: post -> p x = true ->
            (List.length (filter p l) <= 1)%nat ->
            split_at p l = Some (pre, post).
Proof.
  induction pre as [ | y pre IH ]; intros l -> Hx Hone; cbn [app split_at].
  - rewrite Hx. reflexivity.
  - cbn [app filter] in Hone.
    destruct (p y) eqn:Hy.
    + exfalso. cbn [List.length] in Hone. rewrite filter_app in Hone.
      cbn [filter] in Hone. rewrite Hx, length_app in Hone. cbn [List.length] in Hone. lia.
    + rewrite (IH _ eq_refl Hx Hone). reflexivity.
Qed.

(** The frame of [PrepareSocket]: it aborts only on a negative descriptor,
    and otherwise hands back the socket with only [port] and
    [zero_copy_enabled] touched; the descriptor is closed exactly when the
    status is an error. *)
Lemma PrepareSocket_frame
      (P : Platform) (options : PosixTcpOptions) (socket : ListenerSocket) (h : History) :
  match PrepareSocket P options socket h with
  | (Done (st, s'), cs) =>
      0 <= Fd (sock socket)
      /\ sock s' = sock socket /\ addr s' = addr socket /\ dsmode s' = dsmode socket
      /\ if ok st then closes (Fd (sock socket)) cs = 0%nat
         else closes (Fd (sock socket)) cs = 1%nat
              /\ last cs call_getifaddrs = call_close (Fd (sock socket))
              /\ port s' = 0
  | (Aborted, cs) => Fd (sock socket) < 0 /\ cs = []
  end.
Proof.
  io_unfold. cbn [set_port set_zero_copy_enabled addr sock].
  destruct (0 <=? Fd (sock socket)) eqn:Hfd; [ | split; [ lia | reflexivity ] ].
  cbv beta iota; cbn [ok andb negb FailedPreconditionError].
  repeat io_step.
  all: cbn [app andb ok FailedPreconditionError].
  all: try match goal with H : ok ?s = _ |- context [ok ?s] => rewrite H end.
  all: cbv beta iota.
  all: try (rewrite Hfd; cbn [andb app]).
  all: split; [ lia | ].
  all: cbn [sock addr dsmode port set_port set_zero_copy_enabled].
  all: do 3 (split; [ reflexivity | ]).
  all: unfold closes; cbn [filter is_close List.length last]; rewrite ?Z.eqb_refl;
    cbn [filter is_close List.length last].
  all: try reflexivity.
  all: repeat split.
Qed.

(** When [PrepareSocket] returns OK, its last three calls were a [bind] to
    the address of the socket, a [listen] and a [getsockname], all
    successful, and the port it stored is the one [getsockname] reported. *)
Lemma PrepareSocket_ok_port
      (P : Platform) (options : PosixTcpOptions) (socket : ListenerSocket) (h : History) :
  match PrepareSocket P options socket h with
  | (Done (st, s'), cs) =>
      ok st = true ->
      exists pre,
        let fd := Fd (sock socket) in
        let n := GetMaxAcceptQueueSize P in
        let h1 := (h ++ pre) ++ [call_bind fd (addr socket)] in
        let h2 := h1 ++ [call_listen fd n] in
        cs = pre ++ [call_bind fd (addr socket); call_listen fd n; call_getsockname fd]
        /\ 0 <= sys_bind P (h ++ pre) fd (addr socket)
        /\ 0 <= sys_listen P h1 fd n
        /\ 0 <= fst (sys_getsockname P h2 fd)
        /\ port s' = ResolvedAddressGetPort P (snd (sys_getsockname P h2 fd))
  | (Aborted, _) => True
  end.
Proof.
  io_unfold. cbn [set_port set_zero_copy_enabled addr sock].
  destruct (0 <=? Fd (sock socket)) eqn:Hfd; [ | exact I ].
  cbv beta iota; cbn [ok andb negb FailedPreconditionError].
  repeat io_step.
  all: intros Hok; cbn [app andb ok addr sock set_port set_zero_copy_enabled] in *.
  all: hist_norm; try congruence.
  all: cbv zeta.
  all: match goal with
       | |- ex (fun pre => ?cs = @?rhs pre /\ @?rest pre) =>
           exists (removelast (removelast (removelast cs)))
       end.
  all: cbn [removelast].
  all: hist_norm.
  all: repeat match goal with
         | H : (_ <? 0) = false |- _ => apply Z.ltb_ge in H
         | H : sys_getsockname _ _ _ = _ |- _ => rewrite H
         end.
  all: cbn [fst snd port set_port].
  all: repeat split; solve [ reflexivity | assumption ].
Qed.

(** A failure of [SetSocketNoSigpipeIfPossible] ends [PrepareSocket]: the
    status of that call is the status returned, and the only call made
    after it closes the descriptor. *)
Lemma PrepareSocket_nosigpipe
      (P : Platform) (options : PosixTcpOptions) (socket : ListenerSocket) (h : History) :
  match PrepareSocket P options socket h with
  | (Done (st, _), cs) =>
      forall pre post,
        let fd := Fd (sock socket) in
        cs = pre ++ call_sockopt fd SetSocketNoSigpipeIfPossible :: post ->
        ok (sys_sockopt P (h ++ pre) fd SetSocketNoSigpipeIfPossible) = false ->
        st = sys_sockopt P (h ++ pre) fd SetSocketNoSigpipeIfPossible
        /\ post = [call_close fd]
  | (Aborted, _) => True
  end.
Proof.
  io_unfold. cbn [set_port set_zero_copy_enabled addr sock].
  destruct (0 <=? Fd (sock socket)) eqn:Hfd; [ | exact I ].
  cbv beta iota; cbn [ok andb negb FailedPreconditionError].
  repeat io_step.
  all: intros pre post; cbv zeta; intros Hcs Hfail.
  all: cbn [app andb addr sock set_port set_zero_copy_enabled] in *.
  all: apply split_at_unique with (p := is_nosigpipe) in Hcs;
    [ | reflexivity | cbn [filter is_nosigpipe List.length]; lia ].
  all: cbn [split_at is_nosigpipe] in Hcs; try discriminate Hcs.
  all: injection Hcs as <- <-.
  all: hist_norm.
  all: try congruence.
  all: split; reflexivity.
Qed.

(** C5. [PrepareSocket] closes the descriptor exactly once, as its last
    call, whenever it returns an error, whichever step failed; it does not
    close it when it returns OK; and it returns unless it was handed a
    negative descriptor. *)
Theorem PrepareSocket_closes_exactly_on_failure
        (P : Platform) (options : PosixTcpOptions) (socket : ListenerSocket) (h : History) :
  match PrepareSocket P options socket h with
  | (Done (st, _), cs) =>
      if ok st then closes (Fd (sock socket)) cs = 0%nat
      else closes (Fd (sock socket)) cs = 1%nat
           /\ last cs call_getifaddrs = call_close (Fd (sock socket))
  | (Aborted, cs) => Fd (sock socket) < 0 /\ cs = []
  end.
Proof.
  pose proof (PrepareSocket_frame P options socket h) as H.
  destruct (PrepareSocket P options socket h) as [[[st s'] | ] cs]; [ | exact H ].
  destruct H as (_ & _ & _ & _ & H).
  destruct (ok st); [ exact H | ].
  destruct H as (H1 & H2 & _). split; assumption.
Qed.

(** C6, as the code has it.  The status of [SetSocketNoSigpipeIfPossible]
    is checked like that of the other fatal options: when the call is made
    and answers with an error, [PrepareSocket] returns that very error, and
    the only call it still makes closes the descriptor. *)
Theorem PrepareSocket_propagates_nosigpipe_failure
        (P : Platform) (options : PosixTcpOptions) (socket : ListenerSocket) (h : History)
        (st : Status) (s' : ListenerSocket) (pre post : list Call) :
  let fd := Fd (sock socket) in
  PrepareSocket P options socket h
  = (Done (st, s'), pre ++ call_sockopt fd SetSocketNoSigpipeIfPossible :: post) ->
  ok (sys_sockopt P (h ++ pre) fd SetSocketNoSigpipeIfPossible) = false ->
  st = sys_sockopt P (h ++ pre) fd SetSocketNoSigpipeIfPossible
  /\ ok st = false
  /\ post = [call_close fd].
Proof.
  intros fd Hrun Hfail.
  pose proof (PrepareSocket_nosigpipe P options socket h) as H.
  rewrite Hrun in H.
  destruct (H pre post eq_refl Hfail) as [H1 H2].
  split; [ exact H1 | split; [ rewrite H1; exact Hfail | exact H2 ] ].
Qed.

(** C6, as the spec has it, fails: on a host that refuses the no-sigpipe
    option, [PrepareSocket] returns the error of that option (and has closed
    the descriptor without ever calling [bind]). *)
Lemma PrepareSocket_nosigpipe_not_best_effort :
  let P := Sim.platform (Sim.refusing Sim.is_SetSocketNoSigpipeIfPossible []) in
  let socket := Sim.created 3 DSMODE_IPV4 Sim.localhost_8080 in
  let refusal := ErrorStatus kInternal "setsockopt: Bad file descriptor" in
  let before := Sim.options_before_nosigpipe 3 Sim.default_options in
  sys_sockopt P before 3 SetSocketNoSigpipeIfPossible = refusal
  /\ PrepareSocket P Sim.default_options socket []
     = (Done (refusal, set_zero_copy_enabled true socket),
        before ++ [call_sockopt 3 SetSocketNoSigpipeIfPossible; call_close 3]).
Proof. vm_compute. split; reflexivity. Qed.

Lemma PrepareSocket_propagates_nosigpipe_failure_witness :
  let P := Sim.platform (Sim.refusing Sim.is_SetSocketNoSigpipeIfPossible []) in
  let socket := Sim.created 3 DSMODE_IPV4 Sim.localhost_8080 in
  let refusal := ErrorStatus kInternal "setsockopt: Bad file descriptor" in
  let before := Sim.options_before_nosigpipe 3 Sim.default_options in
  refusal = sys_sockopt P ([] ++ before) 3 SetSocketNoSigpipeIfPossible
  /\ ok refusal = false
  /\ [call_close 3] = [call_close 3].
Proof.
  intros P socket refusal before.
  apply (PrepareSocket_propagates_nosigpipe_failure
           P Sim.default_options socket [] refusal (set_zero_copy_enabled true socket)
           before [call_close 3]).
  - vm_compute. reflexivity.
  - vm_compute. reflexivity.
Defined.

(** ** Single-address binder *)

(** Bring the facts about the run of [PrepareSocket] that the goal mentions
    into the context and split on its result. *)
Ltac prepare_cases st s' cs' HF HP :=
  match goal with
  | |- context [PrepareSocket ?P ?o ?s ?h] =>
      pose proof (PrepareSocket_frame P o s h) as HF;
      pose proof (PrepareSocket_ok_port P o s h) as HP;
      destruct (PrepareSocket P o s h) as [[[st s'] | ] cs']
  | H : context [PrepareSocket ?P ?o ?s ?h] |- _ =>
      pose proof (PrepareSocket_frame P o s h) as HF;
      pose proof (PrepareSocket_ok_port P o s h) as HP;
      destruct (PrepareSocket P o s h) as [[[st s'] | ] cs']
  end.

(** The first thing [CreateAndPrepareListenerSocket] does is to ask for a
    socket for the address it was given. *)
Lemma CreateAndPrepare_first_call
      (P : Platform) (options : PosixTcpOptions) (a : ResolvedAddress) (h : History) :
  exists rest,
    snd (CreateAndPrepareListenerSocket P options a h)
    = call_CreateDualStackSocket a :: rest.
Proof.
  cap_unfold.
  destruct (sys_CreateDualStackSocket P h a) as [[fd | c m] ds]; cbv beta iota.
  - prepare_cases st s' cs' HF HP; cbv beta iota.
    + destruct (negb (ok st)); cbv beta iota; [ eexists; reflexivity | ].
      destruct (0 <? port s'); cbv beta iota; eexists; reflexivity.
    + eexists; reflexivity.
  - eexists; reflexivity.
Qed.

(** What a socket returned by [CreateAndPrepareListenerSocket] is: its port
    is positive; it carries the descriptor and the mode the factory
    answered with and the address it was bound to; the descriptor is open;
    and the port is the one [getsockname] reported after a successful
    [bind] and [listen]. *)
Lemma CreateAndPrepare_value
      (P : Platform) (options : PosixTcpOptions) (a : ResolvedAddress) (h : History)
      (s : ListenerSocket) (cs : list Call) :
  CreateAndPrepareListenerSocket P options a h = (Done (Value s), cs) ->
  0 < port s
  /\ addr s = stored_address P (dsmode s) a
  /\ exists fd pre,
      let n := GetMaxAcceptQueueSize P in
      let h0 := (h ++ [call_CreateDualStackSocket a]) ++ pre in
      let h1 := h0 ++ [call_bind fd (addr s)] in
      let h2 := h1 ++ [call_listen fd n] in
      sys_CreateDualStackSocket P h a = (Value fd, dsmode s)
      /\ 0 <= fd /\ sock s = {| Fd := fd |}
      /\ closes fd cs = 0%nat
      /\ cs = call_CreateDualStackSocket a
              :: pre ++ [call_bind fd (addr s); call_listen fd n; call_getsockname fd]
      /\ 0 <= sys_bind P h0 fd (addr s)
      /\ 0 <= sys_listen P h1 fd n
      /\ 0 <= fst (sys_getsockname P h2 fd)
      /\ port s = ResolvedAddressGetPort P (snd (sys_getsockname P h2 fd)).
Proof.
  cap_unfold. cbn [sock port zero_copy_enabled addr dsmode Fd].
  destruct (sys_CreateDualStackSocket P h a) as [[fd | c m] ds] eqn:Hc; cbv beta iota;
    [ | intros Hx; discriminate Hx ].
  unfold stored_address.
  destruct (if DSMode_eqb ds DSMODE_IPV4 then ResolvedAddressIsV4Mapped P a else None)
    as [a4 | ] eqn:Hmap; cbn [set_addr sock port zero_copy_enabled addr dsmode Fd].
  all: prepare_cases st s' cs' HF HP; cbv beta iota; [ | intros Hx; discriminate Hx ].
  all: destruct (ok st) eqn:Hok; cbn [negb]; cbv beta iota;
    [ | unfold as_failure; destruct st; intros Hx; discriminate Hx ].
  all: destruct (0 <? port s') eqn:Hport; cbv beta iota; [ | intros Hx; discriminate Hx ].
  all: intros Heq; injection Heq as <- <-.
  all: apply Z.ltb_lt in Hport.
  all: destruct HF as (Hfd & Hsock & Haddr & Hds & Hcl).
  all: destruct (HP eq_refl) as (pre & Hcs & Hb & Hl & Hg & Hp).
  all: cbn [set_addr sock port zero_copy_enabled addr dsmode Fd] in *.
  all: rewrite Hds, Hmap, Haddr.
  all: split; [ exact Hport | ]; split; [ reflexivity | ].
  all: exists fd, pre; cbv zeta.
  all: repeat split; try assumption.
  all: rewrite app_nil_r.
  all: try (rewrite Hcs; reflexivity).
  all: change (call_CreateDualStackSocket a :: cs')
         with ([call_CreateDualStackSocket a] ++ cs');
    rewrite closes_app, Hcl; reflexivity.
Qed.

(** [CreateAndPrepareListenerSocket] ends the process in two cases only:
    the factory answered with a negative descriptor ([CHECK_GE(fd, 0)]), or
    everything succeeded and the port read back was not positive
    ([CHECK_GT(socket.port, 0)]). *)
Lemma CreateAndPrepare_aborted
      (P : Platform) (options : PosixTcpOptions) (a : ResolvedAddress) (h : History)
      (cs : list Call) :
  CreateAndPrepareListenerSocket P options a h = (Aborted, cs) ->
  exists fd ds,
    sys_CreateDualStackSocket P h a = (Value fd, ds)
    /\ (fd < 0
        \/ exists pre,
            let a' := stored_address P ds a in
            let n := GetMaxAcceptQueueSize P in
            let h0 := (h ++ [call_CreateDualStackSocket a]) ++ pre in
            let h1 := h0 ++ [call_bind fd a'] in
            let h2 := h1 ++ [call_listen fd n] in
            0 <= sys_bind P h0 fd a'
            /\ 0 <= sys_listen P h1 fd n
            /\ 0 <= fst (sys_getsockname P h2 fd)
            /\ ResolvedAddressGetPort P (snd (sys_getsockname P h2 fd)) <= 0).
Proof.
  cap_unfold. cbn [sock port zero_copy_enabled addr dsmode Fd].
  destruct (sys_CreateDualStackSocket P h a) as [[fd | c m] ds] eqn:Hc; cbv beta iota;
    [ | intros Hx; discriminate Hx ].
  intros Hrun. exists fd, ds. split; [ reflexivity | ]. revert Hrun.
  unfold stored_address.
  destruct (if DSMode_eqb ds DSMODE_IPV4 then ResolvedAddressIsV4Mapped P a else None)
    as [a4 | ] eqn:Hmap; cbn [set_addr sock port zero_copy_enabled addr dsmode Fd].
  all: prepare_cases st s' cs' HF HP; cbv beta iota;
    [ | intros _; left; cbn [set_addr sock Fd] in HF; tauto ].
  all: destruct (ok st) eqn:Hok; cbn [negb]; cbv beta iota;
    [ | intros Hx; discriminate Hx ].
  all: destruct (0 <? port s') eqn:Hport; cbv beta iota; [ intros Hx; discriminate Hx | ].
  all: intros _; right.
  all: apply Z.ltb_ge in Hport.
  all: destruct (HP eq_refl) as (pre & Hcs & Hb & Hl & Hg & Hp).
  all: cbn [set_addr sock port zero_copy_enabled addr dsmode Fd] in *.
  all: exists pre; cbv zeta.
  all: rewrite <- Hp.
  all: repeat split; assumption.
Qed.

(** On a platform that keeps the kernel contract,
    [CreateAndPrepareListenerSocket] returns: a socket on the requested
    port when one was requested, or an error. *)
Lemma CreateAndPrepare_under_contract
      (P : Platform) (K : KernelContract P)
      (options : PosixTcpOptions) (a : ResolvedAddress) (h : History) :
  match fst (CreateAndPrepareListenerSocket P options a h) with
  | Done (Value s) =>
      0 < port s
      /\ (ResolvedAddressGetPort P a <> 0 -> port s = ResolvedAddressGetPort P a)
  | Done (Failure _ _) => True
  | Aborted => False
  end.
Proof.
  destruct (CreateAndPrepareListenerSocket P options a h) as [[[s | c m] | ] cs] eqn:Hrun;
    cbn [fst].
  - apply CreateAndPrepare_value in Hrun.
    destruct Hrun as (Hpos & Haddr & fd & pre & Hrun). cbv zeta in Hrun.
    destruct Hrun as (Hc & Hfd & Hsock & Hcl & Hcs & Hb & Hl & Hg & Hp).
    split; [ exact Hpos | ]. intros Hreq.
    destruct (listening_port P K _ fd (addr s) _ Hb Hl Hg) as [_ Hsame].
    rewrite Hp. rewrite Hsame.
    + rewrite Haddr. unfold stored_address.
      destruct (if DSMode_eqb (dsmode s) DSMODE_IPV4
                then ResolvedAddressIsV4Mapped P a else None) as [a4 | ] eqn:Hmap;
        [ | reflexivity ].
      destruct (DSMode_eqb (dsmode s) DSMODE_IPV4); [ | discriminate Hmap ].
      apply (v4mapped_port P K). exact Hmap.
    + rewrite Haddr. unfold stored_address.
      destruct (if DSMode_eqb (dsmode s) DSMODE_IPV4
                then ResolvedAddressIsV4Mapped P a else None) as [a4 | ] eqn:Hmap;
        [ | exact Hreq ].
      destruct (DSMode_eqb (dsmode s) DSMODE_IPV4); [ | discriminate Hmap ].
      rewrite (v4mapped_port P K a a4 Hmap). exact Hreq.
  - exact I.
  - apply CreateAndPrepare_aborted in Hrun.
    destruct Hrun as (fd & ds & Hc & [Hneg | (pre & Hrun)]).
    + pose proof (created_fd_nonneg P K _ _ _ _ Hc). lia.
    + cbv zeta in Hrun. destruct Hrun as (Hb & Hl & Hg & Hp).
      destruct (listening_port P K _ fd _ _ Hb Hl Hg) as [Hpos _]. lia.
Qed.

(** *** The simulated platform keeps the kernel contract *)

Lemma byte_val_of_Z (z : Z) : byte_val (byte_of_Z z) = z mod 256.
Proof.
  unfold byte_val, byte_of_Z.
  assert (Hr : 0 <= z mod 256 < 256) by (apply Z.mod_pos_bound; lia).
  destruct (Byte.of_N (Z.to_N (z mod 256))) as [b | ] eqn:E.
  - apply Byte.to_of_N in E. rewrite E. lia.
  - apply Byte.of_N_None_iff in E. lia.
Qed.

Lemma Sim_port_field (b0 b1 : byte) (q : Z) (rest : list byte) :
  0 <= q < 65536 ->
  Sim.GetPort (b0 :: b1 :: Sim.port_hi q :: Sim.port_lo q :: rest) = q.
Proof.
  intros Hq. unfold Sim.GetPort, byte_at, Sim.port_hi, Sim.port_lo. cbn [nth].
  rewrite !byte_val_of_Z. Z.div_mod_to_equations. lia.
Qed.

Lemma Sim_GetPort_range (a : ResolvedAddress) : 0 <= Sim.GetPort a < 65536.
Proof.
  unfold Sim.GetPort.
  pose proof (byte_val_range (byte_at a 2)). pose proof (byte_val_range (byte_at a 3)).
  lia.
Qed.

Lemma Sim_last_bind_app (h1 h2 : History) (fd : Z) (acc : option ResolvedAddress) :
  Sim.last_bind (h1 ++ h2) fd acc = Sim.last_bind h2 fd (Sim.last_bind h1 fd acc).
Proof.
  revert acc. induction h1 as [ | c h1 IH ]; intros acc; [ reflexivity | ].
  destruct c; cbn [app Sim.last_bind]; apply IH.
Qed.

Lemma Sim_created_fd (cfg : Sim.Config) (h : History) (a : ResolvedAddress)
      (fd : Z) (ds : DSMode) :
  Sim.create cfg h a = (Value fd, ds) -> fd = Sim.next_fd h.
Proof.
  unfold Sim.create.
  destruct (sa_family false a =? AF_INET6);
    [ destruct (Sim.ipv6_mode cfg), (Sim.IsV4Mapped a), (Sim.ipv4_available cfg)
    | destruct (sa_family false a =? AF_INET); [ destruct (Sim.ipv4_available cfg) | ] ];
    intros H; inversion H; reflexivity.
Qed.

Lemma Sim_keeps_contract (cfg : Sim.Config) : KernelContract (Sim.platform cfg).
Proof.
  constructor; cbn [Sim.platform sys_CreateDualStackSocket sys_bind sys_listen
                      sys_getsockname ResolvedAddressGetPort ResolvedAddressSetPort
                      ResolvedAddressIsV4Mapped ResolvedAddressMakeWild4].
  - intros h a fd ds H. apply Sim_created_fd in H. subst fd. unfold Sim.next_fd. lia.
  - intros h fd a n; cbv zeta; intros Hb _ _.
    rewrite !Sim_last_bind_app. cbn [Sim.last_bind]. rewrite Z.eqb_refl. cbn [fst snd].
    destruct (Nat.ltb (List.length a) 16) eqn:Hlen; cbn [orb] in Hb; [ lia | ].
    apply Nat.ltb_ge in Hlen.
    destruct a as [ | b0 [ | b1 [ | b2 [ | b3 rest ] ] ] ]; cbn [List.length] in Hlen;
      try lia.
    pose proof (Sim_GetPort_range (b0 :: b1 :: b2 :: b3 :: rest)) as Hr.
    destruct (Sim.GetPort (b0 :: b1 :: b2 :: b3 :: rest) =? 0) eqn:Hz.
    + apply Z.eqb_eq in Hz. cbn [Sim.SetPort].
      rewrite Sim_port_field by (unfold Sim.ephemeral_port; lia).
      unfold Sim.ephemeral_port. split; [ lia | intros Hn; contradiction ].
    + apply Z.eqb_neq in Hz. split; [ lia | reflexivity ].
  - intros a a4 H. unfold Sim.IsV4Mapped in H.
    destruct ((sa_family false a =? AF_INET6)
              && memcmp_eq (firstn 12 (skipn 8 a)) Sim.kV4MappedPrefix);
      [ | discriminate H ].
    injection H as <-. reflexivity.
  - apply Sim_GetPort_range.
  - intros p q Hq. unfold Sim.MakeWild4. cbn [Sim.bytes map app Sim.SetPort].
    apply Sim_port_field. exact Hq.
Qed.

(** C1. Whatever the platform does, [CreateAndPrepareListenerSocket] never
    returns a socket whose port is 0 (or negative).  On a platform that
    keeps the kernel contract it returns, for every options value and every
    address, either a socket whose port is positive, and equal to the
    requested port when that was not 0, or an error status. *)
Theorem CreateAndPrepareListenerSocket_port
        (P : Platform) (options : PosixTcpOptions) (a : ResolvedAddress) (h : History) :
  match fst (CreateAndPrepareListenerSocket P options a h) with
  | Done (Value s) => 0 < port s
  | _ => True
  end
  /\ (KernelContract P ->
      match fst (CreateAndPrepareListenerSocket P options a h) with
      | Done (Value s) =>
          0 < port s
          /\ (ResolvedAddressGetPort P a <> 0 -> port s = ResolvedAddressGetPort P a)
      | Done (Failure code msg) => ok (status (@Failure ListenerSocket code msg)) = false
      | Aborted => False
      end).
Proof.
  split.
  - destruct (CreateAndPrepareListenerSocket P options a h) as [[[s | c m] | ] cs] eqn:Hrun;
      cbn [fst]; try exact I.
    apply CreateAndPrepare_value in Hrun. tauto.
  - intros K. pose proof (CreateAndPrepare_under_contract P K options a h) as H.
    destruct (fst (CreateAndPrepareListenerSocket P options a h)) as [[s | c m] | ];
      [ exact H | reflexivity | exact H ].
Qed.

Lemma CreateAndPrepareListenerSocket_port_witness :
  let P := Sim.platform (Sim.linux []) in
  KernelContract P
  /\ match fst (CreateAndPrepareListenerSocket P Sim.default_options Sim.localhost_8080 [])
     with
     | Done (Value s) => port s = 8080
     | _ => False
     end
  /\ match fst (CreateAndPrepareListenerSocket P Sim.default_options Sim.localhost_8080 [])
     with
     | Done (Value s) =>
         0 < port s
         /\ (ResolvedAddressGetPort P Sim.localhost_8080 <> 0 ->
             port s = ResolvedAddressGetPort P Sim.localhost_8080)
     | Done (Failure code msg) => ok (status (@Failure ListenerSocket code msg)) = false
     | Aborted => False
     end.
Proof.
  intros P. split; [ apply Sim_keeps_contract | split ].
  - vm_compute. reflexivity.
  - apply (CreateAndPrepareListenerSocket_port P Sim.default_options Sim.localhost_8080 []).
    apply Sim_keeps_contract.
Defined.

(** ** Wildcard orchestrator *)

(** The fallback path, case by case on how the two attempts end. *)
Lemma Wildcard_fallback_cases
      (P : Platform) (ls : ListenerSocketsContainer) (options : PosixTcpOptions)
      (rp : Z) (h : History) :
  SystemHasIfAddrs P && expand_wildcard_addrs options = false ->
  ListenerContainerAddWildcardAddresses P ls options rp h =
  match v6_attempt P options rp h with
  | (Aborted, e6) => (Aborted, e6)
  | (Done (Value s6), e6) =>
      if covers_ipv4 s6 then (Done (Value (port s6), ls ++ [s6]), e6)
      else
        match v4_attempt P options rp h with
        | (Aborted, e4) => (Aborted, e6 ++ e4)
        | (Done (Value s4), e4) => (Done (Value (port s4), ls ++ [s6; s4]), e6 ++ e4)
        | (Done (Failure _ _), e4) => (Done (Value (port s6), ls ++ [s6]), e6 ++ e4)
        end
  | (Done (Failure _ m6), e6) =>
      match v4_attempt P options rp h with
      | (Aborted, e4) => (Aborted, e6 ++ e4)
      | (Done (Value s4), e4) => (Done (Value (port s4), ls ++ [s4]), e6 ++ e4)
      | (Done (Failure _ m4), e4) =>
          (Done (Failure kFailedPrecondition
                         (StrCat ["Failed to add any wildcard listeners: "; m6; m4]), ls),
           e6 ++ e4)
      end
  end.
Proof.
  intros Hfb.
  unfold v4_attempt, v4_address, v4_port, v6_attempt.
  cbv beta zeta delta [ListenerContainerAddWildcardAddresses bind ret CHECK crash].
  rewrite Hfb.
  destruct (CreateAndPrepareListenerSocket P options (ResolvedAddressMakeWild6 P rp) h)
    as [[[s6 | c6 m6] | ] e6] eqn:H6; cbn [fst snd]; cbv beta iota; [ | | reflexivity ].
  - apply CreateAndPrepare_value in H6. destruct H6 as (Hp6 & _).
    unfold covers_ipv4.
    destruct (DSMode_eqb (dsmode s6) DSMODE_DUALSTACK || DSMode_eqb (dsmode s6) DSMODE_IPV4);
      [ rewrite app_nil_r; reflexivity | ].
    destruct (CreateAndPrepareListenerSocket P options
                (ResolvedAddressSetPort P (ResolvedAddressMakeWild4 P rp) (port s6))
                (h ++ e6)) as [[[s4 | c4 m4] | ] e4] eqn:H4; cbv beta iota;
      [ | | reflexivity ].
    + apply CreateAndPrepare_value in H4. destruct H4 as (Hp4 & _).
      apply Z.ltb_lt in Hp4. rewrite Hp4. unfold Append.
      rewrite <- app_assoc, app_nil_r. reflexivity.
    + apply Z.ltb_lt in Hp6. rewrite Hp6. unfold Append. rewrite app_nil_r. reflexivity.
  - destruct (CreateAndPrepareListenerSocket P options
                (ResolvedAddressSetPort P (ResolvedAddressMakeWild4 P rp) rp)
                (h ++ e6)) as [[[s4 | c4 m4] | ] e4] eqn:H4; cbv beta iota;
      [ | | reflexivity ].
    + apply CreateAndPrepare_value in H4. destruct H4 as (Hp4 & _).
      apply Z.ltb_lt in Hp4. rewrite Hp4. unfold Append. rewrite app_nil_r. reflexivity.
    + cbn [Z.ltb Z.compare has_value negb status message as_failure
             FailedPreconditionError app].
      rewrite !app_nil_r. reflexivity.
Qed.

(** The outcomes of the fallback path against those of its two attempts. *)
Lemma Wildcard_fallback_outcomes
        (P : Platform) (ls : ListenerSocketsContainer) (options : PosixTcpOptions)
        (rp : Z) (h : History) :
  SystemHasIfAddrs P && expand_wildcard_addrs options = false ->
  let v6 := fst (v6_attempt P options rp h) in
  let v4 := fst (v4_attempt P options rp h) in
  let result := fst (ListenerContainerAddWildcardAddresses P ls options rp h) in
  (forall s6, v6 = Done (Value s6) -> covers_ipv4 s6 = true \/ v4 <> Aborted ->
     exists p ls',
       result = Done (Value p, ls') /\ 0 < p /\ In s6 ls'
       /\ (p = port s6 \/ exists s4, v4 = Done (Value s4) /\ p = port s4))
  /\ (forall c6 m6 s4, v6 = Done (Failure c6 m6) -> v4 = Done (Value s4) ->
        result = Done (Value (port s4), ls ++ [s4]) /\ 0 < port s4)
  /\ (forall c m ls',
        result = Done (Failure c m, ls') <->
        exists c6 m6 c4 m4,
          v6 = Done (Failure c6 m6) /\ v4 = Done (Failure c4 m4)
          /\ c = kFailedPrecondition
          /\ m = StrCat ["Failed to add any wildcard listeners: "; m6; m4]
          /\ ls' = ls).
Proof.
  intros Hfb v6 v4 result. subst v6 v4 result.
  rewrite (Wildcard_fallback_cases P ls options rp h Hfb).
  destruct (v6_attempt P options rp h) as [[[s6 | c6 m6] | ] e6] eqn:H6; cbn [fst].
  - unfold v6_attempt in H6. apply CreateAndPrepare_value in H6. destruct H6 as (Hp6 & _).
    split; [ | split ].
    + intros s Hs Hor. injection Hs as <-.
      destruct (covers_ipv4 s6) eqn:Hcov; cbn [fst].
      * exists (port s6), (ls ++ [s6]).
        repeat split; [ exact Hp6 | apply in_or_app; right; left; reflexivity | left; reflexivity ].
      * destruct Hor as [Hx | Hna]; [ discriminate Hx | ].
        destruct (v4_attempt P options rp h) as [[[s4 | c4 m4] | ] e4] eqn:H4; cbn [fst] in *.
        -- unfold v4_attempt in H4. apply CreateAndPrepare_value in H4.
           destruct H4 as (Hp4 & _).
           exists (port s4), (ls ++ [s6; s4]).
           repeat split; [ exact Hp4 | apply in_or_app; right; left; reflexivity | ].
           right. exists s4. split; reflexivity.
        -- exists (port s6), (ls ++ [s6]).
           repeat split;
             [ exact Hp6 | apply in_or_app; right; left; reflexivity | left; reflexivity ].
        -- contradiction Hna. reflexivity.
    + intros c m s4 Hx. discriminate Hx.
    + intros c m ls'. split.
      * destruct (covers_ipv4 s6); cbn [fst]; [ intros Hx; discriminate Hx | ].
        destruct (v4_attempt P options rp h) as [[[s4 | c4 m4] | ] e4]; cbn [fst];
          intros Hx; discriminate Hx.
      * intros (c6 & m6 & c4 & m4 & Hx & _). discriminate Hx.
  - split; [ | split ].
    + intros s Hx. discriminate Hx.
    + intros c m s4 _ H4eq.
      destruct (v4_attempt P options rp h) as [[[s4' | c4 m4] | ] e4] eqn:H4; cbn [fst] in *;
        try discriminate H4eq.
      injection H4eq as <-.
      unfold v4_attempt in H4. apply CreateAndPrepare_value in H4. destruct H4 as (Hp4 & _).
      split; [ reflexivity | exact Hp4 ].
    + intros c m ls'.
      destruct (v4_attempt P options rp h) as [[[s4 | c4 m4] | ] e4]; cbn [fst]; split.
      * intros Hx. discriminate Hx.
      * intros (? & ? & ? & ? & _ & Hx & _). discriminate Hx.
      * intros Hx. injection Hx as <- <- <-.
        exists c6, m6, c4, m4. repeat split.
      * intros (c6' & m6' & c4' & m4' & E6 & E4 & -> & -> & ->).
        injection E6 as <- <-. injection E4 as <- <-. reflexivity.
      * intros Hx. discriminate Hx.
      * intros (? & ? & ? & ? & _ & Hx & _). discriminate Hx.
  - split; [ | split ].
    + intros s Hx. discriminate Hx.
    + intros c m s4 Hx. discriminate Hx.
    + intros c m ls'. split.
      * intros Hx. discriminate Hx.
      * intros (? & ? & ? & ? & Hx & _). discriminate Hx.
Qed.

(** C2. In the wildcard fallback path the orchestrator returns success,
    with the positive port of a socket it appended, whenever the IPv6 bind
    or the IPv4 bind succeeds (an attempt that ends the process apart, which
    a platform that keeps the kernel contract never causes); it returns an
    error exactly when both binds fail, and the message of that error is
    "Failed to add any wildcard listeners: " followed by the messages of the
    two failures. *)
Theorem Wildcard_fallback_best_effort
        (P : Platform) (ls : ListenerSocketsContainer) (options : PosixTcpOptions)
        (rp : Z) (h : History) :
  SystemHasIfAddrs P && expand_wildcard_addrs options = false ->
  let v6 := fst (v6_attempt P options rp h) in
  let v4 := fst (v4_attempt P options rp h) in
  let result := fst (ListenerContainerAddWildcardAddresses P ls options rp h) in
  (forall s6, v6 = Done (Value s6) -> covers_ipv4 s6 = true \/ v4 <> Aborted ->
     exists p ls',
       result = Done (Value p, ls') /\ 0 < p /\ In s6 ls'
       /\ (p = port s6 \/ exists s4, v4 = Done (Value s4) /\ p = port s4))
  /\ (forall c6 m6 s4, v6 = Done (Failure c6 m6) -> v4 = Done (Value s4) ->
        result = Done (Value (port s4), ls ++ [s4]) /\ 0 < port s4)
  /\ (forall c m ls',
        result = Done (Failure c m, ls') <->
        exists c6 m6 c4 m4,
          v6 = Done (Failure c6 m6) /\ v4 = Done (Failure c4 m4)
          /\ c = kFailedPrecondition
          /\ m = StrCat ["Failed to add any wildcard listeners: "; m6; m4]
          /\ ls' = ls)
  /\ (KernelContract P ->
      (exists s, v6 = Done (Value s) \/ v4 = Done (Value s)) ->
      exists p ls', result = Done (Value p, ls') /\ 0 < p).
Proof.
  intros Hfb v6 v4 result.
  destruct (Wildcard_fallback_outcomes P ls options rp h Hfb) as (H1 & H2 & H3).
  fold v6 v4 result in H1, H2, H3.
  split; [ exact H1 | split; [ exact H2 | split; [ exact H3 | ] ] ].
  intros K (s & Hs).
  assert (Hna : v4 <> Aborted).
  { subst v4. unfold v4_attempt.
    pose proof (CreateAndPrepare_under_contract P K options (v4_address P options rp h)
                  (h ++ snd (v6_attempt P options rp h))) as HK.
    intros E. rewrite E in HK. exact HK. }
  assert (Hn6 : v6 <> Aborted).
  { subst v6. unfold v6_attempt.
    pose proof (CreateAndPrepare_under_contract P K options (ResolvedAddressMakeWild6 P rp) h)
      as HK.
    intros E. rewrite E in HK. exact HK. }
  destruct v6 as [[s6 | c6 m6] | ] eqn:E6.
  - destruct (H1 s6 eq_refl (or_intror Hna)) as (p & ls' & Hr & Hp & _).
    exists p, ls'. split; assumption.
  - destruct Hs as [Hx | Hs]; [ discriminate Hx | ].
    destruct (H2 c6 m6 s eq_refl Hs) as (Hr & Hp).
    exists (port s), (ls ++ [s]). split; assumption.
  - contradiction Hn6. reflexivity.
Qed.

(** On a host without IPv6 the fallback succeeds through the IPv4
    wildcard. *)
Lemma Wildcard_fallback_best_effort_witness :
  let P := Sim.platform (Sim.wildcard_host DSMODE_NONE true) in
  let s4 := {| sock := {| Fd := 4 |}; port := 8080; zero_copy_enabled := true;
               addr := Sim.MakeWild4 8080; dsmode := DSMODE_IPV4 |} in
  SystemHasIfAddrs P && expand_wildcard_addrs Sim.default_options = false
  /\ fst (ListenerContainerAddWildcardAddresses P [] Sim.default_options 8080 [])
     = Done (Value (port s4), [] ++ [s4])
  /\ 0 < port s4.
Proof.
  intros P s4. split; [ reflexivity | ].
  apply (Wildcard_fallback_best_effort P [] Sim.default_options 8080 [] eq_refl)
    with (c6 := kUnavailable) (m6 := "Address family not supported by protocol").
  - vm_compute. reflexivity.
  - vm_compute. reflexivity.
Defined.

(** On a host with neither family the fallback fails with both messages. *)
Example Wildcard_fallback_both_fail :
  fst (ListenerContainerAddWildcardAddresses
         (Sim.platform (Sim.wildcard_host DSMODE_NONE false)) [] Sim.default_options 8080 [])
  = Done (Failure kFailedPrecondition
                  ("Failed to add any wildcard listeners: "
                   ++ "Address family not supported by protocol"
                   ++ "Address family not supported by protocol")%string, []).
Proof. vm_compute. reflexivity. Qed.

(** C3. In the wildcard fallback path the first call asks for a socket for
    the IPv6 wildcard.  When that socket is dual-stack or IPv4-only the
    orchestrator returns its port and makes no call beyond those of the IPv6
    attempt.  Otherwise the next attempt is for the IPv4 wildcard, at the
    port of the IPv6 socket when the IPv6 bind succeeded and at the
    requested port when it failed.  On a platform that keeps the kernel
    contract the IPv4 socket then has the port of the IPv6 socket (I4). *)
Theorem Wildcard_fallback_order_and_port
        (P : Platform) (ls : ListenerSocketsContainer) (options : PosixTcpOptions)
        (rp : Z) (h : History) :
  SystemHasIfAddrs P && expand_wildcard_addrs options = false ->
  let wild4 := ResolvedAddressMakeWild4 P rp in
  let wild6 := ResolvedAddressMakeWild6 P rp in
  let r6 := v6_attempt P options rp h in
  let r4 := v4_attempt P options rp h in
  let result := ListenerContainerAddWildcardAddresses P ls options rp h in
  (exists rest, snd result = call_CreateDualStackSocket wild6 :: rest)
  /\ (forall s6, fst r6 = Done (Value s6) -> covers_ipv4 s6 = true ->
        result = (Done (Value (port s6), ls ++ [s6]), snd r6))
  /\ (forall s6, fst r6 = Done (Value s6) -> covers_ipv4 s6 = false ->
        exists rest,
          snd result
          = snd r6
            ++ call_CreateDualStackSocket (ResolvedAddressSetPort P wild4 (port s6)) :: rest)
  /\ (forall c m, fst r6 = Done (Failure c m) ->
        exists rest,
          snd result
          = snd r6 ++ call_CreateDualStackSocket (ResolvedAddressSetPort P wild4 rp) :: rest)
  /\ (KernelContract P ->
      forall s6 s4, fst r6 = Done (Value s6) -> covers_ipv4 s6 = false ->
                    fst r4 = Done (Value s4) ->
                    port s4 = port s6
                    /\ fst result = Done (Value (port s6), ls ++ [s6; s4])).
Proof.
  intros Hfb wild4 wild6 r6 r4 result. subst wild4 wild6 r6 r4 result.
  rewrite (Wildcard_fallback_cases P ls options rp h Hfb).
  assert (H4first : exists rest,
             snd (v4_attempt P options rp h)
             = call_CreateDualStackSocket (v4_address P options rp h) :: rest).
  { unfold v4_attempt. apply CreateAndPrepare_first_call. }
  assert (H6first : exists rest,
             snd (v6_attempt P options rp h)
             = call_CreateDualStackSocket (ResolvedAddressMakeWild6 P rp) :: rest).
  { unfold v6_attempt. apply CreateAndPrepare_first_call. }
  assert (K4 : KernelContract P ->
               match fst (v4_attempt P options rp h) with
               | Done (Value s) =>
                   ResolvedAddressGetPort P (v4_address P options rp h) <> 0 ->
                   port s = ResolvedAddressGetPort P (v4_address P options rp h)
               | _ => True
               end).
  { intros K. unfold v4_attempt.
    pose proof (CreateAndPrepare_under_contract P K options (v4_address P options rp h)
                  (h ++ snd (v6_attempt P options rp h))) as HK.
    destruct (fst (CreateAndPrepareListenerSocket P options (v4_address P options rp h)
                     (h ++ snd (v6_attempt P options rp h)))) as [[s | c m] | ];
      [ apply HK | exact I | exact I ]. }
  assert (K6 : KernelContract P ->
               match fst (v6_attempt P options rp h) with
               | Done (Value s) => 0 < port s < 65536
               | _ => True
               end).
  { intros K.
    destruct (v6_attempt P options rp h) as [[[s | c m] | ] e] eqn:H6; cbn [fst];
      try exact I.
    unfold v6_attempt in H6. apply CreateAndPrepare_value in H6.
    destruct H6 as (Hpos & _ & fd & pre & H6). cbv zeta in H6.
    destruct H6 as (_ & _ & _ & _ & _ & _ & _ & _ & Hp).
    pose proof (port_range P K (snd (sys_getsockname P
                 ((((h ++ [call_CreateDualStackSocket (ResolvedAddressMakeWild6 P rp)])
                      ++ pre) ++ [call_bind fd (addr s)])
                    ++ [call_listen fd (GetMaxAcceptQueueSize P)]) fd))) as Hr.
    rewrite <- Hp in Hr. lia. }
  unfold v4_address, v4_port in H4first, K4.
  destruct (v6_attempt P options rp h) as [[[s6 | c6 m6] | ] e6] eqn:H6; cbn [fst snd] in *;
    destruct H6first as (rest6 & ->);
    (split; [ | split; [ | split; [ | split ] ] ]).
  - destruct (covers_ipv4 s6); cbn [snd].
    + eexists; reflexivity.
    + destruct (v4_attempt P options rp h) as [[[s4 | c4 m4] | ] e4]; cbn [snd];
        eexists; reflexivity.
  - intros s Hs Hcov. injection Hs as <-. rewrite Hcov. reflexivity.
  - intros s Hs Hcov. injection Hs as <-. rewrite Hcov.
    destruct H4first as (rest4 & H4first). exists rest4.
    destruct (v4_attempt P options rp h) as [[[s4 | c4 m4] | ] e4]; cbn [snd] in *;
      rewrite H4first; reflexivity.
  - intros c m Hx. discriminate Hx.
  - intros K s s4 Hs Hcov E4. injection Hs as <-. rewrite Hcov.
    specialize (K4 K). specialize (K6 K).
    destruct (v4_attempt P options rp h) as [[[s4' | c4 m4] | ] e4]; cbn [fst] in *;
      try discriminate E4.
    injection E4 as <-.
    rewrite (wild4_port P K) in K4 by lia.
    assert (E : port s4' = port s6) by (apply K4; lia).
    split; [ exact E | rewrite E; reflexivity ].
  - destruct (v4_attempt P options rp h) as [[[s4 | c4 m4] | ] e4]; cbn [snd];
      eexists; reflexivity.
  - intros s Hx. discriminate Hx.
  - intros s Hx. discriminate Hx.
  - intros c m _. destruct H4first as (rest4 & H4first). exists rest4.
    destruct (v4_attempt P options rp h) as [[[s4 | c4 m4] | ] e4]; cbn [snd] in *;
      rewrite H4first; reflexivity.
  - intros _ s s4 Hx. discriminate Hx.
  - eexists; reflexivity.
  - intros s Hx. discriminate Hx.
  - intros s Hx. discriminate Hx.
  - intros c m Hx. discriminate Hx.
  - intros _ s s4 Hx. discriminate Hx.
Qed.

(** Port 0 on a host whose IPv6 sockets are IPv6-only: the IPv6 wildcard
    gets a port from the kernel and the IPv4 wildcard is bound at it. *)
Lemma Wildcard_fallback_order_and_port_witness :
  let P := Sim.platform (Sim.wildcard_host DSMODE_IPV6 true) in
  let s6 := {| sock := {| Fd := 3 |}; port := 40000; zero_copy_enabled := true;
               addr := Sim.MakeWild6 0; dsmode := DSMODE_IPV6 |} in
  let s4 := {| sock := {| Fd := 4 |}; port := 40000; zero_copy_enabled := true;
               addr := Sim.MakeWild4 40000; dsmode := DSMODE_IPV4 |} in
  SystemHasIfAddrs P && expand_wildcard_addrs Sim.default_options = false
  /\ port s4 = port s6
  /\ fst (ListenerContainerAddWildcardAddresses P [] Sim.default_options 0 [])
     = Done (Value (port s6), [] ++ [s6; s4]).
Proof.
  intros P s6 s4. split; [ reflexivity | ].
  apply (Wildcard_fallback_order_and_port P [] Sim.default_options 0 [] eq_refl).
  - apply Sim_keeps_contract.
  - vm_compute. reflexivity.
  - vm_compute. reflexivity.
  - vm_compute. reflexivity.
Defined.

(** ** Multi-interface enumerator *)

Lemma memcmp_eq_iff (p q : list byte) : memcmp_eq p q = true <-> p = q.
Proof.
  revert q. induction p as [ | x p IH ]; intros [ | y q ]; cbn [memcmp_eq];
    try (split; [ discriminate | discriminate ]); [ tauto | ].
  rewrite andb_true_iff, IH. split.
  - intros [Hx ->]. apply Byte.byte_dec_bl in Hx. subst. reflexivity.
  - intros Heq. injection Heq as -> ->. split; [ apply Byte.byte_dec_lb | ]; reflexivity.
Qed.

(** [Find] succeeds exactly on the addresses the container holds. *)
Lemma Find_has_value (c : ListenerSocketsContainer) (a : ResolvedAddress) :
  has_value (Find c a) = true <-> In a (map addr c).
Proof.
  unfold Find. induction c as [ | s c IH ]; cbn [find map In].
  - split; [ discriminate | contradiction ].
  - destruct (memcmp_eq (addr s) a) eqn:E.
    + apply memcmp_eq_iff in E. cbn [has_value]. tauto.
    + split.
      * intros H. right. apply IH. exact H.
      * intros [H | H].
        -- apply memcmp_eq_iff in H. congruence.
        -- apply IH. exact H.
Qed.

(** One pass through the loop body, case by case. *)
Lemma AddAllLocalAddresses_body_cases
      (P : Platform) (options : PosixTcpOptions) (rp : Z) (ifa_it : ifaddrs)
      (st : EnumState) (h : History) :
  AddAllLocalAddresses_body P options rp ifa_it st h =
  match candidate_address P options rp ifa_it with
  | None => (Done (st, false), [])
  | Some a =>
      match ResolvedAddressToString P a with
      | Failure _ _ => (Aborted, [])
      | Value addr_str =>
          if has_value (Find (listener_sockets st) a) then (Done (st, false), [])
          else
            match CreateAndPrepareListenerSocket P options a h with
            | (Done (Failure _ m), cs) =>
                (Done ({| listener_sockets := listener_sockets st;
                          op_status :=
                            FailedPreconditionError
                              (StrCat ["Failed to add listener: "; addr_str;
                                       " due to error: "; m]);
                          no_local_addresses := no_local_addresses st;
                          assigned_port := assigned_port st |}, true), cs)
            | (Done (Value s), cs) =>
                (Done ({| listener_sockets := listener_sockets st ++ [s];
                          op_status := op_status st;
                          no_local_addresses := false;
                          assigned_port := port s |}, false), cs)
            | (Aborted, cs) => (Aborted, cs)
            end
      end
  end.
Proof.
  unfold AddAllLocalAddresses_body, candidate_address.
  destruct (ifa_addr ifa_it) as [sa | ]; [ | reflexivity ].
  cbv zeta.
  assert (Hrest : forall len,
    (if exclude_link_local_addresses options
        && IsSockAddrLinkLocal (host_big_endian P)
             (ResolvedAddressSetPort P (firstn len sa) rp)
     then ret (st, false)
     else
       match ResolvedAddressToString P (ResolvedAddressSetPort P (firstn len sa) rp) with
       | Value addr_str =>
           if has_value (Find (listener_sockets st)
                              (ResolvedAddressSetPort P (firstn len sa) rp))
           then ret (st, false)
           else
             result <- CreateAndPrepareListenerSocket P options
                         (ResolvedAddressSetPort P (firstn len sa) rp) ;;
             match result with
             | Value s =>
                 ret ({| listener_sockets := Append (listener_sockets st) s;
                         op_status := op_status st;
                         no_local_addresses := false;
                         assigned_port := port s |}, false)
             | Failure _ m =>
                 ret ({| listener_sockets := listener_sockets st;
                         op_status :=
                           FailedPreconditionError
                             (StrCat ["Failed to add listener: "; addr_str;
                                      " due to error: "; m]);
                         no_local_addresses := no_local_addresses st;
                         assigned_port := assigned_port st |}, true)
             end
       | Failure _ _ => crash
       end) h
    = match (if exclude_link_local_addresses options
                && IsSockAddrLinkLocal (host_big_endian P)
                     (ResolvedAddressSetPort P (firstn len sa) rp)
             then None else Some (ResolvedAddressSetPort P (firstn len sa) rp)) with
      | None => (Done (st, false), [])
      | Some a =>
          match ResolvedAddressToString P a with
          | Failure _ _ => (Aborted, [])
          | Value addr_str =>
              if has_value (Find (listener_sockets st) a) then (Done (st, false), [])
              else
                match CreateAndPrepareListenerSocket P options a h with
                | (Done (Failure _ m), cs) =>
                    (Done ({| listener_sockets := listener_sockets st;
                              op_status :=
                                FailedPreconditionError
                                  (StrCat ["Failed to add listener: "; addr_str;
                                           " due to error: "; m]);
                              no_local_addresses := no_local_addresses st;
                              assigned_port := assigned_port st |}, true), cs)
                | (Done (Value s), cs) =>
                    (Done ({| listener_sockets := listener_sockets st ++ [s];
                              op_status := op_status st;
                              no_local_addresses := false;
                              assigned_port := port s |}, false), cs)
                | (Aborted, cs) => (Aborted, cs)
                end
          end
      end).
  { intros len.
    destruct (exclude_link_local_addresses options
              && IsSockAddrLinkLocal (host_big_endian P)
                   (ResolvedAddressSetPort P (firstn len sa) rp)); [ reflexivity | ].
    destruct (ResolvedAddressToString P (ResolvedAddressSetPort P (firstn len sa) rp))
      as [addr_str | c m]; [ | reflexivity ].
    destruct (has_value (Find (listener_sockets st)
                              (ResolvedAddressSetPort P (firstn len sa) rp)));
      [ reflexivity | ].
    unfold bind, ret, Append.
    destruct (CreateAndPrepareListenerSocket P options
                (ResolvedAddressSetPort P (firstn len sa) rp) h) as [[[s | c m] | ] cs];
      rewrite ?app_nil_r; reflexivity. }
  destruct (sa_family (host_big_endian P) sa =? AF_INET).
  - destruct (is_ipv4_available P); cbn [negb]; [ apply Hrest | reflexivity ].
  - destruct (sa_family (host_big_endian P) sa =? AF_INET6); [ apply Hrest | reflexivity ].
Qed.

(** The loop is left by [break] exactly when the status turned into an
    error. *)
Lemma AddAllLocalAddresses_body_break
      (P : Platform) (options : PosixTcpOptions) (rp : Z) (ifa_it : ifaddrs)
      (st st' : EnumState) (h : History) (brk : bool) (cs : list Call) :
  AddAllLocalAddresses_body P options rp ifa_it st h = (Done (st', brk), cs) ->
  ok (op_status st) = true ->
  brk = negb (ok (op_status st'))
  /\ exists added, listener_sockets st' = listener_sockets st ++ added.
Proof.
  rewrite AddAllLocalAddresses_body_cases. intros Hrun Hok.
  assert (Hsame : st' = st -> brk = false ->
                  brk = negb (ok (op_status st'))
                  /\ exists added, listener_sockets st' = listener_sockets st ++ added).
  { intros -> ->. rewrite Hok. split; [ reflexivity | ].
    exists []. rewrite app_nil_r. reflexivity. }
  destruct (candidate_address P options rp ifa_it) as [a | ];
    [ | injection Hrun as <- <- _; apply Hsame; reflexivity ].
  destruct (ResolvedAddressToString P a) as [addr_str | c m]; [ | discriminate Hrun ].
  destruct (has_value (Find (listener_sockets st) a));
    [ injection Hrun as <- <- _; apply Hsame; reflexivity | ].
  destruct (CreateAndPrepareListenerSocket P options a h) as [[[s | c m] | ] cs'];
    [ | | discriminate Hrun ]; injection Hrun as <- <- _; cbn [op_status listener_sockets].
  - rewrite Hok. split; [ reflexivity | ]. exists [s]. reflexivity.
  - split; [ reflexivity | ]. exists []. rewrite app_nil_r. reflexivity.
Qed.

(** Walking a list in two parts: when the first part ends without a
    failure, the loop goes on with the second part from where it stands. *)
Lemma AddAllLocalAddresses_loop_app
      (P : Platform) (options : PosixTcpOptions) (rp : Z) (pre post : list ifaddrs) :
  forall (st st1 : EnumState) (h : History) (e1 : list Call),
    AddAllLocalAddresses_loop P options rp pre st h = (Done st1, e1) ->
    ok (op_status st) = true ->
    ok (op_status st1) = true ->
    AddAllLocalAddresses_loop P options rp (pre ++ post) st h
    = match AddAllLocalAddresses_loop P options rp post st1 (h ++ e1) with
      | (o, e2) => (o, e1 ++ e2)
      end.
Proof.
  induction pre as [ | ifa_it pre IH ]; intros st st1 h e1 Hrun Hok Hok1.
  - cbn [AddAllLocalAddresses_loop] in Hrun. unfold ret in Hrun.
    injection Hrun as <- <-. rewrite app_nil_r. cbn [app].
    destruct (AddAllLocalAddresses_loop P options rp post st h); reflexivity.
  - cbn [app AddAllLocalAddresses_loop] in *. unfold bind in *.
    destruct (AddAllLocalAddresses_body P options rp ifa_it st h)
      as [[[st' brk] | ] cs0] eqn:Hbody; [ | discriminate Hrun ].
    destruct (AddAllLocalAddresses_body_break _ _ _ _ _ _ _ _ _ Hbody Hok) as [Hbrk _].
    destruct brk.
    + unfold ret in Hrun. injection Hrun as <- <-.
      rewrite Hok1 in Hbrk. discriminate Hbrk.
    + assert (Hok' : ok (op_status st') = true) by (destruct (ok (op_status st'));
                                                   [ reflexivity | discriminate Hbrk ]).
      destruct (AddAllLocalAddresses_loop P options rp pre st' (h ++ cs0))
        as [o' e'] eqn:Hrest.
      injection Hrun as -> <-.
      rewrite (IH st' st1 (h ++ cs0) e' Hrest Hok' Hok1).
      rewrite <- app_assoc.
      destruct (AddAllLocalAddresses_loop P options rp post st1 (h ++ cs0 ++ e'));
        rewrite app_assoc; reflexivity.
Qed.

(** The loop only appends to the container. *)
Lemma AddAllLocalAddresses_loop_extends
      (P : Platform) (options : PosixTcpOptions) (rp : Z) (ifs : list ifaddrs) :
  forall (st st' : EnumState) (h : History) (cs : list Call),
    AddAllLocalAddresses_loop P options rp ifs st h = (Done st', cs) ->
    ok (op_status st) = true ->
    exists added, listener_sockets st' = listener_sockets st ++ added.
Proof.
  induction ifs as [ | ifa_it ifs IH ]; intros st st' h cs Hrun Hok.
  - cbn [AddAllLocalAddresses_loop] in Hrun. unfold ret in Hrun. injection Hrun as <- _.
    exists []. rewrite app_nil_r. reflexivity.
  - cbn [AddAllLocalAddresses_loop] in Hrun. unfold bind in Hrun.
    destruct (AddAllLocalAddresses_body P options rp ifa_it st h)
      as [[[st1 brk] | ] cs0] eqn:Hbody; [ | discriminate Hrun ].
    destruct (AddAllLocalAddresses_body_break _ _ _ _ _ _ _ _ _ Hbody Hok)
      as [Hbrk (added0 & Hadd0)].
    destruct brk.
    + unfold ret in Hrun. injection Hrun as <- _. exists added0. exact Hadd0.
    + assert (Hok' : ok (op_status st1) = true) by (destruct (ok (op_status st1));
                                                   [ reflexivity | discriminate Hbrk ]).
      destruct (AddAllLocalAddresses_loop P options rp ifs st1 (h ++ cs0))
        as [o' e'] eqn:Hrest.
      injection Hrun as -> _.
      destruct (IH st1 st' (h ++ cs0) e' Hrest Hok') as (added & Hadd).
      exists (added0 ++ added). rewrite Hadd, Hadd0, app_assoc. reflexivity.
Qed.

(** The enumerator, once its setup has produced a port and a list. *)
Lemma ListenerContainerAddAllLocalAddresses_run
      (P : Platform) (ls : ListenerSocketsContainer) (options : PosixTcpOptions)
      (rp rp' : Z) (ifs : list ifaddrs) (h : History) (e0 : list Call) :
  GRPC_HAVE_IFADDRS P = true ->
  AddAllLocalAddresses_setup P rp h = (Done (inr (rp', ifs)), e0) ->
  ListenerContainerAddAllLocalAddresses P ls options rp h
  = match AddAllLocalAddresses_loop P options rp' ifs (enum_start ls) (h ++ e0) with
    | (Done st, e1) => (Done (enum_result st), e0 ++ e1 ++ [call_freeifaddrs])
    | (Aborted, e1) => (Aborted, e0 ++ e1)
    end.
Proof.
  intros Hifa Hsetup.
  unfold ListenerContainerAddAllLocalAddresses. rewrite Hifa. cbn [negb].
  unfold bind at 1. rewrite Hsetup. fold (enum_start ls).
  unfold bind, freeifaddrs, perform, ret, enum_result.
  destruct (AddAllLocalAddresses_loop P options rp' ifs (enum_start ls) (h ++ e0))
    as [[st | ] e1]; [ | reflexivity ].
  destruct (negb (ok (op_status st))); [ rewrite !app_nil_r; reflexivity | ].
  destruct (no_local_addresses st); rewrite !app_nil_r; reflexivity.
Qed.

(** The enumerator at the first interface whose bind fails: [pre] was
    walked without a failure, leaving the state [st1]; the next interface
    passes the filters with the address [a], which the container does not
    hold, and the attempt to bind it fails with the message [m]. *)
Lemma AddAllLocalAddresses_first_failure
      (P : Platform) (ls : ListenerSocketsContainer) (options : PosixTcpOptions)
      (rp rp' : Z) (pre post : list ifaddrs) (ifa_it : ifaddrs)
      (h : History) (e0 e1 e2 : list Call) (st1 : EnumState)
      (a : ResolvedAddress) (addr_str : string) (c : StatusCode) (m : string) :
  GRPC_HAVE_IFADDRS P = true ->
  AddAllLocalAddresses_setup P rp h = (Done (inr (rp', pre ++ ifa_it :: post)), e0) ->
  AddAllLocalAddresses_loop P options rp' pre (enum_start ls) (h ++ e0) = (Done st1, e1) ->
  ok (op_status st1) = true ->
  candidate_address P options rp' ifa_it = Some a ->
  ResolvedAddressToString P a = Value addr_str ->
  has_value (Find (listener_sockets st1) a) = false ->
  CreateAndPrepareListenerSocket P options a ((h ++ e0) ++ e1) = (Done (Failure c m), e2) ->
  ListenerContainerAddAllLocalAddresses P ls options rp h
  = (Done (Failure kFailedPrecondition
                   (StrCat ["Failed to add listener: "; addr_str; " due to error: "; m]),
           listener_sockets st1),
     e0 ++ (e1 ++ e2) ++ [call_freeifaddrs]).
Proof.
  intros Hifa Hsetup Hpre Hok1 Hcand Hstr Hfind Hbind.
  rewrite (ListenerContainerAddAllLocalAddresses_run P ls options rp rp' _ h e0 Hifa Hsetup).
  rewrite (AddAllLocalAddresses_loop_app P options rp' pre (ifa_it :: post)
             (enum_start ls) st1 (h ++ e0) e1 Hpre eq_refl Hok1).
  cbn [AddAllLocalAddresses_loop]. unfold bind.
  rewrite AddAllLocalAddresses_body_cases, Hcand, Hstr, Hfind, Hbind.
  unfold ret, enum_result. cbn [op_status ok FailedPreconditionError negb as_failure
                                  listener_sockets].
  rewrite app_nil_r. reflexivity.
Qed.

(** C4. The first bind failure ends the enumeration: the operation returns
    a failed-precondition error whose message wraps the message of that
    failure with the string form of the address, and after the calls of the
    failed attempt it only frees the list: no later interface is tried. *)
Theorem AddAllLocalAddresses_aborts_on_first_failure
        (P : Platform) (ls : ListenerSocketsContainer) (options : PosixTcpOptions)
        (rp rp' : Z) (pre post : list ifaddrs) (ifa_it : ifaddrs)
        (h : History) (e0 e1 e2 : list Call) (st1 : EnumState)
        (a : ResolvedAddress) (addr_str : string) (c : StatusCode) (m : string) :
  GRPC_HAVE_IFADDRS P = true ->
  AddAllLocalAddresses_setup P rp h = (Done (inr (rp', pre ++ ifa_it :: post)), e0) ->
  AddAllLocalAddresses_loop P options rp' pre (enum_start ls) (h ++ e0) = (Done st1, e1) ->
  ok (op_status st1) = true ->
  candidate_address P options rp' ifa_it = Some a ->
  ResolvedAddressToString P a = Value addr_str ->
  has_value (Find (listener_sockets st1) a) = false ->
  CreateAndPrepareListenerSocket P options a ((h ++ e0) ++ e1) = (Done (Failure c m), e2) ->
  let result := ListenerContainerAddAllLocalAddresses P ls options rp h in
  (exists ls',
      fst result
      = Done (Failure kFailedPrecondition
                      (StrCat ["Failed to add listener: "; addr_str;
                               " due to error: "; m]), ls'))
  /\ snd result = e0 ++ (e1 ++ e2) ++ [call_freeifaddrs].
Proof.
  intros Hifa Hsetup Hpre Hok1 Hcand Hstr Hfind Hbind result. subst result.
  rewrite (AddAllLocalAddresses_first_failure P ls options rp rp' pre post ifa_it h e0 e1 e2
             st1 a addr_str c m Hifa Hsetup Hpre Hok1 Hcand Hstr Hfind Hbind).
  split; [ eexists; reflexivity | reflexivity ].
Qed.

(** C10. When the enumeration ends on a bind failure, the container is
    returned as the walk had left it just before the failing interface: the
    entries it held on entry followed by the sockets appended for the
    earlier interfaces, none removed. *)
Theorem AddAllLocalAddresses_keeps_earlier_sockets
        (P : Platform) (ls : ListenerSocketsContainer) (options : PosixTcpOptions)
        (rp rp' : Z) (pre post : list ifaddrs) (ifa_it : ifaddrs)
        (h : History) (e0 e1 e2 : list Call) (st1 : EnumState)
        (a : ResolvedAddress) (addr_str : string) (c : StatusCode) (m : string) :
  GRPC_HAVE_IFADDRS P = true ->
  AddAllLocalAddresses_setup P rp h = (Done (inr (rp', pre ++ ifa_it :: post)), e0) ->
  AddAllLocalAddresses_loop P options rp' pre (enum_start ls) (h ++ e0) = (Done st1, e1) ->
  ok (op_status st1) = true ->
  candidate_address P options rp' ifa_it = Some a ->
  ResolvedAddressToString P a = Value addr_str ->
  has_value (Find (listener_sockets st1) a) = false ->
  CreateAndPrepareListenerSocket P options a ((h ++ e0) ++ e1) = (Done (Failure c m), e2) ->
  exists added code msg,
    listener_sockets st1 = ls ++ added
    /\ fst (ListenerContainerAddAllLocalAddresses P ls options rp h)
       = Done (Failure code msg, ls ++ added).
Proof.
  intros Hifa Hsetup Hpre Hok1 Hcand Hstr Hfind Hbind.
  destruct (AddAllLocalAddresses_loop_extends P options rp' pre (enum_start ls) st1
              (h ++ e0) e1 Hpre eq_refl) as (added & Hadd).
  cbn [enum_start listener_sockets] in Hadd.
  exists added. do 2 eexists. split; [ exact Hadd | ].
  rewrite (AddAllLocalAddresses_first_failure P ls options rp rp' pre post ifa_it h e0 e1 e2
             st1 a addr_str c m Hifa Hsetup Hpre Hok1 Hcand Hstr Hfind Hbind).
  cbn [fst]. rewrite Hadd. reflexivity.
Qed.

(** Interfaces that are all skipped leave the state untouched and make no
    call. *)
Lemma AddAllLocalAddresses_loop_skipped
      (P : Platform) (options : PosixTcpOptions) (rp : Z) (ifs : list ifaddrs)
      (st : EnumState) (h : History) :
  forallb (skipped P options rp (listener_sockets st)) ifs = true ->
  AddAllLocalAddresses_loop P options rp ifs st h = (Done st, []).
Proof.
  induction ifs as [ | ifa_it ifs IH ]; intros Hall; [ reflexivity | ].
  cbn [forallb] in Hall. apply andb_true_iff in Hall. destruct Hall as [Hskip Hall].
  cbn [AddAllLocalAddresses_loop]. unfold bind.
  rewrite AddAllLocalAddresses_body_cases.
  unfold skipped in Hskip.
  destruct (candidate_address P options rp ifa_it) as [a | ].
  - apply andb_true_iff in Hskip. destruct Hskip as [Hstr Hfind].
    destruct (ResolvedAddressToString P a) as [addr_str | c m]; [ | discriminate Hstr ].
    rewrite Hfind. rewrite app_nil_r, (IH Hall). reflexivity.
  - rewrite app_nil_r, (IH Hall). reflexivity.
Qed.

(** C8. When the interface list is walked to its end with every entry
    skipped (by family, IPv4 availability, link-local or duplicate
    filtering), the enumerator returns the "No local addresses" failure and
    leaves the container as it was. *)
Theorem AddAllLocalAddresses_no_local_addresses
        (P : Platform) (ls : ListenerSocketsContainer) (options : PosixTcpOptions)
        (rp rp' : Z) (ifs : list ifaddrs) (h : History) (e0 : list Call) :
  GRPC_HAVE_IFADDRS P = true ->
  AddAllLocalAddresses_setup P rp h = (Done (inr (rp', ifs)), e0) ->
  forallb (skipped P options rp' ls) ifs = true ->
  ListenerContainerAddAllLocalAddresses P ls options rp h
  = (Done (Failure kFailedPrecondition "No local addresses", ls),
     e0 ++ [call_freeifaddrs]).
Proof.
  intros Hifa Hsetup Hall.
  rewrite (ListenerContainerAddAllLocalAddresses_run P ls options rp rp' ifs h e0
             Hifa Hsetup).
  rewrite (AddAllLocalAddresses_loop_skipped P options rp' ifs (enum_start ls) (h ++ e0)
             Hall).
  reflexivity.
Qed.

Lemma AddAllLocalAddresses_aborts_on_first_failure_witness :
  let P := Sim.busy_lan in
  let m := "Error in bind for address '10.0.0.2:8080': Address already in use" in
  let result := ListenerContainerAddAllLocalAddresses P [] Sim.default_options 8080 [] in
  GRPC_HAVE_IFADDRS P = true
  /\ (exists ls',
        fst result
        = Done (Failure kFailedPrecondition
                        (StrCat ["Failed to add listener: "; "10.0.0.2:8080";
                                 " due to error: "; m]), ls'))
  /\ snd result
     = [call_getifaddrs] ++ (snd Sim.busy_lan_walk ++ snd Sim.busy_lan_attempt)
       ++ [call_freeifaddrs].
Proof.
  intros P m result. split; [ reflexivity | ].
  apply (AddAllLocalAddresses_aborts_on_first_failure
           P [] Sim.default_options 8080 8080
           (firstn 2 Sim.lan) (skipn 3 Sim.lan) (nth 2 Sim.lan (Sim.iface "" []))
           [] [call_getifaddrs] (snd Sim.busy_lan_walk) (snd Sim.busy_lan_attempt)
           Sim.busy_lan_state (Sim.bytes (Sim.sockaddr_in 10 0 0 2 8080))
           "10.0.0.2:8080" kFailedPrecondition m).
  all: vm_compute; reflexivity.
Defined.

Lemma AddAllLocalAddresses_keeps_earlier_sockets_witness :
  let P := Sim.busy_lan in
  GRPC_HAVE_IFADDRS P = true
  /\ exists added code msg,
      listener_sockets Sim.busy_lan_state = [] ++ added
      /\ fst (ListenerContainerAddAllLocalAddresses P [] Sim.default_options 8080 [])
         = Done (Failure code msg, [] ++ added).
Proof.
  intros P. split; [ reflexivity | ].
  apply (AddAllLocalAddresses_keeps_earlier_sockets
           P [] Sim.default_options 8080 8080
           (firstn 2 Sim.lan) (skipn 3 Sim.lan) (nth 2 Sim.lan (Sim.iface "" []))
           [] [call_getifaddrs] (snd Sim.busy_lan_walk) (snd Sim.busy_lan_attempt)
           Sim.busy_lan_state (Sim.bytes (Sim.sockaddr_in 10 0 0 2 8080))
           "10.0.0.2:8080" kFailedPrecondition
           "Error in bind for address '10.0.0.2:8080': Address already in use").
  all: vm_compute; reflexivity.
Defined.

(** On that host the failure on "eth1" leaves the sockets of "lo" and "eth0"
    in the container, their descriptors 3 and 4 open; the descriptor 5 of
    the failed attempt is closed; "eth2" is never looked at. *)
Example AddAllLocalAddresses_failure_on_eth1 :
  let result := ListenerContainerAddAllLocalAddresses Sim.busy_lan [] Sim.default_options
                                                      8080 [] in
  match fst result with
  | Done (Failure _ msg, ls') =>
      msg = ("Failed to add listener: 10.0.0.2:8080 due to error: "
             ++ "Error in bind for address '10.0.0.2:8080': Address already in use")%string
      /\ map (fun s => (Fd (sock s), port s)) ls' = [(3, 8080); (4, 8080)]
  | _ => False
  end
  /\ map (fun fd => closes fd (snd result)) [3; 4; 5] = [0%nat; 0%nat; 1%nat]
  /\ List.length (filter Sim.is_create (snd result)) = 3%nat.
Proof. vm_compute. repeat split. Qed.

Lemma AddAllLocalAddresses_no_local_addresses_witness :
  let P := Sim.platform (Sim.linux Sim.unusable) in
  GRPC_HAVE_IFADDRS P = true
  /\ forallb (skipped P Sim.no_link_local 8080 []) Sim.unusable = true
  /\ ListenerContainerAddAllLocalAddresses P [] Sim.no_link_local 8080 []
     = (Done (Failure kFailedPrecondition "No local addresses", []),
        [call_getifaddrs] ++ [call_freeifaddrs]).
Proof.
  intros P. split; [ reflexivity | split; [ vm_compute; reflexivity | ] ].
  apply (AddAllLocalAddresses_no_local_addresses P [] Sim.no_link_local 8080 8080
           Sim.unusable [] [call_getifaddrs]).
  all: vm_compute; reflexivity.
Defined.

Lemma NoDup_snoc {A} (l : list A) (x : A) : NoDup l -> ~ In x l -> NoDup (l ++ [x]).
Proof.
  induction l as [ | y l IH ]; intros Hnd Hx; cbn [app].
  - constructor; [ intros [] | constructor ].
  - inversion Hnd as [ | ? ? Hy Hnd' ]; subst. constructor.
    + intros Hin. apply in_app_or in Hin. destruct Hin as [Hin | [-> | []]].
      * exact (Hy Hin).
      * apply Hx. left. reflexivity.
    + apply IH; [ exact Hnd' | intros Hin; apply Hx; right; exact Hin ].
Qed.

(** The loop keeps the addresses of the container distinct, as long as
    every socket is stored under the address that was looked up. *)
Lemma AddAllLocalAddresses_loop_distinct
      (P : Platform) (options : PosixTcpOptions) (rp : Z) (ifs : list ifaddrs) :
  forall (st st' : EnumState) (h : History) (cs : list Call),
    AddAllLocalAddresses_loop P options rp ifs st h = (Done st', cs) ->
    (forall ifa_it a, In ifa_it ifs -> candidate_address P options rp ifa_it = Some a ->
                      ResolvedAddressIsV4Mapped P a = None) ->
    distinct_addresses (listener_sockets st) ->
    distinct_addresses (listener_sockets st').
Proof.
  induction ifs as [ | ifa_it ifs IH ]; intros st st' h cs Hrun Hplain Hnd.
  - cbn [AddAllLocalAddresses_loop] in Hrun. unfold ret in Hrun. injection Hrun as <- _.
    exact Hnd.
  - cbn [AddAllLocalAddresses_loop] in Hrun. unfold bind in Hrun.
    rewrite AddAllLocalAddresses_body_cases in Hrun.
    assert (Hnext : forall st1 h1 o e,
               AddAllLocalAddresses_loop P options rp ifs st1 h1 = (o, e) ->
               distinct_addresses (listener_sockets st1) ->
               forall e', (o, e') = (Done st', cs) ->
                          distinct_addresses (listener_sockets st')).
    { intros st1 h1 o e Hloop Hnd1 e' Heq. injection Heq as -> _.
      apply (IH st1 st' h1 e Hloop); [ | exact Hnd1 ].
      intros i a Hin. apply Hplain. right. exact Hin. }
    destruct (candidate_address P options rp ifa_it) as [a | ] eqn:Hcand.
    + destruct (ResolvedAddressToString P a) as [addr_str | c m]; [ | discriminate Hrun ].
      destruct (has_value (Find (listener_sockets st) a)) eqn:Hfind.
      * destruct (AddAllLocalAddresses_loop P options rp ifs st (h ++ [])) as [o e] eqn:Hloop.
        cbv beta iota in Hrun. exact (Hnext _ _ _ _ Hloop Hnd _ Hrun).
      * destruct (CreateAndPrepareListenerSocket P options a h) as [[[s | c m] | ] cs0]
          eqn:Hbind; [ | | discriminate Hrun ].
        -- apply CreateAndPrepare_value in Hbind. destruct Hbind as (_ & Haddr & _).
           assert (Hsame : addr s = a).
           { rewrite Haddr. unfold stored_address.
             rewrite (Hplain ifa_it a (or_introl eq_refl) Hcand).
             destruct (DSMode_eqb (dsmode s) DSMODE_IPV4); reflexivity. }
           match type of Hrun with
           | context [AddAllLocalAddresses_loop P options rp ifs ?st1 ?h1] =>
               destruct (AddAllLocalAddresses_loop P options rp ifs st1 h1)
                 as [o e] eqn:Hloop;
               cbv beta iota in Hrun;
               apply (Hnext _ _ _ _ Hloop) with (2 := Hrun)
           end.
           cbn [listener_sockets]. unfold distinct_addresses.
           rewrite map_app. cbn [map]. rewrite Hsame.
           apply NoDup_snoc; [ exact Hnd | ].
           intros Hin. apply Find_has_value in Hin. congruence.
        -- unfold ret in Hrun. injection Hrun as <- _. exact Hnd.
    + destruct (AddAllLocalAddresses_loop P options rp ifs st (h ++ [])) as [o e] eqn:Hloop.
      cbv beta iota in Hrun. exact (Hnext _ _ _ _ Hloop Hnd _ Hrun).
Qed.

(** The list the loop walks is one [getifaddrs] returned. *)
Lemma AddAllLocalAddresses_setup_list
      (P : Platform) (rp rp' : Z) (ifs : list ifaddrs) (h : History) (e0 : list Call) :
  AddAllLocalAddresses_setup P rp h = (Done (inr (rp', ifs)), e0) ->
  exists h', ifs = snd (sys_getifaddrs P h').
Proof.
  unfold AddAllLocalAddresses_setup. unfold bind at 1.
  destruct ((if rp =? 0 then GetUnusedPort P else ret (Value rp)) h)
    as [[[p | c m] | ] e]; [ | intros Hx; discriminate Hx | intros Hx; discriminate Hx ].
  unfold bind, getifaddrs, perform, strerror_errno, observe, ret.
  destruct (sys_getifaddrs P (h ++ e)) as [rc ifa] eqn:Hg.
  destruct (negb (rc =? 0) || match ifa with [] => true | _ :: _ => false end);
    intros Hx; [ discriminate Hx | ].
  injection Hx as _ <- _. exists (h ++ e). rewrite Hg. reflexivity.
Qed.

(** The enumerator keeps the addresses of the container distinct, as long
    as no interface address is IPv4-mapped. *)
Lemma ListenerContainerAddAllLocalAddresses_distinct
      (P : Platform) (ls : ListenerSocketsContainer) (options : PosixTcpOptions)
      (rp : Z) (h : History) :
  (forall h' ifa_it p a,
      In ifa_it (snd (sys_getifaddrs P h')) ->
      candidate_address P options p ifa_it = Some a ->
      ResolvedAddressIsV4Mapped P a = None) ->
  distinct_addresses ls ->
  match fst (ListenerContainerAddAllLocalAddresses P ls options rp h) with
  | Done (_, ls') => distinct_addresses ls'
  | Aborted => True
  end.
Proof.
  intros Hplain Hnd.
  destruct (GRPC_HAVE_IFADDRS P) eqn:Hifa;
    [ | unfold ListenerContainerAddAllLocalAddresses; rewrite Hifa; exact I ].
  destruct (AddAllLocalAddresses_setup P rp h) as [[[early | [rp' ifs]] | ] e0] eqn:Hsetup.
  - unfold ListenerContainerAddAllLocalAddresses. rewrite Hifa. cbn [negb].
    unfold bind at 1. rewrite Hsetup. exact Hnd.
  - rewrite (ListenerContainerAddAllLocalAddresses_run P ls options rp rp' ifs h e0
               Hifa Hsetup).
    destruct (AddAllLocalAddresses_setup_list P rp rp' ifs h e0 Hsetup) as (h' & Hl).
    destruct (AddAllLocalAddresses_loop P options rp' ifs (enum_start ls) (h ++ e0))
      as [[st | ] e1] eqn:Hloop; cbn [fst]; [ | exact I ].
    assert (Hst : distinct_addresses (listener_sockets st)).
    { apply (AddAllLocalAddresses_loop_distinct P options rp' ifs _ st _ _ Hloop);
        [ | exact Hnd ].
      intros i a Hin. apply (Hplain h'). rewrite <- Hl. exact Hin. }
    unfold enum_result.
    destruct (negb (ok (op_status st))); [ exact Hst | ].
    destruct (no_local_addresses st); exact Hst.
  - unfold ListenerContainerAddAllLocalAddresses. rewrite Hifa. cbn [negb].
    unfold bind at 1. rewrite Hsetup. exact I.
Qed.

(** C7, as the code has it.  An interface whose address (with the shared
    port set) is byte-identical to the address of an entry of the container
    is passed over: no call is made for it, nothing is appended and the loop
    goes on.  Hence one run of the enumerator keeps the addresses of a
    container distinct, provided no interface address is IPv4-mapped (such
    an address can be stored in its IPv4 form, which was not looked up). *)
Theorem AddAllLocalAddresses_skips_duplicates :
  (forall (P : Platform) (options : PosixTcpOptions) (rp : Z) (ifa_it : ifaddrs)
          (st : EnumState) (h : History) (a : ResolvedAddress),
      candidate_address P options rp ifa_it = Some a ->
      In a (map addr (listener_sockets st)) ->
      has_value (ResolvedAddressToString P a) = true ->
      AddAllLocalAddresses_body P options rp ifa_it st h = (Done (st, false), []))
  /\ (forall (P : Platform) (ls : ListenerSocketsContainer) (options : PosixTcpOptions)
             (rp : Z) (h : History),
        (forall h' ifa_it p a,
            In ifa_it (snd (sys_getifaddrs P h')) ->
            candidate_address P options p ifa_it = Some a ->
            ResolvedAddressIsV4Mapped P a = None) ->
        distinct_addresses ls ->
        match fst (ListenerContainerAddAllLocalAddresses P ls options rp h) with
        | Done (_, ls') => distinct_addresses ls'
        | Aborted => True
        end).
Proof.
  split.
  - intros P options rp ifa_it st h a Hcand Hin Hstr.
    rewrite AddAllLocalAddresses_body_cases, Hcand.
    destruct (ResolvedAddressToString P a) as [addr_str | c m]; [ | discriminate Hstr ].
    apply Find_has_value in Hin. rewrite Hin. reflexivity.
  - intros P ls options rp h Hplain Hnd.
    apply ListenerContainerAddAllLocalAddresses_distinct; assumption.
Qed.

(** C7, as the spec has it, fails: byte-identical addresses do get into a
    container.  The wildcard fallback appends without looking anything up,
    so binding the same wildcard port twice (which an SO_REUSEPORT kernel
    allows) leaves "[::]:8080" twice; and the enumerator stores an
    IPv4-mapped interface address in its IPv4 form after having looked up
    the mapped form, so an address reported in both forms is stored twice. *)
Lemma distinct_addresses_not_invariant :
  (let P := Sim.platform (Sim.wildcard_host DSMODE_DUALSTACK true) in
   let first := ListenerContainerAddWildcardAddresses P [] Sim.default_options 8080 [] in
   let second := ListenerContainerAddWildcardAddresses P (container_after first)
                   Sim.default_options 8080 (snd first) in
   map addr (container_after second) = [Sim.MakeWild6 8080; Sim.MakeWild6 8080]
   /\ ~ distinct_addresses (container_after second))
  /\ (let P := Sim.platform (Sim.with_interfaces DSMODE_IPV6 Sim.mapped_alias) in
      let result := ListenerContainerAddAllLocalAddresses P [] Sim.default_options 8080 [] in
      map addr (container_after result)
      = [Sim.bytes (Sim.sockaddr_in 10 0 0 1 8080); Sim.bytes (Sim.sockaddr_in 10 0 0 1 8080)]
      /\ ~ distinct_addresses (container_after result)).
Proof.
  assert (Htwice : forall (ls : ListenerSocketsContainer) (a : ResolvedAddress),
             map addr ls = [a; a] -> ~ distinct_addresses ls).
  { intros ls a Hmap Hnd. unfold distinct_addresses in Hnd. rewrite Hmap in Hnd.
    inversion Hnd as [ | ? ? Hnotin _ ]. apply Hnotin. left. reflexivity. }
  split; cbv zeta.
  - assert (E : map addr
                  (container_after
                     (ListenerContainerAddWildcardAddresses
                        (Sim.platform (Sim.wildcard_host DSMODE_DUALSTACK true))
                        (container_after
                           (ListenerContainerAddWildcardAddresses
                              (Sim.platform (Sim.wildcard_host DSMODE_DUALSTACK true))
                              [] Sim.default_options 8080 []))
                        Sim.default_options 8080
                        (snd (ListenerContainerAddWildcardAddresses
                                (Sim.platform (Sim.wildcard_host DSMODE_DUALSTACK true))
                                [] Sim.default_options 8080 []))))
                = [Sim.MakeWild6 8080; Sim.MakeWild6 8080])
      by (vm_compute; reflexivity).
    split; [ exact E | exact (Htwice _ _ E) ].
  - assert (E : map addr
                  (container_after
                     (ListenerContainerAddAllLocalAddresses
                        (Sim.platform (Sim.with_interfaces DSMODE_IPV6 Sim.mapped_alias))
                        [] Sim.default_options 8080 []))
                = [Sim.bytes (Sim.sockaddr_in 10 0 0 1 8080);
                   Sim.bytes (Sim.sockaddr_in 10 0 0 1 8080)])
      by (vm_compute; reflexivity).
    split; [ exact E | exact (Htwice _ _ E) ].
Qed.

Lemma Sim_bonded_not_mapped :
  let P := Sim.platform (Sim.with_interfaces DSMODE_DUALSTACK Sim.bonded) in
  forall h' ifa_it p a,
    In ifa_it (snd (sys_getifaddrs P h')) ->
    candidate_address P Sim.default_options p ifa_it = Some a ->
    ResolvedAddressIsV4Mapped P a = None.
Proof.
  intros P h' ifa_it p a Hin Hcand. subst P.
  cbn [Sim.platform sys_getifaddrs snd Sim.with_interfaces Sim.interfaces Sim.bonded In]
    in Hin.
  unfold candidate_address in Hcand.
  cbn [Sim.platform ResolvedAddressSetPort host_big_endian ResolvedAddressIsV4Mapped
         exclude_link_local_addresses Sim.default_options andb] in *.
  destruct Hin as [<- | [<- | [<- | []]]]; vm_compute in Hcand; injection Hcand as <-;
    reflexivity.
Qed.

(** On a host that reports 10.0.0.1 on "eth0" and again on "bond0", the
    second report is passed over and the container ends up with distinct
    addresses. *)
Lemma AddAllLocalAddresses_skips_duplicates_witness :
  let P := Sim.platform (Sim.with_interfaces DSMODE_DUALSTACK Sim.bonded) in
  let bond0 := nth 2 Sim.bonded (Sim.iface "" []) in
  let a := Sim.bytes (Sim.sockaddr_in 10 0 0 1 8080) in
  let st := {| listener_sockets := [Sim.created 3 DSMODE_IPV4 a]; op_status := OkStatus;
               no_local_addresses := false; assigned_port := 8080 |} in
  (candidate_address P Sim.default_options 8080 bond0 = Some a
   /\ In a (map addr (listener_sockets st))
   /\ AddAllLocalAddresses_body P Sim.default_options 8080 bond0 st [] = (Done (st, false), []))
  /\ (distinct_addresses []
      /\ match fst (ListenerContainerAddAllLocalAddresses P [] Sim.default_options 8080 [])
         with
         | Done (_, ls') => distinct_addresses ls'
         | Aborted => True
         end).
Proof.
  intros P bond0 a st.
  destruct AddAllLocalAddresses_skips_duplicates as [Hskip Hkeep].
  split.
  - split; [ reflexivity | split; [ left; reflexivity | ] ].
    apply Hskip with (a := a); [ reflexivity | left; reflexivity | reflexivity ].
  - split; [ constructor | ].
    apply Hkeep; [ apply Sim_bonded_not_mapped | constructor ].
Defined.

Example AddAllLocalAddresses_bonded :
  let P := Sim.platform (Sim.with_interfaces DSMODE_DUALSTACK Sim.bonded) in
  let result := ListenerContainerAddAllLocalAddresses P [] Sim.default_options 8080 [] in
  fst (match fst result with
       | Done r => r
       | Aborted => (Failure kUnknown "", [])
       end) = Value 8080
  /\ map addr (container_after result)
     = [Sim.bytes (Sim.sockaddr_in 127 0 0 1 8080); Sim.bytes (Sim.sockaddr_in 10 0 0 1 8080)].
Proof. vm_compute. split; reflexivity. Qed.

(** * Further properties of the translation unit *)

(** ** Socket preparer: the calls it makes *)

Lemma memcmp_eq_refl (p : list byte) : memcmp_eq p p = true.
Proof. apply memcmp_eq_iff. reflexivity. Qed.

(** The calls of [PrepareSocket], checked one by one. *)
Lemma PrepareSocket_calls_own
        (P : Platform) (options : PosixTcpOptions) (socket : ListenerSocket) (h : History) :
  forallb (own_call (Fd (sock socket)) (addr socket) (GetMaxAcceptQueueSize P))
          (snd (PrepareSocket P options socket h)) = true.
Proof.
  io_unfold. cbn [set_port set_zero_copy_enabled addr sock].
  destruct (0 <=? Fd (sock socket)) eqn:Hfd; [ | reflexivity ].
  cbv beta iota; cbn [ok andb negb FailedPreconditionError].
  repeat io_step.
  all: cbn [snd app forallb own_call].
  all: rewrite ?Z.eqb_refl, ?memcmp_eq_refl; reflexivity.
Qed.

Lemma own_calls_no_request (fd : Z) (a : ResolvedAddress) (n : Z) (l : list Call) :
  forallb (own_call fd a n) l = true ->
  filter is_socket_request l = [] /\ filter is_interface_list_call l = [].
Proof.
  induction l as [ | c l IH ]; intros H; [ split; reflexivity | ].
  cbn [forallb] in H. apply andb_true_iff in H. destruct H as [Hc Hl].
  destruct (IH Hl) as [H1 H2].
  destruct c; cbn [own_call] in Hc; try discriminate Hc;
    cbn [filter is_socket_request is_interface_list_call]; split; assumption.
Qed.


(** X2. [bind], [listen] and [getsockname] are called at most once each and in
    this order, after every option; [listen] is called only right after a
    [bind] that succeeded. *)
Theorem PrepareSocket_bring_up_order
        (P : Platform) (options : PosixTcpOptions) (socket : ListenerSocket) (h : History) :
  let fd := Fd (sock socket) in
  let cs := snd (PrepareSocket P options socket h) in
  (exists k, filter is_bring_up cs
             = firstn k [call_bind fd (addr socket);
                         call_listen fd (GetMaxAcceptQueueSize P);
                         call_getsockname fd])
  /\ (forall pre post c, cs = pre ++ c :: post -> is_listen c = true ->
        exists pre',
          pre = pre' ++ [call_bind fd (addr socket)]
          /\ filter is_bring_up pre' = []
          /\ 0 <= sys_bind P (h ++ pre') fd (addr socket)).
Proof.
  io_unfold. cbn [set_port set_zero_copy_enabled addr sock].
  destruct (0 <=? Fd (sock socket)) eqn:Hfd;
    [ | split; [ exists 0%nat; reflexivity
               | intros pre post c Hx; destruct pre; discriminate Hx ] ].
  cbv beta iota; cbn [ok andb negb FailedPreconditionError].
  repeat io_step.
  all: cbn [snd app addr sock set_port set_zero_copy_enabled] in *.
  all: split;
    [ cbn [filter is_bring_up];
      first [ exists 0%nat; reflexivity | exists 1%nat; reflexivity
            | exists 2%nat; reflexivity | exists 3%nat; reflexivity ]
    | ].
  all: intros pre post c Hcs Hc.
  all: apply split_at_unique with (p := is_listen) in Hcs;
    [ | exact Hc | cbn [filter is_listen List.length]; lia ].
  all: cbn [split_at is_listen] in Hcs; try discriminate Hcs.
  all: injection Hcs as <- <-.
  all: hist_norm.
  all: match goal with
       | |- ex (fun pre' => ?l = @?rhs pre' /\ @?rest pre') => exists (removelast l)
       end.
  all: cbn [removelast filter is_bring_up].
  all: repeat match goal with
         | H : (_ <? 0) = false |- _ => apply Z.ltb_ge in H
         end.
  all: repeat split; assumption.
Qed.

(** X3. Zero-copy is best effort: whatever [SetSocketZeroCopy] answers,
    [PrepareSocket] goes on with [SetSocketNonBlocking], and the flag
    [zero_copy_enabled] of the socket records whether the answer was OK. *)
Theorem PrepareSocket_zero_copy_best_effort
        (P : Platform) (options : PosixTcpOptions) (socket : ListenerSocket) (h : History)
        (st : Status) (s' : ListenerSocket) (pre post : list Call) :
  let fd := Fd (sock socket) in
  PrepareSocket P options socket h
  = (Done (st, s'), pre ++ call_sockopt fd SetSocketZeroCopy :: post) ->
  zero_copy_enabled s' = ok (sys_sockopt P (h ++ pre) fd SetSocketZeroCopy)
  /\ exists post', post = call_sockopt fd (SetSocketNonBlocking 1) :: post'.
Proof.
  intros fd. subst fd. revert st s' pre post.
  io_unfold. cbn [set_port set_zero_copy_enabled addr sock].
  destruct (0 <=? Fd (sock socket)) eqn:Hfd;
    [ | intros st s' pre post Hx; discriminate Hx ].
  cbv beta iota; cbn [ok andb negb FailedPreconditionError].
  repeat io_step.
  all: intros st s' pre post Hrun; injection Hrun as _ <- Hcs.
  all: cbn [app addr sock set_port set_zero_copy_enabled zero_copy_enabled] in *.
  all: apply split_at_unique with (p := is_zerocopy) in Hcs;
    [ | reflexivity | cbn [filter is_zerocopy List.length]; lia ].
  all: cbn [split_at is_zerocopy] in Hcs; try discriminate Hcs.
  all: injection Hcs as <- <-.
  all: hist_norm.
  all: split; [ | eexists; reflexivity ].
  all: match goal with
       | H : negb (ok ?x) = _ |- _ = ok ?x => destruct (ok x); cbn [negb] in H; congruence
       end.
Qed.

(** X4. For a unix-domain or vsock address no IP option is applied: neither
    reuse-port, low latency, reuse-address, DSCP nor the user timeout. *)
Theorem PrepareSocket_local_transport_no_ip_options
        (P : Platform) (options : PosixTcpOptions) (socket : ListenerSocket) (h : History) :
  is_local_transport P (addr socket) = true ->
  filter is_ip_option (snd (PrepareSocket P options socket h)) = [].
Proof.
  intros Hlocal.
  assert (Hip : negb (sa_family (host_big_endian P) (addr socket) =? AF_UNIX)
                && negb (ResolvedAddressIsVSock P (addr socket)) = false).
  { unfold is_local_transport in Hlocal.
    destruct (sa_family (host_big_endian P) (addr socket) =? AF_UNIX); [ reflexivity | ].
    cbn [orb] in Hlocal. rewrite Hlocal. reflexivity. }
  io_unfold. cbn [set_port set_zero_copy_enabled addr sock].
  rewrite Hip, !andb_false_r.
  destruct (0 <=? Fd (sock socket)) eqn:Hfd; [ | reflexivity ].
  cbv beta iota; cbn [ok andb negb FailedPreconditionError].
  repeat io_step.
  all: reflexivity.
Qed.

Lemma PrepareSocket_zero_copy_best_effort_witness :
  let P := Sim.platform (Sim.refusing Sim.is_SetSocketZeroCopy []) in
  let socket := Sim.created 3 DSMODE_IPV4 Sim.localhost_8080 in
  let pre := [call_sockopt 3 (SetSocketReusePort 1)] in
  ok (sys_sockopt P pre 3 SetSocketZeroCopy) = false
  /\ fst Sim.zero_copy_refused = Done (OkStatus, set_port 8080 socket)
  /\ zero_copy_enabled (set_port 8080 socket)
     = ok (sys_sockopt P ([] ++ pre) 3 SetSocketZeroCopy)
  /\ exists post',
      skipn 2 (snd Sim.zero_copy_refused) = call_sockopt 3 (SetSocketNonBlocking 1) :: post'.
Proof.
  intros P socket pre.
  split; [ reflexivity | split; [ reflexivity | ] ].
  apply (PrepareSocket_zero_copy_best_effort
           P Sim.default_options socket [] OkStatus (set_port 8080 socket) pre
           (skipn 2 (snd Sim.zero_copy_refused))).
  vm_compute. reflexivity.
Defined.

(** X5. Which options are fatal. When an option that [PrepareSocket] applied
    answered with an error, that error is the status returned and the only
    call still made closes the descriptor; except for zero-copy and the TCP
    user timeout, whose answers are not checked: after them the next option is
    applied as if nothing had happened. *)
Theorem PrepareSocket_fatal_options
        (P : Platform) (options : PosixTcpOptions) (socket : ListenerSocket) (h : History)
        (st : Status) (s' : ListenerSocket) (pre post : list Call) (o : SockOpt) :
  let fd := Fd (sock socket) in
  PrepareSocket P options socket h = (Done (st, s'), pre ++ call_sockopt fd o :: post) ->
  ok (sys_sockopt P (h ++ pre) fd o) = false ->
  match o with
  | SetSocketZeroCopy =>
      exists post', post = call_sockopt fd (SetSocketNonBlocking 1) :: post'
  | TrySetSocketTcpUserTimeout _ _ =>
      exists post', post = call_sockopt fd SetSocketNoSigpipeIfPossible :: post'
  | _ => st = sys_sockopt P (h ++ pre) fd o /\ post = [call_close fd]
  end.
Proof.
  intros fd. subst fd. revert st s' pre post.
  io_unfold. cbn [set_port set_zero_copy_enabled addr sock].
  destruct (0 <=? Fd (sock socket)) eqn:Hfd;
    [ | intros st s' pre post Hx; discriminate Hx ].
  cbv beta iota; cbn [ok andb negb FailedPreconditionError].
  repeat io_step.
  all: intros st s' pre post Hrun Hfail; injection Hrun as <- _ Hcs.
  all: cbn [app addr sock set_port set_zero_copy_enabled zero_copy_enabled] in *.
  all: pose proof Hcs as Hopt.
  all: apply split_at_unique with (p := sets_option o) in Hcs;
    [ | destruct o; reflexivity
      | destruct o; cbn [filter sets_option same_option List.length]; lia ].
  all: destruct o; cbn [split_at sets_option same_option] in Hcs; try discriminate Hcs.
  all: injection Hcs as <- <-.
  all: cbn [app] in Hopt; try (injection Hopt; intros; subst).
  all: hist_norm.
  all: try congruence.
  all: try (eexists; reflexivity).
  all: split; reflexivity.
Qed.

Lemma PrepareSocket_fatal_options_witness :
  let P := Sim.platform (Sim.refusing Sim.is_SetSocketCloexec []) in
  let socket := Sim.created 3 DSMODE_IPV4 Sim.localhost_8080 in
  let refusal := ErrorStatus kInternal "setsockopt: Bad file descriptor" in
  let pre := map (call_sockopt 3)
                 [SetSocketReusePort 1; SetSocketZeroCopy; SetSocketNonBlocking 1] in
  refusal = sys_sockopt P ([] ++ pre) 3 (SetSocketCloexec 1)
  /\ [call_close 3] = [call_close 3].
Proof.
  intros P socket refusal pre.
  apply (PrepareSocket_fatal_options
           P Sim.default_options socket [] refusal (set_zero_copy_enabled true socket)
           pre [call_close 3] (SetSocketCloexec 1)).
  - vm_compute. reflexivity.
  - vm_compute. reflexivity.
Defined.

Lemma PrepareSocket_local_transport_no_ip_options_witness :
  let P := Sim.platform (Sim.linux []) in
  let socket := Sim.created 3 DSMODE_NONE Sim.unix_socket in
  is_local_transport P (addr socket) = true
  /\ filter is_ip_option (snd (PrepareSocket P Sim.default_options socket [])) = [].
Proof.
  intros P socket. split; [ reflexivity | ].
  apply (PrepareSocket_local_transport_no_ip_options P Sim.default_options socket []).
  reflexivity.
Defined.

(** X6. [PrepareSocket] hands the socket back with its descriptor, address and
    mode untouched. The port it stores is 0 on every error, and on success the
    port [getsockname] reported, read after every other call. *)
Theorem PrepareSocket_result_fields
        (P : Platform) (options : PosixTcpOptions) (socket : ListenerSocket) (h : History) :
  match PrepareSocket P options socket h with
  | (Done (st, s'), cs) =>
      sock s' = sock socket /\ addr s' = addr socket /\ dsmode s' = dsmode socket
      /\ if ok st
         then exists pre,
             cs = pre ++ [call_getsockname (Fd (sock socket))]
             /\ port s' = ResolvedAddressGetPort P
                            (snd (sys_getsockname P (h ++ pre) (Fd (sock socket))))
         else port s' = 0
  | (Aborted, _) => True
  end.
Proof.
  pose proof (PrepareSocket_frame P options socket h) as HF.
  pose proof (PrepareSocket_ok_port P options socket h) as HP.
  destruct (PrepareSocket P options socket h) as [[[st s'] | ] cs]; [ | exact I ].
  destruct HF as (_ & Hs & Ha & Hd & Hc).
  do 3 (split; [ assumption | ]).
  destruct (ok st).
  - destruct (HP eq_refl) as (pre & Hrun). cbv zeta in Hrun.
    destruct Hrun as (Hcs & _ & _ & _ & Hp).
    exists (pre ++ [call_bind (Fd (sock socket)) (addr socket);
                    call_listen (Fd (sock socket)) (GetMaxAcceptQueueSize P)]).
    split.
    + rewrite Hcs, <- app_assoc. reflexivity.
    + rewrite Hp. rewrite <- !app_assoc. reflexivity.
  - destruct Hc as (_ & _ & Hp). exact Hp.
Qed.

(** ** Single-address binder: the calls it makes *)

(** [CreateAndPrepareListenerSocket] asks for one socket, for the address it
    was given, and does not touch the interface list. *)
Lemma CreateAndPrepare_requests
      (P : Platform) (options : PosixTcpOptions) (a : ResolvedAddress) (h : History) :
  filter is_socket_request (snd (CreateAndPrepareListenerSocket P options a h))
  = [call_CreateDualStackSocket a]
  /\ filter is_interface_list_call (snd (CreateAndPrepareListenerSocket P options a h)) = [].
Proof.
  cap_unfold. cbn [sock port zero_copy_enabled addr dsmode Fd].
  destruct (sys_CreateDualStackSocket P h a) as [[fd | c m] ds]; cbv beta iota;
    [ | split; reflexivity ].
  match goal with
  | |- context [PrepareSocket ?P ?o ?s ?h'] =>
      pose proof (PrepareSocket_calls_own P o s h') as Hown;
      destruct (PrepareSocket P o s h') as [[[st s'] | ] cs']
  end; cbn [snd] in Hown; apply own_calls_no_request in Hown; destruct Hown as [H1 H2].
  - assert (E : forall (o : Outcome (StatusOr ListenerSocket)) (e : list Call) (p : Call -> bool),
               e = [] -> filter p cs' = [] ->
               filter p (snd (o, [call_CreateDualStackSocket a] ++ cs' ++ e))
               = filter p [call_CreateDualStackSocket a]).
    { intros o e p -> Hp. cbn [snd]. rewrite !filter_app, Hp. cbn [filter app].
      rewrite ?app_nil_r. reflexivity. }
    destruct (negb (ok st)); cbv beta iota.
    + split; apply E; auto.
    + destruct (0 <? port s'); cbv beta iota; split; apply E; auto.
  - cbn [snd app filter is_socket_request is_interface_list_call].
    rewrite H1, H2. split; reflexivity.
Qed.

(** X7. What becomes of the descriptor [CreateAndPrepareListenerSocket] asked
    for. On success it is open and it is the one the socket carries, together
    with the mode the factory answered with and the address the descriptor was
    bound to. On an error after the creation it has been closed exactly once,
    by the last call. When the creation itself failed, that failure is
    returned and nothing else was called. In every case one socket was asked
    for, for the address given. *)
Theorem CreateAndPrepareListenerSocket_descriptor
        (P : Platform) (options : PosixTcpOptions) (a : ResolvedAddress) (h : History) :
  let run := CreateAndPrepareListenerSocket P options a h in
  filter is_socket_request (snd run) = [call_CreateDualStackSocket a]
  /\ match fst run, sys_CreateDualStackSocket P h a with
     | Done (Value s), (created, ds) =>
         created = Value (Fd (sock s)) /\ dsmode s = ds
         /\ addr s = stored_address P ds a
         /\ closes (Fd (sock s)) (snd run) = 0%nat
         /\ In (call_bind (Fd (sock s)) (addr s)) (snd run)
     | Done (Failure c m), (Value fd, _) =>
         closes fd (snd run) = 1%nat
         /\ last (snd run) call_getifaddrs = call_close fd
     | Done (Failure c m), (Failure c' m', _) =>
         c = c' /\ m = m' /\ snd run = [call_CreateDualStackSocket a]
     | Aborted, (created, _) =>
         exists fd, created = Value fd /\ closes fd (snd run) = 0%nat
     end.
Proof.
  intros run. subst run.
  split; [ apply CreateAndPrepare_requests | ].
  destruct (CreateAndPrepareListenerSocket P options a h) as [[[s | c m] | ] cs] eqn:Hrun;
    cbn [fst snd].
  - apply CreateAndPrepare_value in Hrun.
    destruct Hrun as (_ & Haddr & fd & pre & Hrun). cbv zeta in Hrun.
    destruct Hrun as (Hc & _ & Hsock & Hcl & Hcs & _).
    rewrite Hc, Hsock. cbn [Fd].
    split; [ reflexivity | split; [ reflexivity | split; [ exact Haddr | ] ] ].
    split; [ exact Hcl | ].
    rewrite Hcs. right. apply in_or_app. right. left. reflexivity.
  - revert Hrun. cap_unfold. cbn [sock port zero_copy_enabled addr dsmode Fd].
    destruct (sys_CreateDualStackSocket P h a) as [[fd | c' m'] ds]; cbv beta iota.
    + destruct (if DSMode_eqb ds DSMODE_IPV4 then ResolvedAddressIsV4Mapped P a else None)
        as [a4 | ]; cbn [set_addr sock port zero_copy_enabled addr dsmode Fd].
      all: prepare_cases st s' cs' HF HP; cbv beta iota; [ | intros Hx; discriminate Hx ].
      all: destruct HF as (_ & _ & _ & _ & Hcl).
      all: destruct (ok st) eqn:Hok; cbn [negb]; cbv beta iota;
        [ destruct (0 <? port s'); cbv beta iota; intros Hx; discriminate Hx | ].
      all: intros Hx; injection Hx as _ <-.
      all: cbn [set_addr sock Fd] in Hcl; destruct Hcl as (Hone & Hlast & _).
      all: rewrite app_nil_r.
      all: change (call_CreateDualStackSocket a :: cs')
             with ([call_CreateDualStackSocket a] ++ cs').
      all: rewrite closes_app, Hone; split; [ reflexivity | ].
      all: destruct cs' as [ | c0 cs' ]; [ discriminate Hone | ].
      all: exact Hlast.
    + intros Hx. injection Hx as <- <- <-. repeat split.
  - pose proof Hrun as Hab. apply CreateAndPrepare_aborted in Hab.
    destruct Hab as (fd & ds & Hc & _). rewrite Hc. exists fd. split; [ reflexivity | ].
    revert Hrun. cap_unfold. cbn [sock port zero_copy_enabled addr dsmode Fd].
    rewrite Hc; cbv beta iota.
    destruct (if DSMode_eqb ds DSMODE_IPV4 then ResolvedAddressIsV4Mapped P a else None)
      as [a4 | ]; cbn [set_addr sock port zero_copy_enabled addr dsmode Fd].
    all: prepare_cases st s' cs' HF HP; cbv beta iota;
      [ | destruct HF as (_ & ->); intros Hx; injection Hx as <-; reflexivity ].
    all: destruct HF as (_ & _ & _ & _ & Hcl); cbn [set_addr sock Fd] in Hcl.
    all: destruct (ok st) eqn:Hok; cbn [negb]; cbv beta iota;
      [ | intros Hx; discriminate Hx ].
    all: destruct (0 <? port s'); cbv beta iota; intros Hx; [ discriminate Hx | ].
    all: injection Hx as <-.
    all: change (call_CreateDualStackSocket a :: cs' ++ [])
           with ([call_CreateDualStackSocket a] ++ cs' ++ []).
    all: rewrite !closes_app, Hcl; reflexivity.
Qed.

(** ** Port picker and accept queue size *)

(** What [GetUnusedPort] does with the scratch socket. *)
Lemma GetUnusedPort_run (P : Platform) (h : History) :
  match GetUnusedPort P h with
  | (Done r, cs) =>
      match sys_CreateDualStackSocket P h (ResolvedAddressMakeWild6 P 0) with
      | (Value fd, ds) =>
          exists mid,
            cs = call_CreateDualStackSocket (ResolvedAddressMakeWild6 P 0)
                 :: call_bind fd (if DSMode_eqb ds DSMODE_IPV4
                                  then ResolvedAddressMakeWild4 P 0
                                  else ResolvedAddressMakeWild6 P 0)
                 :: mid ++ [call_close fd]
            /\ (mid = [] \/ mid = [call_getsockname fd])
      | (Failure c m, _) =>
          r = Failure c m /\ cs = [call_CreateDualStackSocket (ResolvedAddressMakeWild6 P 0)]
      end
      /\ match r with Value p => 0 < p | Failure _ _ => True end
  | (Aborted, _) => False
  end.
Proof.
  unfold GetUnusedPort.
  cbv beta zeta delta [CreateDualStackSocket bind_ getsockname close strerror_errno
                       bind ret perform observe].
  destruct (sys_CreateDualStackSocket P h (ResolvedAddressMakeWild6 P 0)) as [[fd | c m] ds];
    cbv beta iota; [ | split; [ split; reflexivity | exact I ] ].
  repeat io_step; cbn [app as_failure].
  all: split;
    [ first [ exists []; split; [ reflexivity | left; reflexivity ]
            | exists [call_getsockname fd]; split; [ reflexivity | right; reflexivity ] ]
    | try exact I ].
  all: match goal with H : (_ <=? 0) = false |- _ => apply Z.leb_gt in H; exact H end.
Qed.

(** X8. [GetUnusedPort] returns a positive port or an error and never ends the
    process; it closes the scratch socket exactly once, as its last call,
    whenever the socket was created, whether [bind] or [getsockname] failed or
    not; and its only other calls are the socket request for "::" at port 0,
    one [bind] to the wildcard at port 0 and at most one [getsockname]. *)
Theorem GetUnusedPort_positive_and_closed (P : Platform) (h : History) :
  match GetUnusedPort P h with
  | (Done r, cs) =>
      match r with Value p => 0 < p | Failure _ _ => True end
      /\ match fst (sys_CreateDualStackSocket P h (ResolvedAddressMakeWild6 P 0)) with
         | Value fd =>
             last cs call_getifaddrs = call_close fd
             /\ closes fd cs = 1%nat
             /\ List.length (filter is_socket_request cs) = 1%nat
             /\ (List.length (filter is_bring_up cs) <= 2)%nat
             /\ filter is_interface_list_call cs = []
         | Failure c m =>
             r = Failure c m /\ cs = [call_CreateDualStackSocket (ResolvedAddressMakeWild6 P 0)]
         end
  | (Aborted, _) => False
  end.
Proof.
  pose proof (GetUnusedPort_run P h) as H.
  destruct (GetUnusedPort P h) as [[r | ] cs]; [ | exact H ].
  destruct H as [Hcs Hr]. split; [ exact Hr | ].
  destruct (sys_CreateDualStackSocket P h (ResolvedAddressMakeWild6 P 0)) as [[fd | c m] ds];
    cbn [fst]; [ | exact Hcs ].
  destruct Hcs as (mid & -> & [-> | ->]); unfold closes;
    cbn [app last filter is_close is_socket_request is_bring_up is_interface_list_call
           List.length];
    rewrite Z.eqb_refl; cbn [List.length]; repeat split; lia.
Qed.

(** X9. The accept queue size is the number read from the first line of
    /proc/sys/net/core/somaxconn when that line is a positive [int] followed
    by a newline, and [SOMAXCONN] in every other case (no file, no line, a
    value that is not positive or exceeds [INT_MAX], no newline); so it is a
    positive [int] whenever [SOMAXCONN] is. *)
Theorem InitMaxAcceptQueueSize_value (P : Platform) :
  (forall i, proc_somaxconn P = Some (Some (i, true)) -> 0 < i <= INT_MAX P ->
             InitMaxAcceptQueueSize P = i)
  /\ (InitMaxAcceptQueueSize P <> SOMAXCONN P ->
      exists i, proc_somaxconn P = Some (Some (i, true)) /\ 0 < i <= INT_MAX P
                /\ InitMaxAcceptQueueSize P = i)
  /\ (0 < SOMAXCONN P <= INT_MAX P ->
      0 < GetMaxAcceptQueueSize P <= INT_MAX P).
Proof.
  unfold GetMaxAcceptQueueSize, InitMaxAcceptQueueSize.
  split; [ | split ].
  - intros i -> [Hlo Hhi].
    apply Z.ltb_lt in Hlo. apply Z.leb_le in Hhi. rewrite Hlo, Hhi. reflexivity.
  - destruct (proc_somaxconn P) as [[[i nl] | ] | ]; try (intros Hx; contradiction Hx; reflexivity).
    destruct (0 <? i) eqn:Hlo; destruct (i <=? INT_MAX P) eqn:Hhi; destruct nl;
      cbn [andb]; try (intros Hx; contradiction Hx; reflexivity).
    intros _. exists i. apply Z.ltb_lt in Hlo. apply Z.leb_le in Hhi.
    repeat split; assumption.
  - intros Hs.
    destruct (proc_somaxconn P) as [[[i nl] | ] | ]; try exact Hs.
    destruct (0 <? i) eqn:Hlo; destruct (i <=? INT_MAX P) eqn:Hhi; destruct nl;
      cbn [andb]; try exact Hs.
    apply Z.ltb_lt in Hlo. apply Z.leb_le in Hhi. split; assumption.
Qed.

(** ** Multi-interface enumerator: setup, calls and ports *)

Lemma GetUnusedPort_facts (P : Platform) (h : History) :
  match GetUnusedPort P h with
  | (Done r, cs) =>
      match r with Value p => 0 < p | Failure _ _ => True end
      /\ filter is_interface_list_call cs = []
  | (Aborted, _) => False
  end.
Proof.
  pose proof (GetUnusedPort_run P h) as H.
  destruct (GetUnusedPort P h) as [[r | ] cs]; [ | exact H ].
  destruct H as [Hcs Hr]. split; [ exact Hr | ].
  destruct (sys_CreateDualStackSocket P h (ResolvedAddressMakeWild6 P 0)) as [[fd | c m] ds].
  - destruct Hcs as (mid & -> & [-> | ->]); reflexivity.
  - destruct Hcs as [_ ->]. reflexivity.
Qed.

(** The setup of the enumerator: it never ends the process; an early return
    is an error; otherwise the list is not empty and the port is the
    requested one, or a positive one when the request was for port 0. *)
Lemma AddAllLocalAddresses_setup_cases (P : Platform) (rp : Z) (h : History) :
  match AddAllLocalAddresses_setup P rp h with
  | (Done (inl early), cs) =>
      has_value early = false
      /\ (filter is_interface_list_call cs = []
          \/ filter is_interface_list_call cs = [call_getifaddrs])
  | (Done (inr (rp', ifs)), cs) =>
      ifs <> []
      /\ (if rp =? 0 then 0 < rp' else rp' = rp /\ cs = [call_getifaddrs])
      /\ filter is_interface_list_call cs = [call_getifaddrs]
      /\ (exists e, cs = e ++ [call_getifaddrs]
                    /\ sys_getifaddrs P (h ++ e) = (0, ifs))
  | (Aborted, _) => False
  end.
Proof.
  unfold AddAllLocalAddresses_setup.
  cbv beta delta [bind getifaddrs perform strerror_errno observe ret].
  destruct (rp =? 0) eqn:Hrp.
  - pose proof (GetUnusedPort_facts P h) as HG.
    destruct (GetUnusedPort P h) as [[[p | c m] | ] e]; [ | | exact HG ];
      destruct HG as [Hp He]; cbv beta iota.
    + destruct (sys_getifaddrs P (h ++ e)) as [rc ifa] eqn:Hg.
      destruct (rc =? 0) eqn:Hrc; cbn [negb orb]; [ destruct ifa as [ | i ifa ] | ];
        cbv beta iota; cbn [has_value as_failure FailedPreconditionError].
      * split; [ reflexivity | right ]. rewrite !filter_app, He. reflexivity.
      * apply Z.eqb_eq in Hrc. subst rc.
        split; [ discriminate | ]. split; [ exact Hp | ].
        split; [ rewrite !filter_app, He; reflexivity | ].
        exists e. rewrite app_nil_r. split; [ reflexivity | exact Hg ].
      * split; [ reflexivity | right ]. rewrite !filter_app, He. reflexivity.
    + cbn [has_value]. rewrite app_nil_r. split; [ reflexivity | left; exact He ].
  - cbv beta iota.
    destruct (sys_getifaddrs P (h ++ [])) as [rc ifa] eqn:Hg.
    destruct (rc =? 0) eqn:Hrc; cbn [negb orb]; [ destruct ifa as [ | i ifa ] | ];
      cbv beta iota; cbn [has_value as_failure FailedPreconditionError app].
    + split; [ reflexivity | right; reflexivity ].
    + apply Z.eqb_eq in Hrc. subst rc.
      split; [ discriminate | ]. split; [ split; reflexivity | ].
      split; [ reflexivity | ].
      exists []. split; [ reflexivity | exact Hg ].
    + split; [ reflexivity | right; reflexivity ].
Qed.

Lemma enum_inv_start (ls : ListenerSocketsContainer) : enum_inv ls (enum_start ls).
Proof. exists []. cbn. rewrite app_nil_r. split; reflexivity. Qed.

(** The loop keeps [enum_inv]. *)
Lemma AddAllLocalAddresses_loop_inv
      (P : Platform) (options : PosixTcpOptions) (rp : Z) (ls : ListenerSocketsContainer)
      (ifs : list ifaddrs) :
  forall (st st' : EnumState) (h : History) (cs : list Call),
    AddAllLocalAddresses_loop P options rp ifs st h = (Done st', cs) ->
    enum_inv ls st -> enum_inv ls st'.
Proof.
  induction ifs as [ | ifa_it ifs IH ]; intros st st' h cs Hrun Hinv.
  - cbn [AddAllLocalAddresses_loop] in Hrun. unfold ret in Hrun. injection Hrun as <- _.
    exact Hinv.
  - cbn [AddAllLocalAddresses_loop] in Hrun. unfold bind in Hrun.
    rewrite AddAllLocalAddresses_body_cases in Hrun.
    assert (Hnext : forall st1 h1 e',
               enum_inv ls st1 ->
               (let (o, e) := AddAllLocalAddresses_loop P options rp ifs st1 h1 in (o, e' ++ e))
               = (Done st', cs) ->
               enum_inv ls st').
    { intros st1 h1 e' Hinv1 Heq.
      destruct (AddAllLocalAddresses_loop P options rp ifs st1 h1) as [o e] eqn:Hloop.
      injection Heq as -> _. exact (IH st1 st' h1 e Hloop Hinv1). }
    destruct (candidate_address P options rp ifa_it) as [a | ];
      [ | exact (Hnext _ _ _ Hinv Hrun) ].
    destruct (ResolvedAddressToString P a) as [addr_str | c m]; [ | discriminate Hrun ].
    destruct (has_value (Find (listener_sockets st) a)); [ exact (Hnext _ _ _ Hinv Hrun) | ].
    destruct (CreateAndPrepareListenerSocket P options a h) as [[[s | c m] | ] cs0]
      eqn:Hbind; [ | | discriminate Hrun ].
    + apply CreateAndPrepare_value in Hbind. destruct Hbind as (Hpos & _).
      apply (Hnext _ _ _) with (2 := Hrun).
      destruct Hinv as (added & Hadd & _).
      exists (added ++ [s]). cbn [listener_sockets no_local_addresses assigned_port].
      split; [ rewrite Hadd, app_assoc; reflexivity | ].
      exists added, s. repeat split. exact Hpos.
    + unfold ret in Hrun. injection Hrun as <- _.
      destruct Hinv as (added & Hadd & Hrest).
      exists added. cbn [listener_sockets no_local_addresses assigned_port].
      split; assumption.
Qed.


Lemma ListenerContainerAddAllLocalAddresses_early
      (P : Platform) (ls : ListenerSocketsContainer) (options : PosixTcpOptions)
      (rp : Z) (h : History) (early : StatusOr Z) (e0 : list Call) :
  GRPC_HAVE_IFADDRS P = true ->
  AddAllLocalAddresses_setup P rp h = (Done (inl early), e0) ->
  ListenerContainerAddAllLocalAddresses P ls options rp h = (Done (early, ls), e0).
Proof.
  intros Hifa Hsetup. unfold ListenerContainerAddAllLocalAddresses.
  rewrite Hifa. cbn [negb]. unfold bind at 1. rewrite Hsetup. unfold ret.
  rewrite app_nil_r. reflexivity.
Qed.


(** X11. An interface list that cannot be obtained, or is empty, is reported
    as a [getifaddrs] error (an empty list is not reported as "No local
    addresses"): nothing is appended, no socket is requested and the list is
    not freed. *)
Theorem AddAllLocalAddresses_no_interface_list
        (P : Platform) (ls : ListenerSocketsContainer) (options : PosixTcpOptions)
        (rp : Z) (h : History) :
  GRPC_HAVE_IFADDRS P = true ->
  rp <> 0 ->
  fst (sys_getifaddrs P h) <> 0 \/ snd (sys_getifaddrs P h) = [] ->
  ListenerContainerAddAllLocalAddresses P ls options rp h
  = (Done (Failure kFailedPrecondition
                   (StrCat ["getifaddrs: "; sys_strerror_errno P (h ++ [call_getifaddrs])]),
           ls),
     [call_getifaddrs]).
Proof.
  intros Hifa Hrp Hlist.
  apply ListenerContainerAddAllLocalAddresses_early; [ exact Hifa | ].
  unfold AddAllLocalAddresses_setup.
  apply Z.eqb_neq in Hrp. rewrite Hrp.
  cbv beta delta [bind getifaddrs perform strerror_errno observe ret]. cbv beta iota.
  rewrite !app_nil_r.
  destruct (sys_getifaddrs P h) as [rc ifa]. cbn [fst snd] in Hlist.
  assert (E : negb (rc =? 0) || match ifa with [] => true | _ :: _ => false end = true).
  { destruct Hlist as [Hrc | ->].
    - apply Z.eqb_neq in Hrc. rewrite Hrc. reflexivity.
    - apply orb_true_r. }
  rewrite E. reflexivity.
Qed.

Lemma AddAllLocalAddresses_no_interface_list_witness :
  let P := Sim.platform (Sim.linux []) in
  snd (sys_getifaddrs P []) = []
  /\ ListenerContainerAddAllLocalAddresses P [] Sim.default_options 8080 []
     = (Done (Failure kFailedPrecondition
                      (StrCat ["getifaddrs: "; sys_strerror_errno P ([] ++ [call_getifaddrs])]),
              []),
        [call_getifaddrs]).
Proof.
  intros P. split; [ reflexivity | ].
  apply (AddAllLocalAddresses_no_interface_list P [] Sim.default_options 8080 []).
  - reflexivity.
  - discriminate.
  - right. reflexivity.
Defined.


(** Every socket the loop appends was returned by
    [CreateAndPrepareListenerSocket] for the address of a listed interface. *)
Lemma AddAllLocalAddresses_loop_appended
      (P : Platform) (options : PosixTcpOptions) (rp : Z) (ifs : list ifaddrs) :
  forall (st st' : EnumState) (h : History) (cs : list Call),
    AddAllLocalAddresses_loop P options rp ifs st h = (Done st', cs) ->
    exists added,
      listener_sockets st' = listener_sockets st ++ added
      /\ Forall (fun s => exists ifa_it a h' cs',
                     In ifa_it ifs /\ candidate_address P options rp ifa_it = Some a
                     /\ CreateAndPrepareListenerSocket P options a h' = (Done (Value s), cs'))
                added.
Proof.
  induction ifs as [ | ifa_it ifs IH ]; intros st st' h cs Hrun.
  - cbn [AddAllLocalAddresses_loop] in Hrun. unfold ret in Hrun. injection Hrun as <- _.
    exists []. rewrite app_nil_r. split; [ reflexivity | constructor ].
  - cbn [AddAllLocalAddresses_loop] in Hrun. unfold bind in Hrun.
    rewrite AddAllLocalAddresses_body_cases in Hrun.
    assert (Hnext : forall st1 h1 e',
               (let (o, e) := AddAllLocalAddresses_loop P options rp ifs st1 h1 in (o, e' ++ e))
               = (Done st', cs) ->
               exists added,
                 listener_sockets st' = listener_sockets st1 ++ added
                 /\ Forall (fun s => exists ifa a h' cs',
                                In ifa (ifa_it :: ifs)
                                /\ candidate_address P options rp ifa = Some a
                                /\ CreateAndPrepareListenerSocket P options a h'
                                   = (Done (Value s), cs'))
                           added).
    { intros st1 h1 e' Heq.
      destruct (AddAllLocalAddresses_loop P options rp ifs st1 h1) as [o e] eqn:Hloop.
      injection Heq as -> _. destruct (IH st1 st' h1 e Hloop) as (added & Hadd & Hall).
      exists added. split; [ exact Hadd | ].
      eapply Forall_impl; [ | exact Hall ].
      intros s (ifa & a & h' & cs' & Hin & Hc & Hr). exists ifa, a, h', cs'.
      repeat split; auto. right. exact Hin. }
    destruct (candidate_address P options rp ifa_it) as [a | ] eqn:Hcand;
      [ | exact (Hnext _ _ _ Hrun) ].
    destruct (ResolvedAddressToString P a) as [addr_str | c m]; [ | discriminate Hrun ].
    destruct (has_value (Find (listener_sockets st) a)); [ exact (Hnext _ _ _ Hrun) | ].
    destruct (CreateAndPrepareListenerSocket P options a h) as [[[s | c m] | ] cs0]
      eqn:Hbind; [ | | discriminate Hrun ].
    + destruct (Hnext _ _ _ Hrun) as (added & Hadd & Hall).
      cbn [listener_sockets] in Hadd.
      exists (s :: added). split; [ rewrite Hadd, <- app_assoc; reflexivity | ].
      constructor; [ | exact Hall ].
      exists ifa_it, a, h, cs0. repeat split; auto. left. reflexivity.
    + unfold ret in Hrun. injection Hrun as <- _.
      exists []. cbn [listener_sockets]. rewrite app_nil_r.
      split; [ reflexivity | constructor ].
Qed.

(** The container the enumerator returns, against the one it was handed. *)
Lemma AddAllLocalAddresses_appends
      (P : Platform) (ls : ListenerSocketsContainer) (options : PosixTcpOptions)
      (rp : Z) (h : History) :
  match fst (ListenerContainerAddAllLocalAddresses P ls options rp h) with
  | Done (r, ls') =>
      exists added,
        ls' = ls ++ added
        /\ Forall (fun s => 0 < port s) added
        /\ match r with
           | Value p => exists earlier s, added = earlier ++ [s] /\ port s = p
           | Failure _ _ => True
           end
  | Aborted => True
  end.
Proof.
  destruct (GRPC_HAVE_IFADDRS P) eqn:Hifa;
    [ | unfold ListenerContainerAddAllLocalAddresses; rewrite Hifa; exact I ].
  pose proof (AddAllLocalAddresses_setup_cases P rp h) as Hs.
  destruct (AddAllLocalAddresses_setup P rp h) as [[[early | [rp' ifs]] | ] e0] eqn:Hsetup;
    [ | | contradiction Hs ].
  - rewrite (ListenerContainerAddAllLocalAddresses_early P ls options rp h early e0
               Hifa Hsetup).
    cbn [fst]. exists []. rewrite app_nil_r.
    split; [ reflexivity | split; [ constructor | ] ].
    destruct Hs as [Hv _]. destruct early; [ discriminate Hv | exact I ].
  - rewrite (ListenerContainerAddAllLocalAddresses_run P ls options rp rp' ifs h e0
               Hifa Hsetup).
    destruct (AddAllLocalAddresses_loop P options rp' ifs (enum_start ls) (h ++ e0))
      as [[st | ] e1] eqn:Hloop; cbn [fst]; [ | exact I ].
    pose proof (AddAllLocalAddresses_loop_inv P options rp' ls ifs _ _ _ _ Hloop
                  (enum_inv_start ls)) as (added & Hadd & Hlast).
    destruct (AddAllLocalAddresses_loop_appended P options rp' ifs _ _ _ _ Hloop)
      as (added' & Hadd' & Hall).
    cbn [enum_start listener_sockets] in Hadd'.
    assert (added' = added) by (rewrite Hadd in Hadd'; apply app_inv_head in Hadd'; auto).
    subst added'.
    assert (Hpos : Forall (fun s => 0 < port s) added).
    { eapply Forall_impl; [ | exact Hall ].
      intros s (ifa & a & h' & cs' & _ & _ & Hrun).
      apply CreateAndPrepare_value in Hrun. tauto. }
    unfold enum_result.
    destruct (negb (ok (op_status st))).
    + exists added. split; [ exact Hadd | split; [ exact Hpos | ] ].
      destruct (op_status st); exact I.
    + destruct (no_local_addresses st).
      * exists added. split; [ exact Hadd | split; [ exact Hpos | exact I ] ].
      * exists added. split; [ exact Hadd | split; [ exact Hpos | ] ].
        destruct Hlast as (earlier & s & -> & Hp & _).
        exists earlier, s. split; [ reflexivity | symmetry; exact Hp ].
Qed.

(** X12. Whatever the enumerator returns, the container is the one it was
    handed followed by the sockets it appended, each with a positive port.
    When it returns a port, at least one socket was appended, and the port is
    the port of the socket appended last. *)
Theorem AddAllLocalAddresses_returned_port
        (P : Platform) (ls : ListenerSocketsContainer) (options : PosixTcpOptions)
        (rp : Z) (h : History) :
  match fst (ListenerContainerAddAllLocalAddresses P ls options rp h) with
  | Done (r, ls') =>
      exists added,
        ls' = ls ++ added
        /\ Forall (fun s => 0 < port s) added
        /\ match r with
           | Value p => 0 < p /\ exists earlier s, added = earlier ++ [s] /\ port s = p
           | Failure _ _ => True
           end
  | Aborted => True
  end.
Proof.
  pose proof (AddAllLocalAddresses_appends P ls options rp h) as H.
  destruct (fst (ListenerContainerAddAllLocalAddresses P ls options rp h))
    as [[r ls'] | ]; [ | exact I ].
  destruct H as (added & Hadd & Hpos & Hr). exists added.
  split; [ exact Hadd | split; [ exact Hpos | ] ].
  destruct r as [p | c m]; [ | exact I ].
  destruct Hr as (earlier & s & -> & <-).
  apply Forall_app in Hpos. destruct Hpos as [_ Hs]. inversion Hs; subst.
  split; [ assumption | exists earlier, s; split; reflexivity ].
Qed.




(** X15. On a platform that keeps the kernel contract, with an interface list
    whose addresses take the shared port, every socket the enumerator appends
    carries the port its loop runs with, and so does its result: the requested
    port, or the one picked for a request of port 0. *)
Theorem AddAllLocalAddresses_one_port
        (P : Platform) (ls : ListenerSocketsContainer) (options : PosixTcpOptions)
        (rp rp' : Z) (ifs : list ifaddrs) (h : History) (e0 : list Call) :
  KernelContract P ->
  GRPC_HAVE_IFADDRS P = true ->
  AddAllLocalAddresses_setup P rp h = (Done (inr (rp', ifs)), e0) ->
  (forall ifa_it a, In ifa_it ifs -> candidate_address P options rp' ifa_it = Some a ->
                    ResolvedAddressGetPort P a = rp') ->
  match fst (ListenerContainerAddAllLocalAddresses P ls options rp h) with
  | Done (r, ls') =>
      exists added,
        ls' = ls ++ added
        /\ Forall (fun s => port s = rp') added
        /\ match r with Value p => p = rp' | Failure _ _ => True end
  | Aborted => True
  end.
Proof.
  intros K Hifa Hsetup Hports.
  assert (Hrp' : rp' <> 0).
  { pose proof (AddAllLocalAddresses_setup_cases P rp h) as Hs. rewrite Hsetup in Hs.
    destruct Hs as (_ & Hp & _).
    destruct (rp =? 0) eqn:E; [ lia | ].
    apply Z.eqb_neq in E. destruct Hp as [-> _]. exact E. }
  rewrite (ListenerContainerAddAllLocalAddresses_run P ls options rp rp' ifs h e0
             Hifa Hsetup).
  destruct (AddAllLocalAddresses_loop P options rp' ifs (enum_start ls) (h ++ e0))
    as [[st | ] e1] eqn:Hloop; cbn [fst]; [ | exact I ].
  destruct (AddAllLocalAddresses_loop_appended P options rp' ifs _ _ _ _ Hloop)
    as (added & Hadd & Hall).
  pose proof (AddAllLocalAddresses_loop_inv P options rp' ls ifs _ _ _ _ Hloop
                (enum_inv_start ls)) as (added' & Hadd' & Hlast).
  cbn [enum_start listener_sockets] in Hadd.
  assert (added' = added) by (rewrite Hadd in Hadd'; apply app_inv_head in Hadd'; auto).
  subst added'.
  assert (Hp : Forall (fun s => port s = rp') added).
  { eapply Forall_impl; [ | exact Hall ].
    intros s (ifa & a & h' & cs' & Hin & Hcand & Hrun).
    pose proof (CreateAndPrepare_under_contract P K options a h') as HK.
    rewrite Hrun in HK. cbn [fst] in HK. destruct HK as [_ HK].
    rewrite (Hports ifa a Hin Hcand) in HK. apply HK. exact Hrp'. }
  unfold enum_result.
  destruct (negb (ok (op_status st))).
  - exists added. repeat split; auto. destruct (op_status st); exact I.
  - destruct (no_local_addresses st).
    + exists added. repeat split; auto.
    + exists added. repeat split; auto.
      destruct Hlast as (earlier & s & -> & -> & _).
      apply Forall_app in Hp. destruct Hp as [_ Hs].
      inversion Hs; subst. reflexivity.
Qed.

Lemma AddAllLocalAddresses_one_port_witness :
  let P := Sim.platform (Sim.linux Sim.lan) in
  (forall ifa_it a, In ifa_it Sim.lan ->
                    candidate_address P Sim.default_options 8080 ifa_it = Some a ->
                    ResolvedAddressGetPort P a = 8080)
  /\ match fst (ListenerContainerAddAllLocalAddresses P [] Sim.default_options 8080 []) with
     | Done (r, ls') =>
         exists added,
           ls' = [] ++ added
           /\ Forall (fun s => port s = 8080) added
           /\ match r with Value p => p = 8080 | Failure _ _ => True end
     | Aborted => True
     end.
Proof.
  intros P.
  assert (Hports : forall ifa_it a,
             In ifa_it Sim.lan ->
             candidate_address P Sim.default_options 8080 ifa_it = Some a ->
             ResolvedAddressGetPort P a = 8080).
  { intros ifa_it a Hin Hc. unfold Sim.lan in Hin. cbn [In] in Hin.
    destruct Hin as [<- | [<- | [<- | [<- | []]]]];
      vm_compute in Hc; injection Hc as <-; vm_compute; reflexivity. }
  split; [ exact Hports | ].
  apply (AddAllLocalAddresses_one_port
           P [] Sim.default_options 8080 8080 Sim.lan [] [call_getifaddrs]).
  - apply Sim_keeps_contract.
  - reflexivity.
  - vm_compute. reflexivity.
  - exact Hports.
Defined.

(** ** Wildcard orchestrator: the two paths together *)

(** X16. The wildcard fallback as a whole. It asks for the IPv6 wildcard
    socket first and for at most one more socket, the IPv4 wildcard; it never
    touches the interface list. The container only grows, by at most two
    sockets; on success the port returned is the positive port of the last
    socket appended, and on an error the container is returned as it was. *)
Theorem Wildcard_fallback_appends
        (P : Platform) (ls : ListenerSocketsContainer) (options : PosixTcpOptions)
        (rp : Z) (h : History) :
  SystemHasIfAddrs P && expand_wildcard_addrs options = false ->
  let run := ListenerContainerAddWildcardAddresses P ls options rp h in
  filter is_interface_list_call (snd run) = []
  /\ (exists k, filter is_socket_request (snd run)
                = firstn (S k) [call_CreateDualStackSocket (ResolvedAddressMakeWild6 P rp);
                                call_CreateDualStackSocket (v4_address P options rp h)])
  /\ match fst run with
     | Done (r, ls') =>
         exists added,
           ls' = ls ++ added /\ (List.length added <= 2)%nat
           /\ match r with
              | Value p => 0 < p /\ exists earlier s, added = earlier ++ [s] /\ port s = p
              | Failure _ _ => added = []
              end
     | Aborted => True
     end.
Proof.
  intros Hfb run. subst run.
  rewrite (Wildcard_fallback_cases P ls options rp h Hfb).
  pose proof (CreateAndPrepare_requests P options (ResolvedAddressMakeWild6 P rp) h)
    as [R6 L6].
  pose proof (CreateAndPrepare_requests P options (v4_address P options rp h)
                (h ++ snd (v6_attempt P options rp h))) as [R4 L4].
  fold (v6_attempt P options rp h) in R6, L6.
  fold (v4_attempt P options rp h) in R4, L4.
  assert (Hone : exists k, [call_CreateDualStackSocket (ResolvedAddressMakeWild6 P rp)]
                           = firstn (S k)
                               [call_CreateDualStackSocket (ResolvedAddressMakeWild6 P rp);
                                call_CreateDualStackSocket (v4_address P options rp h)])
    by (exists 0%nat; reflexivity).
  assert (Htwo : exists k, [call_CreateDualStackSocket (ResolvedAddressMakeWild6 P rp)]
                           ++ [call_CreateDualStackSocket (v4_address P options rp h)]
                           = firstn (S k)
                               [call_CreateDualStackSocket (ResolvedAddressMakeWild6 P rp);
                                call_CreateDualStackSocket (v4_address P options rp h)])
    by (exists 1%nat; reflexivity).
  destruct (v6_attempt P options rp h) as [[[s6 | c6 m6] | ] e6] eqn:H6; cbn [fst snd] in *.
  - unfold v6_attempt in H6. apply CreateAndPrepare_value in H6. destruct H6 as (Hp6 & _).
    destruct (covers_ipv4 s6); cbn [fst snd].
    + split; [ exact L6 | split; [ rewrite R6; exact Hone | ] ].
      exists [s6]. split; [ reflexivity | split; [ cbn; lia | ] ].
      split; [ exact Hp6 | exists [], s6; split; reflexivity ].
    + destruct (v4_attempt P options rp h) as [[[s4 | c4 m4] | ] e4] eqn:H4;
        cbn [fst snd] in *.
      all: rewrite !filter_app, L6, L4, R6, R4.
      all: split; [ reflexivity | split; [ exact Htwo | ] ].
      * unfold v4_attempt in H4. apply CreateAndPrepare_value in H4.
        destruct H4 as (Hp4 & _).
        exists [s6; s4]. split; [ reflexivity | split; [ cbn; lia | ] ].
        split; [ exact Hp4 | exists [s6], s4; split; reflexivity ].
      * exists [s6]. split; [ reflexivity | split; [ cbn; lia | ] ].
        split; [ exact Hp6 | exists [], s6; split; reflexivity ].
      * exact I.
  - destruct (v4_attempt P options rp h) as [[[s4 | c4 m4] | ] e4] eqn:H4;
      cbn [fst snd] in *.
    all: rewrite !filter_app, L6, L4, R6, R4.
    all: split; [ reflexivity | split; [ exact Htwo | ] ].
    + unfold v4_attempt in H4. apply CreateAndPrepare_value in H4.
      destruct H4 as (Hp4 & _).
      exists [s4]. split; [ reflexivity | split; [ cbn; lia | ] ].
      split; [ exact Hp4 | exists [], s4; split; reflexivity ].
    + exists []. split; [ rewrite app_nil_r; reflexivity | split; [ cbn; lia | reflexivity ] ].
    + exact I.
  - split; [ exact L6 | split; [ rewrite R6; exact Hone | exact I ] ].
Qed.

Lemma Wildcard_fallback_appends_witness :
  let P := Sim.platform (Sim.wildcard_host DSMODE_IPV6 true) in
  let run := ListenerContainerAddWildcardAddresses P [] Sim.default_options 8080 [] in
  SystemHasIfAddrs P && expand_wildcard_addrs Sim.default_options = false
  /\ filter is_interface_list_call (snd run) = []
  /\ (exists k, filter is_socket_request (snd run)
                = firstn (S k)
                    [call_CreateDualStackSocket (ResolvedAddressMakeWild6 P 8080);
                     call_CreateDualStackSocket (v4_address P Sim.default_options 8080 [])])
  /\ match fst run with
     | Done (r, ls') =>
         exists added,
           ls' = [] ++ added /\ (List.length added <= 2)%nat
           /\ match r with
              | Value p => 0 < p /\ exists earlier s, added = earlier ++ [s] /\ port s = p
              | Failure _ _ => added = []
              end
     | Aborted => True
     end.
Proof.
  intros P run. split; [ reflexivity | ].
  apply (Wildcard_fallback_appends P [] Sim.default_options 8080 []).
  reflexivity.
Defined.

(** X17. The orchestrator, on either path: the container it returns is the one
    it was handed followed by the sockets it appended, each with a positive
    port; and a port it returns is the port of the socket appended last, so a
    success always leaves at least one new listener in the container. *)
Theorem AddWildcardAddresses_returned_port
        (P : Platform) (ls : ListenerSocketsContainer) (options : PosixTcpOptions)
        (rp : Z) (h : History) :
  match fst (ListenerContainerAddWildcardAddresses P ls options rp h) with
  | Done (r, ls') =>
      exists added,
        ls' = ls ++ added
        /\ Forall (fun s => 0 < port s) added
        /\ match r with
           | Value p => 0 < p /\ exists earlier s, added = earlier ++ [s] /\ port s = p
           | Failure _ _ => True
           end
  | Aborted => True
  end.
Proof.
  destruct (SystemHasIfAddrs P && expand_wildcard_addrs options) eqn:Hfb.
  - assert (E : ListenerContainerAddWildcardAddresses P ls options rp h
                = ListenerContainerAddAllLocalAddresses P ls options rp h).
    { unfold ListenerContainerAddWildcardAddresses. rewrite Hfb. reflexivity. }
    rewrite E. pose proof (AddAllLocalAddresses_appends P ls options rp h) as H.
    destruct (fst (ListenerContainerAddAllLocalAddresses P ls options rp h))
      as [[r ls'] | ]; [ | exact I ].
    destruct H as (added & Hadd & Hpos & Hr). exists added.
    split; [ exact Hadd | split; [ exact Hpos | ] ].
    destruct r as [p | c m]; [ | exact I ].
    destruct Hr as (earlier & s & -> & <-).
    apply Forall_app in Hpos. destruct Hpos as [_ Hs]. inversion Hs; subst.
    split; [ assumption | exists earlier, s; split; reflexivity ].
  - rewrite (Wildcard_fallback_cases P ls options rp h Hfb).
    destruct (v6_attempt P options rp h) as [[[s6 | c6 m6] | ] e6] eqn:H6; cbn [fst].
    + unfold v6_attempt in H6. apply CreateAndPrepare_value in H6. destruct H6 as (Hp6 & _).
      destruct (covers_ipv4 s6); cbn [fst].
      * exists [s6]. split; [ reflexivity | split; [ repeat constructor; exact Hp6 | ] ].
        split; [ exact Hp6 | exists [], s6; split; reflexivity ].
      * destruct (v4_attempt P options rp h) as [[[s4 | c4 m4] | ] e4] eqn:H4; cbn [fst].
        -- unfold v4_attempt in H4. apply CreateAndPrepare_value in H4.
           destruct H4 as (Hp4 & _).
           exists [s6; s4]. split; [ reflexivity | split; [ repeat constructor; assumption | ] ].
           split; [ exact Hp4 | exists [s6], s4; split; reflexivity ].
        -- exists [s6]. split; [ reflexivity | split; [ repeat constructor; exact Hp6 | ] ].
           split; [ exact Hp6 | exists [], s6; split; reflexivity ].
        -- exact I.
    + destruct (v4_attempt P options rp h) as [[[s4 | c4 m4] | ] e4] eqn:H4; cbn [fst].
      * unfold v4_attempt in H4. apply CreateAndPrepare_value in H4.
        destruct H4 as (Hp4 & _).
        exists [s4]. split; [ reflexivity | split; [ repeat constructor; exact Hp4 | ] ].
        split; [ exact Hp4 | exists [], s4; split; reflexivity ].
      * exists []. rewrite app_nil_r. split; [ reflexivity | split; [ constructor | exact I ] ].
      * exact I.
    + exact I.
Qed.
